(** * Assignment_Duper: the generation pipeline and its service layer

    A shallow embedding of the TypeScript sources

    - [App.tsx] (the component whose [handleProcess] drives the pipeline),
    - [services/geminiService.ts] (the four stage functions and their
      response interpreters; the repository holds two copies that differ in
      prompt wording and in one message),

    together with the small part of the JavaScript runtime they rely on
    (strings of UTF-16 code units, binary64 numbers, [JSON.parse],
    [JSON.stringify], the truthiness and string conversions). *)

From Stdlib Require Import List Bool Arith NArith ZArith Lia.
From Stdlib Require Import QArith Qpower Qround Qabs.
From Stdlib Require Import String Ascii DecimalString.
Import ListNotations.
Close Scope Q_scope.

Set Implicit Arguments.
Set Warnings "-register-all".

(* ================================================================== *)
(** * JavaScript strings *)
(* ================================================================== *)

Module Js.

(** A JavaScript string is a sequence of UTF-16 code units. *)
Definition jsstring := list N.

(** Literals are written as Rocq strings and read through [js]. *)
Definition js (s : string) : jsstring :=
  map N_of_ascii (list_ascii_of_string s).

(** The double quote, which a Rocq literal cannot hold conveniently. *)
Definition dq : jsstring := [34%N].

Fixpoint eqb_str (a b : jsstring) : bool :=
  match a, b with
  | [], [] => true
  | x :: a', y :: b' => N.eqb x y && eqb_str a' b'
  | _, _ => false
  end.

(** [s.startsWith(p)]. *)
Fixpoint startsWith (p s : jsstring) : bool :=
  match p, s with
  | [], _ => true
  | _ :: _, [] => false
  | x :: p', y :: s' => N.eqb x y && startsWith p' s'
  end.

(** [s.includes(p)]. *)
Fixpoint includes (p s : jsstring) : bool :=
  startsWith p s ||
  match s with
  | [] => false
  | _ :: s' => includes p s'
  end.

(** [s.replace(/p/g, '')] for a literal, non-empty pattern [p]: matches are
    found left to right and do not overlap.  [skip] counts the code units of
    the current match that are still to be dropped. *)
Fixpoint removeAllFrom (p : jsstring) (skip : nat) (s : jsstring) : jsstring :=
  match s with
  | [] => []
  | c :: s' =>
      match skip with
      | S k => removeAllFrom p k s'
      | O =>
          if startsWith p s
          then removeAllFrom p (pred (List.length p)) s'
          else c :: removeAllFrom p 0 s'
      end
  end.

Definition removeAll (p s : jsstring) : jsstring :=
  match p with
  | [] => s
  | _ => removeAllFrom p 0 s
  end.

(** White space and line terminators of ECMAScript: what [trim] strips and
    what [\s] matches. *)
Definition isWhiteSpace (c : N) : bool :=
  ((9 <=? c) && (c <=? 13) || (c =? 32) || (c =? 160) || (c =? 5760)
   || (8192 <=? c) && (c <=? 8202) || (c =? 8232) || (c =? 8233)
   || (c =? 8239) || (c =? 8287) || (c =? 12288) || (c =? 65279))%N.

Fixpoint trimStart (s : jsstring) : jsstring :=
  match s with
  | c :: s' => if isWhiteSpace c then trimStart s' else s
  | [] => []
  end.

Definition trim (s : jsstring) : jsstring :=
  rev (trimStart (rev (trimStart s))).

(** [s.split(',')]. *)
Fixpoint splitComma (cur : jsstring) (s : jsstring) : list jsstring :=
  match s with
  | [] => [rev cur]
  | c :: s' =>
      if (c =? 44)%N then rev cur :: splitComma [] s'
      else splitComma (c :: cur) s'
  end.

(** [s.split(',')[1]]: [None] stands for [undefined]. *)
Definition secondField (s : jsstring) : option jsstring :=
  nth_error (splitComma [] s) 1.

(** The decimal form of a natural number, as a template literal prints it. *)
Definition ofNat (n : nat) : jsstring :=
  js (NilEmpty.string_of_uint (Nat.to_uint n)).

(** [s.replace(/#{1,6}\s?/g, '')]: a greedy run of at most six hashes and
    one optional white-space unit after it. *)
Fixpoint hashRun (limit : nat) (s : jsstring) : nat :=
  match limit, s with
  | S l, c :: s' => if (c =? 35)%N then S (hashRun l s') else 0
  | _, _ => 0
  end.

Definition headerMatch (s : jsstring) : nat :=
  let n := hashRun 6 s in
  match n with
  | O => 0
  | _ =>
      match skipn n s with
      | c :: _ => if isWhiteSpace c then S n else n
      | [] => n
      end
  end.

Fixpoint removeHeadersFrom (skip : nat) (s : jsstring) : jsstring :=
  match s with
  | [] => []
  | c :: s' =>
      match skip with
      | S k => removeHeadersFrom k s'
      | O =>
          match headerMatch s with
          | O => c :: removeHeadersFrom 0 s'
          | S k => removeHeadersFrom k s'
          end
      end
  end.

Definition removeHeaders (s : jsstring) : jsstring := removeHeadersFrom 0 s.

End Js.
Import Js.


(* ================================================================== *)
(** * Thrown values *)
(* ================================================================== *)

(** What a [catch] clause inspects of a thrown value: [error?.message || '']
    and [JSON.stringify(error)].  Thrown values are taken to be objects with
    a string (or no) message, as [Error] and the backend's errors are. *)
Record JsError : Type := mkError
  { message : jsstring;
    serialized : jsstring }.

(** [new Error(msg)]: the message is not enumerable, so the object
    serializes to the empty object. *)
Definition newError (msg : jsstring) : JsError :=
  {| message := msg; serialized := js "{}" |}.

(** A computation either returns or throws. *)
Inductive Result (A : Type) : Type :=
| Ok (a : A)
| Throw (e : JsError).
Arguments Ok {A} a.
Arguments Throw {A} e.

(* ================================================================== *)
(** * Numbers *)
(* ================================================================== *)

(** A JavaScript number is an IEEE 754 binary64 value.  A finite one is
    kept as the rational it denotes; every operation rounds its exact
    result to the nearest binary64 value, ties to the even significand. *)
Module Double.

(** The integer nearest to [y], the even one of two equally near. *)
Definition nearestEven (y : Q) : Z :=
  let f := Qfloor y in
  match Qcompare (y - inject_Z f) (1 # 2) with
  | Lt => f
  | Gt => (f + 1)%Z
  | Eq => if Z.even f then f else (f + 1)%Z
  end.

(** For positive [x], the [e] with [2^e <= x < 2^(e+1)]. *)
Definition binade (x : Q) : Z :=
  let k := (Z.log2 (Qnum x) - Z.log2 (Zpos (Qden x)))%Z in
  if Qle_bool (2 ^ k) x then k else (k - 1)%Z.

(** The exponent of the last place: 53 significant bits, and no place
    below [2^-1074] (the subnormal numbers). *)
Definition ulpExponent (x : Q) : Z := Z.max (binade x - 52) (-1074).

Definition roundPositive (x : Q) : Q :=
  (inject_Z (nearestEven (x / 2 ^ ulpExponent x)) * 2 ^ ulpExponent x)%Q.

(** The binary64 value of the real [x], for [x] that does not round to an
    infinity (see [overflows]). *)
Definition round (x : Q) : Q :=
  match Qnum x with
  | Z0 => 0%Q
  | Zpos _ => roundPositive x
  | Zneg _ => (- roundPositive (- x))%Q
  end.

(** [x] rounds to [Infinity] or [-Infinity]: it is at least half a place
    beyond the largest finite value, [2^1024 - 2^971]. *)
Definition overflows (x : Q) : bool :=
  Qle_bool (2 ^ 1024 - 2 ^ 970) (Qabs x).

(** [x + y], [x * y] and [x / y] for operands whose result stays finite
    and, for the quotient, a divisor that is not zero. *)
Definition add (x y : Q) : Q := round (x + y).
Definition mul (x y : Q) : Q := round (x * y).
Definition div (x y : Q) : Q := round (x / y).

(** ** The digits [Number::toString] prints *)

Definition decimalDigits (n : Z) : Z :=
  Z.of_nat (String.length (NilEmpty.string_of_uint (N.to_uint (Z.to_N n)))).

(** The [n] with [10^(n-1) <= v < 10^n], for [v] of at least [10^-400]. *)
Definition decimalExponent (v : Q) : Z :=
  (decimalDigits (Qfloor (v * 10 ^ 400)) - 400)%Z.

(** Of the two decimals [s * 10^(n-k)] next to [v], one that reads back
    as [v]: the nearer one, and the even one in a tie. *)
Definition roundTrip (v : Q) (n : Z) (k : Z) : option Z :=
  let scale := (10 ^ (n - k))%Q in
  let lo := Qfloor (v / scale) in
  let hi := (lo + 1)%Z in
  let ok s := Qeq_bool (round (inject_Z s * scale)) v in
  match ok lo, ok hi with
  | true, false => Some lo
  | false, true => Some hi
  | false, false => None
  | true, true =>
      match Qcompare (v - inject_Z lo * scale) (inject_Z hi * scale - v) with
      | Lt => Some lo
      | Gt => Some hi
      | Eq => Some (if Z.even lo then lo else hi)
      end
  end.

Fixpoint shortestFrom (v : Q) (n : Z) (ks : list Z) : Z * Z :=
  match ks with
  | [] => (0, 0)%Z
  | k :: rest =>
      match roundTrip v n k with
      | Some s => (s, (n - k)%Z)
      | None => shortestFrom v n rest
      end
  end.

(** The decimal [s * 10^e] with the fewest digits that reads back as the
    positive binary64 value [v]; seventeen digits always do. *)
Definition shortest (v : Q) : Z * Z :=
  shortestFrom v (decimalExponent v)
    [1; 2; 3; 4; 5; 6; 7; 8; 9; 10; 11; 12; 13; 14; 15; 16; 17]%Z.

End Double.

(* ================================================================== *)
(** * JSON values, [JSON.parse] and [JSON.stringify] *)
(* ================================================================== *)

Module Json.

(** A number literal, kept as the decimal [± mant * 10^exp] that was read;
    the number it stands for is that decimal rounded to binary64
    ([numValue], [numInfinite]). *)
Record JsNum : Type := mkNum
  { numNeg : bool;
    numMant : N;
    numExp : Z }.

Inductive Json : Type :=
| JNull
| JBool (b : bool)
| JNumber (n : JsNum)
| JString (s : jsstring)
| JArray (elems : list Json)
| JObject (fields : list (jsstring * Json)).

(** ** Property order of ordinary objects

    Array-index keys come first in ascending order, then the other keys in
    insertion order; defining an existing key keeps its place. *)

Definition isDigit (c : N) : bool := ((48 <=? c) && (c <=? 57))%N.

Fixpoint digitsValue (acc : N) (s : jsstring) : option N :=
  match s with
  | [] => Some acc
  | c :: s' =>
      if isDigit c then digitsValue (acc * 10 + (c - 48))%N s' else None
  end.

Definition arrayIndex (k : jsstring) : option N :=
  match k with
  | [] => None
  | c :: rest =>
      if (c =? 48)%N && negb (Nat.eqb (List.length rest) 0) then None
      else if Nat.ltb 10 (List.length k) then None
      else match digitsValue 0 k with
           | Some v => if (v <=? 4294967294)%N then Some v else None
           | None => None
           end
  end.

Fixpoint hasKey (fs : list (jsstring * Json)) (k : jsstring) : bool :=
  match fs with
  | [] => false
  | (k', _) :: rest => eqb_str k k' || hasKey rest k
  end.

Fixpoint replaceKey (fs : list (jsstring * Json)) (k : jsstring) (v : Json)
  : list (jsstring * Json) :=
  match fs with
  | [] => []
  | (k', v') :: rest =>
      if eqb_str k k' then (k', v) :: rest
      else (k', v') :: replaceKey rest k v
  end.

Fixpoint insertIndexKey (fs : list (jsstring * Json)) (i : N)
  (k : jsstring) (v : Json) : list (jsstring * Json) :=
  match fs with
  | [] => [(k, v)]
  | (k', v') :: rest =>
      match arrayIndex k' with
      | Some j =>
          if (j <? i)%N then (k', v') :: insertIndexKey rest i k v
          else (k, v) :: fs
      | None => (k, v) :: fs
      end
  end.

Definition objSet (fs : list (jsstring * Json)) (k : jsstring) (v : Json)
  : list (jsstring * Json) :=
  if hasKey fs k then replaceKey fs k v
  else match arrayIndex k with
       | Some i => insertIndexKey fs i k v
       | None => fs ++ [(k, v)]
       end.

(** [o.name] on an object: [None] is [undefined]. *)
Fixpoint lookupKey (fs : list (jsstring * Json)) (k : jsstring) : option Json :=
  match fs with
  | [] => None
  | (k', v) :: rest => if eqb_str k k' then Some v else lookupKey rest k
  end.

(** ** [JSON.parse]

    The grammar of ECMA-404 read one code unit at a time by a pushdown
    automaton: [stack] holds the containers that are still open, [mode] what
    is expected next.  Reading is a fold over the text, so it always ends. *)

Inductive Frame : Type :=
| FArr (revElems : list Json)
| FObj (fields : list (jsstring * Json)) (pending : option jsstring).

Inductive NumPhase : Type :=
| PMinus | PZero | PInt | PDot | PFrac | PE | PESign | PExp.

Record NumAcc : Type := mkAcc
  { accNeg : bool;
    accMant : N;
    accFrac : N;
    accExpNeg : bool;
    accExp : N;
    accPhase : NumPhase }.

Inductive Mode : Type :=
| MValue (closeOk : bool)
| MKey (closeOk : bool)
| MColon
| MAfter
| MDone (v : Json)
| MStr (isKey : bool) (acc : jsstring)
| MEsc (isKey : bool) (acc : jsstring)
| MUni (isKey : bool) (acc : jsstring) (todo : nat) (code : N)
| MNum (a : NumAcc)
| MWord (rest : jsstring) (v : Json).

Record PState : Type := mkP
  { stack : list Frame;
    mode : Mode }.

Definition isJsonSpace (c : N) : bool :=
  ((c =? 32) || (c =? 9) || (c =? 10) || (c =? 13))%N.

(** A value is complete: it goes to the innermost open container, or is the
    result. *)
Definition complete (v : Json) (st : list Frame) : option PState :=
  match st with
  | [] => Some (mkP [] (MDone v))
  | FArr es :: st' => Some (mkP (FArr (v :: es) :: st') MAfter)
  | FObj fs (Some k) :: st' =>
      Some (mkP (FObj (objSet fs k v) None :: st') MAfter)
  | FObj _ None :: _ => None
  end.

Definition finishString (isKey : bool) (s : jsstring) (st : list Frame)
  : option PState :=
  if isKey then
    match st with
    | FObj fs None :: st' => Some (mkP (FObj fs (Some s) :: st') MColon)
    | _ => None
    end
  else complete (JString s) st.

Definition numAccepting (p : NumPhase) : bool :=
  match p with
  | PZero | PInt | PFrac | PExp => true
  | _ => false
  end.

Definition finishNum (a : NumAcc) : option Json :=
  if numAccepting (accPhase a) then
    Some (JNumber
            {| numNeg := accNeg a;
               numMant := accMant a;
               numExp := ((if accExpNeg a then - Z.of_N (accExp a)
                           else Z.of_N (accExp a)) - Z.of_N (accFrac a))%Z |})
  else None.

Definition isExpMark (c : N) : bool := ((c =? 101) || (c =? 69))%N.

(** One more code unit of a number; [None] when [c] does not continue it. *)
Definition numStep (a : NumAcc) (c : N) : option NumAcc :=
  let d := (c - 48)%N in
  let phase p := mkAcc (accNeg a) (accMant a) (accFrac a) (accExpNeg a) (accExp a) p in
  match accPhase a with
  | PMinus =>
      if (c =? 48)%N then Some (phase PZero)
      else if isDigit c then Some (mkAcc (accNeg a) d 0 false 0 PInt)
      else None
  | PZero =>
      if (c =? 46)%N then Some (phase PDot)
      else if isExpMark c then Some (phase PE)
      else None
  | PInt =>
      if isDigit c
      then Some (mkAcc (accNeg a) (accMant a * 10 + d) 0 false 0 PInt)
      else if (c =? 46)%N then Some (phase PDot)
      else if isExpMark c then Some (phase PE)
      else None
  | PDot =>
      if isDigit c
      then Some (mkAcc (accNeg a) (accMant a * 10 + d) (accFrac a + 1) false 0 PFrac)
      else None
  | PFrac =>
      if isDigit c
      then Some (mkAcc (accNeg a) (accMant a * 10 + d) (accFrac a + 1) false 0 PFrac)
      else if isExpMark c then Some (phase PE)
      else None
  | PE =>
      if (c =? 43)%N then Some (phase PESign)
      else if (c =? 45)%N
      then Some (mkAcc (accNeg a) (accMant a) (accFrac a) true 0 PESign)
      else if isDigit c
      then Some (mkAcc (accNeg a) (accMant a) (accFrac a) (accExpNeg a) d PExp)
      else None
  | PESign =>
      if isDigit c
      then Some (mkAcc (accNeg a) (accMant a) (accFrac a) (accExpNeg a) d PExp)
      else None
  | PExp =>
      if isDigit c
      then Some (mkAcc (accNeg a) (accMant a) (accFrac a) (accExpNeg a)
                   (accExp a * 10 + d) PExp)
      else None
  end.

Definition hexValue (c : N) : option N :=
  if isDigit c then Some (c - 48)%N
  else if ((97 <=? c) && (c <=? 102))%N then Some (c - 87)%N
  else if ((65 <=? c) && (c <=? 70))%N then Some (c - 55)%N
  else None.

Definition unescape (c : N) : option N :=
  if (c =? 34)%N then Some 34%N
  else if (c =? 92)%N then Some 92%N
  else if (c =? 47)%N then Some 47%N
  else if (c =? 98)%N then Some 8%N
  else if (c =? 102)%N then Some 12%N
  else if (c =? 110)%N then Some 10%N
  else if (c =? 114)%N then Some 13%N
  else if (c =? 116)%N then Some 9%N
  else None.

(** A code unit where a value may start. *)
Definition stepValue (closeOk : bool) (st : list Frame) (c : N) : option PState :=
  if isJsonSpace c then Some (mkP st (MValue closeOk))
  else if (c =? 91)%N then Some (mkP (FArr [] :: st) (MValue true))
  else if (c =? 93)%N then
    match closeOk, st with
    | true, FArr es :: st' => complete (JArray (rev es)) st'
    | _, _ => None
    end
  else if (c =? 123)%N then Some (mkP (FObj [] None :: st) (MKey true))
  else if (c =? 34)%N then Some (mkP st (MStr false []))
  else if (c =? 45)%N then Some (mkP st (MNum (mkAcc true 0 0 false 0 PMinus)))
  else if (c =? 48)%N then Some (mkP st (MNum (mkAcc false 0 0 false 0 PZero)))
  else if isDigit c
  then Some (mkP st (MNum (mkAcc false (c - 48) 0 false 0 PInt)))
  else if (c =? 116)%N then Some (mkP st (MWord (js "rue") (JBool true)))
  else if (c =? 102)%N then Some (mkP st (MWord (js "alse") (JBool false)))
  else if (c =? 110)%N then Some (mkP st (MWord (js "ull") JNull))
  else None.

(** A code unit after a complete value inside a container. *)
Definition stepAfter (st : list Frame) (c : N) : option PState :=
  if isJsonSpace c then Some (mkP st MAfter)
  else if (c =? 44)%N then
    match st with
    | FArr _ :: _ => Some (mkP st (MValue false))
    | FObj _ None :: _ => Some (mkP st (MKey false))
    | _ => None
    end
  else if (c =? 93)%N then
    match st with
    | FArr es :: st' => complete (JArray (rev es)) st'
    | _ => None
    end
  else if (c =? 125)%N then
    match st with
    | FObj fs None :: st' => complete (JObject fs) st'
    | _ => None
    end
  else None.

(** A code unit after the value a number has just ended. *)
Definition stepEnded (s : PState) (c : N) : option PState :=
  match mode s with
  | MAfter => stepAfter (stack s) c
  | MDone v => if isJsonSpace c then Some s else None
  | _ => None
  end.

Definition step (s : PState) (c : N) : option PState :=
  let st := stack s in
  match mode s with
  | MValue closeOk => stepValue closeOk st c
  | MKey closeOk =>
      if isJsonSpace c then Some s
      else if (c =? 34)%N then Some (mkP st (MStr true []))
      else if (c =? 125)%N then
        match closeOk, st with
        | true, FObj fs None :: st' => complete (JObject fs) st'
        | _, _ => None
        end
      else None
  | MColon =>
      if isJsonSpace c then Some s
      else if (c =? 58)%N then Some (mkP st (MValue false))
      else None
  | MAfter => stepAfter st c
  | MDone _ => if isJsonSpace c then Some s else None
  | MStr isKey acc =>
      if (c =? 34)%N then finishString isKey (rev acc) st
      else if (c =? 92)%N then Some (mkP st (MEsc isKey acc))
      else if (c <? 32)%N then None
      else Some (mkP st (MStr isKey (c :: acc)))
  | MEsc isKey acc =>
      if (c =? 117)%N then Some (mkP st (MUni isKey acc 4 0))
      else match unescape c with
           | Some u => Some (mkP st (MStr isKey (u :: acc)))
           | None => None
           end
  | MUni isKey acc todo code =>
      match hexValue c with
      | Some h =>
          let code' := (code * 16 + h)%N in
          match todo with
          | 0%nat | 1%nat => Some (mkP st (MStr isKey (code' :: acc)))
          | S l => Some (mkP st (MUni isKey acc l code'))
          end
      | None => None
      end
  | MNum a =>
      match numStep a c with
      | Some a' => Some (mkP st (MNum a'))
      | None =>
          match finishNum a with
          | Some v =>
              match complete v st with
              | Some s' => stepEnded s' c
              | None => None
              end
          | None => None
          end
      end
  | MWord rest v =>
      match rest with
      | [] => None
      | x :: rest' =>
          if (c =? x)%N then
            match rest' with
            | [] => complete v st
            | _ => Some (mkP st (MWord rest' v))
            end
          else None
      end
  end.

Fixpoint run (s : PState) (text : jsstring) : option PState :=
  match text with
  | [] => Some s
  | c :: text' =>
      match step s c with
      | Some s' => run s' text'
      | None => None
      end
  end.

(** At the end of the text a top-level number may still be open. *)
Definition finish (s : PState) : option Json :=
  match mode s with
  | MDone v => Some v
  | MNum a =>
      match stack s, finishNum a with
      | [], Some v => Some v
      | _, _ => None
      end
  | _ => None
  end.

(** [JSON.parse(text)]; [None] is the [SyntaxError] it throws. *)
Definition parse (text : jsstring) : option Json :=
  match run (mkP [] (MValue false)) text with
  | Some s => finish s
  | None => None
  end.

(** ** Printing numbers: [Number::toString] *)

Definition digitsOf (n : N) : jsstring :=
  js (NilEmpty.string_of_uint (N.to_uint n)).

Fixpoint dropZeros (s : jsstring) : jsstring :=
  match s with
  | c :: s' => if (c =? 48)%N then dropZeros s' else s
  | [] => []
  end.

(** The magnitude a literal denotes, before rounding. *)
Definition numMagnitude (x : JsNum) : Q :=
  (inject_Z (Z.of_N (numMant x)) * 10 ^ numExp x)%Q.

(** The magnitude of the number, when it is finite. *)
Definition numValue (x : JsNum) : Q := Double.round (numMagnitude x).

Definition numInfinite (x : JsNum) : bool := Double.overflows (numMagnitude x).

(** The number is [0] or [-0]. *)
Definition numIsZero (x : JsNum) : bool := Qeq_bool (numValue x) 0.

(** The digits [mant] at the decimal exponent [exp], as [Number::toString]
    lays them out. *)
Definition formatDecimal (mant : N) (exp : Z) : jsstring :=
  let all := digitsOf mant in
  let sig := rev (dropZeros (rev all)) in
  let k := Z.of_nat (List.length sig) in
  let n := (Z.of_nat (List.length all) + exp)%Z in
  let zeros z := repeat 48%N (Z.to_nat z) in
  if ((k <=? n) && (n <=? 21))%Z then sig ++ zeros (n - k)%Z
  else if ((0 <? n) && (n <=? 21))%Z
  then firstn (Z.to_nat n) sig ++ js "." ++ skipn (Z.to_nat n) sig
  else if ((-6 <? n) && (n <=? 0))%Z
  then js "0." ++ zeros (- n)%Z ++ sig
  else
    let e := (n - 1)%Z in
    let es := (if (e <? 0)%Z then js "-" else js "+")
                ++ digitsOf (Z.to_N (Z.abs e)) in
    match sig with
    | [d] => [d] ++ js "e" ++ es
    | d :: more => [d] ++ js "." ++ more ++ js "e" ++ es
    | [] => []
    end.

Definition numToString (x : JsNum) : jsstring :=
  if numIsZero x then js "0" else
  let sign := if numNeg x then js "-" else [] in
  if numInfinite x then sign ++ js "Infinity" else
  let (s, e) := Double.shortest (numValue x) in
  sign ++ formatDecimal (Z.to_N s) e.

(** ** [JSON.stringify] *)

Definition hexDigit (d : N) : N :=
  if (d <? 10)%N then (48 + d)%N else (87 + d)%N.

Definition unicodeEscape (c : N) : jsstring :=
  js "\u" ++ [hexDigit (c / 4096 mod 16); hexDigit (c / 256 mod 16);
              hexDigit (c / 16 mod 16); hexDigit (c mod 16)]%N.

Definition isHighSurrogate (c : N) : bool := ((55296 <=? c) && (c <=? 56319))%N.
Definition isLowSurrogate (c : N) : bool := ((56320 <=? c) && (c <=? 57343))%N.

(** [paired] tells that the previous unit was a high surrogate which the
    current low surrogate completes. *)
Fixpoint quoteUnits (paired : bool) (s : jsstring) : jsstring :=
  match s with
  | [] => []
  | c :: s' =>
      if (c =? 8)%N then js "\b" ++ quoteUnits false s'
      else if (c =? 9)%N then js "\t" ++ quoteUnits false s'
      else if (c =? 10)%N then js "\n" ++ quoteUnits false s'
      else if (c =? 12)%N then js "\f" ++ quoteUnits false s'
      else if (c =? 13)%N then js "\r" ++ quoteUnits false s'
      else if (c =? 34)%N then [92; 34]%N ++ quoteUnits false s'
      else if (c =? 92)%N then [92; 92]%N ++ quoteUnits false s'
      else if (c <? 32)%N then unicodeEscape c ++ quoteUnits false s'
      else if isHighSurrogate c then
        match s' with
        | c' :: _ =>
            if isLowSurrogate c' then c :: quoteUnits true s'
            else unicodeEscape c ++ quoteUnits false s'
        | [] => unicodeEscape c
        end
      else if isLowSurrogate c then
        (if paired then [c] else unicodeEscape c) ++ quoteUnits false s'
      else c :: quoteUnits false s'
  end.

Definition quote (s : jsstring) : jsstring := dq ++ quoteUnits false s ++ dq.

Fixpoint joinWith (sep : jsstring) (l : list jsstring) : jsstring :=
  match l with
  | [] => []
  | [x] => x
  | x :: rest => x ++ sep ++ joinWith sep rest
  end.

(** [JSON.stringify(v)] for a value that [JSON.parse] produced. *)
Fixpoint stringify (v : Json) : jsstring :=
  match v with
  | JNull => js "null"
  | JBool true => js "true"
  | JBool false => js "false"
  | JNumber n => if numInfinite n then js "null" else numToString n
  | JString s => quote s
  | JArray l => js "[" ++ joinWith (js ",") (map stringify l) ++ js "]"
  | JObject fs =>
      js "{" ++
      joinWith (js ",")
        (map (fun kv => quote (fst kv) ++ js ":" ++ stringify (snd kv)) fs)
      ++ js "}"
  end.

(** ** Conversions *)

(** [ToBoolean]; [None] is [undefined]. *)
Definition truthy (v : option Json) : bool :=
  match v with
  | None => false
  | Some JNull => false
  | Some (JBool b) => b
  | Some (JNumber n) => negb (numIsZero n)
  | Some (JString s) => negb (Nat.eqb (List.length s) 0)
  | Some (JArray _) | Some (JObject _) => true
  end.

(** [a || b] with a defined right operand. *)
Definition orElse (a : option Json) (b : Json) : Json :=
  match a with
  | Some v => if truthy a then v else b
  | None => b
  end.

(** The messages of the engine's own [TypeError]s are V8's. *)
Definition typeError (msg : string) : JsError := newError (js msg).

Fixpoint sequence {A} (l : list (Result A)) : Result (list A) :=
  match l with
  | [] => Ok []
  | Throw e :: _ => Throw e
  | Ok a :: rest =>
      match sequence rest with
      | Ok r => Ok (a :: r)
      | Throw e => Throw e
      end
  end.

(** [ToString], as a template literal applies it.  An array joins its
    elements with commas, [null] elements printing as nothing; an object
    prints through [Object.prototype.toString], unless an own [toString]
    entry (never callable when it comes from JSON) hides it. *)
Fixpoint toString (v : Json) : Result jsstring :=
  match v with
  | JNull => Ok (js "null")
  | JBool true => Ok (js "true")
  | JBool false => Ok (js "false")
  | JNumber n => Ok (numToString n)
  | JString s => Ok s
  | JArray l =>
      match sequence (map (fun x => match x with
                                    | JNull => Ok []
                                    | _ => toString x
                                    end) l) with
      | Ok parts => Ok (joinWith (js ",") parts)
      | Throw e => Throw e
      end
  | JObject fs =>
      if hasKey fs (js "toString")
      then Throw (typeError "Cannot convert object to primitive value")
      else Ok (js "[object Object]")
  end.

(** [v.name] for a name that no built-in prototype defines ([valid],
    [reason]): it throws on [null], finds own entries of objects and is
    [undefined] everywhere else. *)
Definition getField (v : Json) (name : string) : Result (option Json) :=
  match v with
  | JNull =>
      Throw (newError (js "Cannot read properties of null (reading '"
                         ++ js name ++ js "')"))
  | JObject fs => Ok (lookupKey fs (js name))
  | _ => Ok None
  end.

(** Induction on JSON values, going through the elements of arrays. *)
Fixpoint Json_nested_ind (P : Json -> Prop)
  (Hnull : P JNull) (Hbool : forall b, P (JBool b))
  (Hnum : forall n, P (JNumber n)) (Hstr : forall s, P (JString s))
  (Harr : forall l, Forall P l -> P (JArray l))
  (Hobj : forall fs, P (JObject fs)) (v : Json) : P v :=
  match v with
  | JNull => Hnull
  | JBool b => Hbool b
  | JNumber n => Hnum n
  | JString s => Hstr s
  | JArray l =>
      Harr l ((fix all (l : list Json) : Forall P l :=
                 match l with
                 | [] => Forall_nil P
                 | x :: r =>
                     Forall_cons x
                       (Json_nested_ind Hnull Hbool Hnum Hstr Harr Hobj x)
                       (all r)
                 end) l)
  | JObject fs => Hobj fs
  end.

End Json.
Import Json.

(* ================================================================== *)
(** * Computations with state and exceptions *)
(* ================================================================== *)

(** An [async] function of the sources is a computation over a store that
    returns or throws; every [await] is sequential. *)
Definition M (S A : Type) : Type := S -> Result A * S.

Definition ret {S A} (a : A) : M S A := fun s => (Ok a, s).

Definition throw {S A} (e : JsError) : M S A := fun s => (Throw e, s).

Definition bind {S A B} (m : M S A) (k : A -> M S B) : M S B :=
  fun s =>
    match m s with
    | (Ok a, s') => k a s'
    | (Throw e, s') => (Throw e, s')
    end.

(** [try { m } catch (e) { handler e }]. *)
Definition tryCatch {S A} (m : M S A) (handler : JsError -> M S A) : M S A :=
  fun s =>
    match m s with
    | (Ok a, s') => (Ok a, s')
    | (Throw e, s') => handler e s'
    end.

Definition liftResult {S A} (r : Result A) : M S A := fun s => (r, s).

Declare Scope js_scope.
Delimit Scope js_scope with js.
Notation "x <- m ;; k" := (bind m (fun x => k))
  (at level 61, m at next level, right associativity) : js_scope.
Notation "m ;; k" := (bind m (fun _ => k))
  (at level 61, right associativity) : js_scope.
Open Scope js_scope.

(* ================================================================== *)
(** * The model backend *)
(* ================================================================== *)

(** A [File]: its media type and what [FileReader.readAsDataURL] yields,
    [None] when the read fails. *)
Record File : Type := mkFile
  { fileType : jsstring;
    dataUrl : option jsstring }.

(** The instruction texts are fixed wording around at most one
    interpolated string; only that string and what is appended are kept. *)
Inductive Prompt : Type :=
| TranscribePrompt
| SolvePrompt (problemText : jsstring)
| PagePrompt (cleanText : jsstring) (appended : jsstring)
| ValidatePrompt.

Inductive Part : Type :=
| InlineData (mimeType : jsstring) (data : option jsstring)
| Text (p : Prompt).

Record Config : Type := mkConfig
  { responseMimeType : option jsstring;
    thinkingBudget : option nat;
    imageSize : option jsstring;
    aspectRatio : option jsstring }.

Definition noConfig : Config := mkConfig None None None None.

Record Request : Type := mkRequest
  { model : jsstring;
    contents : list Part;
    config : Config }.

(** A part of the first candidate's content: [inlineData] absent, or
    present with its [data] (itself possibly [undefined]). *)
Record ResponsePart : Type := mkPart
  { inlineData : option (option jsstring) }.

(** [response.text] and [response.candidates?.[0]?.content?.parts || []]. *)
Record Response : Type := mkResponse
  { text : option jsstring;
    parts : list ResponsePart }.

Inductive Outcome : Type :=
| Responds (r : Response)
| Fails (e : JsError).

(** The service module's store: the key set by hand, [process.env.API_KEY],
    the backend (what the [n]-th call answers to a request) and the calls
    made so far, oldest first. *)
Record World : Type := mkWorld
  { manualApiKey : option jsstring;
    envApiKey : option jsstring;
    backend : nat -> Request -> Outcome;
    calls : list Request }.

Definition setApiKey (key : jsstring) (w : World) : World :=
  mkWorld (Some key) (envApiKey w) (backend w) (calls w).

(** [a || b] on strings that may be [undefined] or [null]. *)
Definition orText (a : option jsstring) (b : jsstring) : jsstring :=
  match a with
  | Some (c :: s) => c :: s
  | _ => b
  end.

Definition orKey (a b : option jsstring) : option jsstring :=
  match a with
  | Some (c :: s) => a
  | _ => b
  end.

Definition isSet (k : option jsstring) : bool :=
  match k with
  | Some (_ :: _) => true
  | _ => false
  end.

(** The service after one more call. *)
Definition called (w : World) (req : Request) : World :=
  mkWorld (manualApiKey w) (envApiKey w) (backend w) (calls w ++ [req]).

(** What the backend answers to [req] when it is the next call. *)
Definition answer (w : World) (req : Request) : Outcome :=
  backend w (List.length (calls w)) req.

(** [ai.models.generateContent(req)]. *)
Definition generateContent (req : Request) : M World Response :=
  fun w =>
    match answer w req with
    | Responds r => (Ok r, called w req)
    | Fails e => (Throw e, called w req)
    end.

(* ================================================================== *)
(** * [services/geminiService.ts] *)
(* ================================================================== *)

(** What the two copies of the service differ in. *)
Record ServiceText : Type := mkText
  { fallbackAppended : jsstring;
    bypassReason : jsstring }.

Definition copyA : ServiceText :=
  {| fallbackAppended := [];
     bypassReason := js "Validation bypassed due to system error" |}.

Definition copyB : ServiceText :=
  {| fallbackAppended :=
       js " IMPORTANT: Output a scanned document style image, not artistic. High legibility.";
     bypassReason := js "Validation bypassed due to technical error" |}.

Record Verdict : Type := mkVerdict
  { valid : bool;
    reason : Json }.

Definition getAiClient : M World unit :=
  fun w =>
    if isSet (orKey (manualApiKey w) (envApiKey w)) then (Ok tt, w)
    else (Throw (newError
                   (js "API Key not found. Please select a project or enter a key.")),
          w).

(** The rejection value of a failed read is the browser's [ProgressEvent]. *)
Definition progressEvent : JsError :=
  {| message := [];
     serialized := js "{" ++ dq ++ js "isTrusted" ++ dq ++ js ":true}" |}.

Definition fileToGenerativePart (file : File) : M World (option jsstring) :=
  match dataUrl file with
  | Some base64String => ret (secondField base64String)
  | None => throw progressEvent
  end.

Definition isPermissionError (error : JsError) : bool :=
  let msg := message error in
  let str := serialized error in
  includes (js "403") msg
  || includes (js "PERMISSION_DENIED") msg
  || includes (js "The caller does not have permission") msg
  || includes (js "403") str
  || includes (js "PERMISSION_DENIED") str.

Definition stripFences (t : jsstring) : jsstring :=
  trim (removeAll (js "```") (removeAll (js "```json") t)).

Definition parseSolutionResponse (response : Response) : list Json :=
  let t := stripFences (orText (text response) (js "[]")) in
  match parse t with
  | Some (JArray result) => result
  | Some result => [JString (stringify result)]
  | None => [JString (orText (text response) [])]
  end.

Definition isBracket (c : N) : bool := ((c =? 91) || (c =? 93))%N.

(** The argument is whatever [solutionSteps[i]] holds: [None] is
    [undefined]; on anything but a string, [text.replace] throws. *)
Definition cleanTextForHandwriting (t : option Json) : Result jsstring :=
  match t with
  | Some (JString s) =>
      Ok (trim
            (filter (fun c => negb (isBracket c))
               (removeAll (js "`")
                  (removeHeaders
                     (removeAll (js "*") (removeAll (js "**") s))))))
  | Some JNull =>
      Throw (typeError "Cannot read properties of null (reading 'replace')")
  | None =>
      Throw (typeError "Cannot read properties of undefined (reading 'replace')")
  | Some _ => Throw (typeError "text.replace is not a function")
  end.

Definition undefinedText (o : option jsstring) : jsstring :=
  match o with
  | Some s => s
  | None => js "undefined"
  end.

Fixpoint extractImage (ps : list ResponsePart) : Result jsstring :=
  match ps with
  | [] => Throw (newError (js "No image generated in response"))
  | p :: rest =>
      match inlineData p with
      | Some d => Ok (js "data:image/png;base64," ++ undefinedText d)
      | None => extractImage rest
      end
  end.

Definition jsonMime : option jsstring := Some (js "application/json").

Section Service.

Variable txt : ServiceText.

Definition transcribeRequest (imageFile : File) (base64Data : option jsstring)
  : Request :=
  {| model := js "gemini-2.5-flash";
     contents := [InlineData (fileType imageFile) base64Data;
                  Text TranscribePrompt];
     config := noConfig |}.

Definition transcribeMathProblem (imageFile : File) : M World jsstring :=
  getAiClient ;;
  base64Data <- fileToGenerativePart imageFile ;;
  response <- generateContent (transcribeRequest imageFile base64Data) ;;
  ret (orText (text response) (js "Could not read problem.")).

Definition solveRequest (tier : jsstring) (budget : nat) (problemText : jsstring)
  : Request :=
  {| model := tier;
     contents := [Text (SolvePrompt problemText)];
     config := mkConfig jsonMime (Some budget) None None |}.

Definition solvePrimary := solveRequest (js "gemini-3-pro-preview") 2048.
Definition solveFallback := solveRequest (js "gemini-2.5-flash") 1024.

Definition solveMathProblem (problemText : jsstring) : M World (list Json) :=
  getAiClient ;;
  tryCatch
    (response <- generateContent (solvePrimary problemText) ;;
     ret (parseSolutionResponse response))
    (fun error =>
       if isPermissionError error then
         response <- generateContent (solveFallback problemText) ;;
         ret (parseSolutionResponse response)
       else throw error).

Definition pagePrimary (ref : File) (base64Ref : option jsstring)
  (cleanText : jsstring) : Request :=
  {| model := js "gemini-3-pro-image-preview";
     contents :=
       [Text (PagePrompt cleanText
                (js " Ensure the image is high resolution (2K) and text is crisp."));
        InlineData (fileType ref) base64Ref];
     config := mkConfig None None (Some (js "2K")) (Some (js "3:4")) |}.

Definition pageFallback (ref : File) (base64Ref : option jsstring)
  (cleanText : jsstring) : Request :=
  {| model := js "gemini-2.5-flash-image";
     contents :=
       [Text (PagePrompt cleanText (fallbackAppended txt));
        InlineData (fileType ref) base64Ref];
     config := mkConfig None None None (Some (js "3:4")) |}.

Definition generateHandwrittenPage (referenceImageFile : File)
  (textToWrite : option Json) (pageIndex : nat) : M World jsstring :=
  getAiClient ;;
  base64Ref <- fileToGenerativePart referenceImageFile ;;
  cleanText <- liftResult (cleanTextForHandwriting textToWrite) ;;
  tryCatch
    (response <- generateContent (pagePrimary referenceImageFile base64Ref cleanText) ;;
     liftResult (extractImage (parts response)))
    (fun error =>
       if isPermissionError error then
         response <- generateContent
                       (pageFallback referenceImageFile base64Ref cleanText) ;;
         liftResult (extractImage (parts response))
       else throw error).

Definition validateRequest (questionFile : File) (qBase64 : option jsstring)
  (generatedImageUrls : list jsstring) : Request :=
  {| model := js "gemini-2.5-flash";
     contents :=
       InlineData (fileType questionFile) qBase64
       :: map (fun url => InlineData (js "image/png") (secondField url))
            generatedImageUrls
       ++ [Text ValidatePrompt];
     config := mkConfig jsonMime None None None |}.

(** The object literal built from the parsed verdict. *)
Definition readVerdict (json : Json) : Result Verdict :=
  match getField json "valid" with
  | Throw e => Throw e
  | Ok v =>
      match getField json "reason" with
      | Throw e => Throw e
      | Ok r =>
          Ok {| valid := match v with
                         | Some (JBool true) => true
                         | _ => false
                         end;
                reason := orElse r (JString (js "Unknown")) |}
      end
  end.

Definition syntaxError : JsError := newError (js "Unexpected token in JSON").

Definition validateSolution (questionFile : File)
  (generatedImageUrls : list jsstring) : M World Verdict :=
  getAiClient ;;
  qBase64 <- fileToGenerativePart questionFile ;;
  tryCatch
    (response <- generateContent
                   (validateRequest questionFile qBase64 generatedImageUrls) ;;
     match parse (stripFences (orText (text response) (js "{}"))) with
     | Some json => liftResult (readVerdict json)
     | None => throw syntaxError
     end)
    (fun _ =>
       ret {| valid := true; reason := JString (bypassReason txt) |}).

End Service.

(* ================================================================== *)
(** * [types.ts] and the component state of [App.tsx] *)
(* ================================================================== *)

Record UploadedFile : Type := mkUpload
  { file : File;
    previewUrl : jsstring }.

Record GeneratedPage : Type := mkPage
  { imageUrl : jsstring;
    pageNumber : nat }.

Inductive ProcessingStep : Type :=
| IDLE | ANALYZING | SOLVING | GENERATING_PAGES | VALIDATING | COMPLETED | ERROR.

(** [progress] is a JavaScript number: a binary64 value, kept as the
    rational it denotes (see [Double]). *)
Record ProcessingState : Type := mkState
  { step_ : ProcessingStep;
    message_ : jsstring;
    progress : Q }.

(** The state hooks of the component, and a record of every value handed to
    [setProcessingState] and to [setGeneratedPages], oldest first. *)
Record App : Type := mkApp
  { questionImage : option UploadedFile;
    handwritingImage : option UploadedFile;
    processingState : ProcessingState;
    generatedPages : list GeneratedPage;
    isKeySelected : bool;
    stateLog : list ProcessingState;
    pagesLog : list (list GeneratedPage) }.

Record Machine : Type := mkMachine
  { component : App;
    world : World }.

Definition liftW {A} (c : M World A) : M Machine A :=
  fun m =>
    match c (world m) with
    | (r, w') => (r, mkMachine (component m) w')
    end.

Definition updApp (f : App -> App) : M Machine unit :=
  fun m => (Ok tt, mkMachine (f (component m)) (world m)).

Definition setProcessingState (ps : ProcessingState) : M Machine unit :=
  updApp (fun a =>
    mkApp (questionImage a) (handwritingImage a) ps (generatedPages a)
      (isKeySelected a) (stateLog a ++ [ps]) (pagesLog a)).

Definition setGeneratedPages (ps : list GeneratedPage) : M Machine unit :=
  updApp (fun a =>
    mkApp (questionImage a) (handwritingImage a) (processingState a) ps
      (isKeySelected a) (stateLog a) (pagesLog a ++ [ps])).

Definition setIsKeySelected (b : bool) : M Machine unit :=
  updApp (fun a =>
    mkApp (questionImage a) (handwritingImage a) (processingState a)
      (generatedPages a) b (stateLog a) (pagesLog a)).

(* ================================================================== *)
(** * [handleProcess] *)
(* ================================================================== *)

Definition MAX_ATTEMPTS : nat := 3.

Definition analyzingState (attempts : nat) : ProcessingState :=
  {| step_ := ANALYZING;
     message_ := js "Reading problem (Attempt " ++ ofNat attempts ++ js ")...";
     progress := 10 |}.

Definition solvingState : ProcessingState :=
  {| step_ := SOLVING;
     message_ := js "Solving problem step-by-step...";
     progress := 30 |}.

(** [40 + ((i / totalSteps) * 40)], each operation rounding; [i] and
    [totalSteps] are an index and a length, which binary64 holds exactly. *)
Definition pageProgress (i totalSteps : nat) : Q :=
  Double.add 40
    (Double.mul
       (Double.div (inject_Z (Z.of_nat i)) (inject_Z (Z.of_nat totalSteps)))
       40).

Definition generatingState (i totalSteps : nat) : ProcessingState :=
  {| step_ := GENERATING_PAGES;
     message_ := js "Writing page " ++ ofNat (i + 1) ++ js "/"
                   ++ ofNat totalSteps ++ js "...";
     progress := pageProgress i totalSteps |}.

Definition validatingState : ProcessingState :=
  {| step_ := VALIDATING;
     message_ := js "Verifying solution quality...";
     progress := 90 |}.

Definition completedState : ProcessingState :=
  {| step_ := COMPLETED;
     message_ := js "Sequence Complete. Output Verified.";
     progress := 100 |}.

Definition accessDeniedState : ProcessingState :=
  {| step_ := ERROR;
     message_ := js "ACCESS DENIED: API Key invalid.";
     progress := 0 |}.

Definition failureState (errMessage : jsstring) : ProcessingState :=
  {| step_ := ERROR;
     message_ := js "SYSTEM FAILURE: " ++ orText (Some errMessage) (js "Unknown error.");
     progress := 0 |}.

(** The test of the [catch] clause. *)
Definition deniedInCatch (error : JsError) : bool :=
  let errString := serialized error in
  let errMessage := message error in
  includes (js "403") errString
  || includes (js "PERMISSION_DENIED") errString
  || includes (js "403") errMessage
  || includes (js "permission") errMessage.

Section Pipeline.

Variable txt : ServiceText.

(** The [for] loop over the pages: [k] iterations remain, [i] is the loop
    variable, so that [k + i = totalSteps] throughout. *)
Fixpoint pagesLoop (handwriting : File) (solutionSteps : list Json)
  (k i : nat) (currentPages : list GeneratedPage)
  : M Machine (list GeneratedPage) :=
  match k with
  | O => ret currentPages
  | S k' =>
      setProcessingState (generatingState i (List.length solutionSteps)) ;;
      url <- liftW (generateHandwrittenPage txt handwriting
                      (nth_error solutionSteps i) i) ;;
      pagesLoop handwriting solutionSteps k' (S i)
        (currentPages ++ [{| imageUrl := url; pageNumber := i + 1 |}])
  end.

Definition generatePages (handwriting : File) (solutionSteps : list Json)
  : M Machine (list GeneratedPage) :=
  pagesLoop handwriting solutionSteps (List.length solutionSteps) 0 [].

(** The body of the [try] block; the value is the [success] flag it leaves
    ([continue] leaves it unset).  Of the [console] calls only what their
    arguments compute is kept. *)
Definition tryBlock (attempts : nat) (question handwriting : UploadedFile)
  : M Machine bool :=
  setProcessingState (analyzingState attempts) ;;
  problemText <- liftW (transcribeMathProblem (file question)) ;;
  setProcessingState solvingState ;;
  solutionSteps <- liftW (solveMathProblem problemText) ;;
  if Nat.eqb (List.length solutionSteps) 0 then
    if Nat.eqb attempts MAX_ATTEMPTS
    then throw (newError (js "Could not solve the problem."))
    else ret false
  else
    currentPages <- generatePages (file handwriting) solutionSteps ;;
    setProcessingState validatingState ;;
    validation <- liftW (validateSolution txt (file question)
                           (map imageUrl currentPages)) ;;
    if valid validation then
      setGeneratedPages currentPages ;;
      setProcessingState completedState ;;
      ret true
    else
      (* the template literal of the [console.warn] converts the reason *)
      liftResult (toString (reason validation)) ;;
      if Nat.eqb attempts MAX_ATTEMPTS then
        shown <- liftResult
                   (toString (orElse (Some (reason validation))
                                (JString (js "Output illegible")))) ;;
        throw (newError (js "Validation failed: " ++ shown))
      else ret false.

(** How a run ends: the value of [attempts], the [success] flag and the
    stores. *)
Record RunEnd : Type := mkEnd
  { attemptsUsed : nat;
    succeeded : bool;
    final : Machine }.

(** The stores a computation leaves. *)
Definition stateAfter {A} (p : Result A * Machine) : Machine := snd p.

(** The [while] loop.  [fuel] bounds the iterations; [None] would be a loop
    that outlives it. *)
Fixpoint attemptLoop (fuel : nat) (question handwriting : UploadedFile)
  (attempts : nat) (success : bool) (m : Machine) : option RunEnd :=
  if Nat.ltb attempts MAX_ATTEMPTS && negb success then
    match fuel with
    | O => None
    | S fuel' =>
        let attempts := S attempts in
        match tryBlock attempts question handwriting m with
        | (Ok success', m') =>
            attemptLoop fuel' question handwriting attempts success' m'
        | (Throw error, m') =>
            if deniedInCatch error then
              Some (mkEnd attempts success
                      (stateAfter ((setIsKeySelected false ;;
                              setProcessingState accessDeniedState) m')))
            else
              let m'' :=
                if Nat.eqb attempts MAX_ATTEMPTS
                then stateAfter (setProcessingState (failureState (message error)) m')
                else m' in
              attemptLoop fuel' question handwriting attempts success m''
        end
    end
  else Some (mkEnd attempts success m).

Definition handleProcess (m : Machine) : option RunEnd :=
  match questionImage (component m), handwritingImage (component m) with
  | Some question, Some handwriting =>
      attemptLoop MAX_ATTEMPTS question handwriting 0 false
        (stateAfter (setGeneratedPages [] m))
  | _, _ => Some (mkEnd 0 false m)
  end.

End Pipeline.

(* ================================================================== *)
(** * Sample runs *)
(* ================================================================== *)

Module Sample.

(** A backend that answers its [n]-th call with the [n]-th entry of a
    script, and with an empty response once the script is used up. *)
Definition scripted (script : list Outcome) : nat -> Request -> Outcome :=
  fun n _ => nth n script (Responds (mkResponse None [])).

Definition says (s : jsstring) : Outcome := Responds (mkResponse (Some s) []).

Definition draws (data : string) : Outcome :=
  Responds (mkResponse None [mkPart (Some (Some (js data)))]).

Definition forbidden : JsError :=
  {| message := js "got status: 403 Forbidden";
     serialized := js "{}" |}.

Definition overloaded : JsError :=
  {| message := js "got status: 503 Service Unavailable";
     serialized := js "{}" |}.

Definition question : UploadedFile :=
  mkUpload (mkFile (js "image/jpeg") (Some (js "data:image/jpeg;base64,UVVFU1Q=")))
    (js "blob:question").

Definition handwriting : UploadedFile :=
  mkUpload (mkFile (js "image/png") (Some (js "data:image/png;base64,SEFORA==")))
    (js "blob:handwriting").

Definition idleState : ProcessingState :=
  {| step_ := IDLE; message_ := []; progress := 0 |}.

(** The component after both uploads, with [key] as [manualApiKey]. *)
Definition start (key : option jsstring) (script : list Outcome) : Machine :=
  {| component := mkApp (Some question) (Some handwriting) idleState [] true [] [];
     world := mkWorld key None (scripted script) [] |}.

Definition apiKey : option jsstring := Some (js "AIza-sample").

(** A JSON array of strings. *)
Definition arrayOf (items : list string) : jsstring :=
  js "[" ++ joinWith (js ",") (map (fun s => dq ++ js s ++ dq) items) ++ js "]".

Definition verdictText (ok : bool) (why : string) : jsstring :=
  js "{" ++ dq ++ js "valid" ++ dq ++ js ":" ++ (if ok then js "true" else js "false")
  ++ js "," ++ dq ++ js "reason" ++ dq ++ js ":" ++ dq ++ js why ++ dq ++ js "}".

(** Validate rejects twice, then accepts. *)
Definition thirdTime : list Outcome :=
  [says (js "x+1=2"); says (arrayOf ["p1"]%string);
   draws "OLD1"; says (verdictText false "blank");
   says (js "x+1=2"); says (arrayOf ["p1"]%string);
   draws "OLD2"; says (verdictText false "noise");
   says (js "x+1=2"); says (arrayOf ["p1"; "p2"]%string);
   draws "NEW1"; draws "NEW2"; says (verdictText true "ok")].

End Sample.

(* ================================================================== *)
(** * Describing what the stages did in a run *)
(* ================================================================== *)

Section Runs.

Variable txt : ServiceText.

(** A client can be made: some API key is set. *)
Definition hasApiKey (w : World) : Prop :=
  isSet (orKey (manualApiKey w) (envApiKey w)) = true.

(** Every page of [steps] is rendered, page [i] first, taking the service
    from [w] to [w'] and giving [urls]. *)
Inductive Rendered (ref : File)
  : list Json -> nat -> World -> list jsstring -> World -> Prop :=
| Rendered_nil : forall i w, Rendered ref [] i w [] w
| Rendered_cons : forall s steps i w url w1 urls w2,
    generateHandwrittenPage txt ref (Some s) i w = (Ok url, w1) ->
    Rendered ref steps (S i) w1 urls w2 ->
    Rendered ref (s :: steps) i w (url :: urls) w2.

(** One attempt in which Transcribe, Solve and every RenderPage succeed and
    Validate returns the verdict [v]. *)
Definition ReachesValidate (question handwriting : UploadedFile) (w : World)
  (steps : list Json) (urls : list jsstring) (v : Verdict) (w' : World) : Prop :=
  exists problemText w1 w2 w3,
    transcribeMathProblem (file question) w = (Ok problemText, w1)
    /\ solveMathProblem problemText w1 = (Ok steps, w2)
    /\ steps <> []
    /\ Rendered (file handwriting) steps 0 w2 urls w3
    /\ validateSolution txt (file question) urls w3 = (Ok v, w').

(** One attempt in which Transcribe succeeds and Solve returns no step. *)
Definition SolvesEmpty (question : UploadedFile) (w w' : World) : Prop :=
  exists problemText w1,
    transcribeMathProblem (file question) w = (Ok problemText, w1)
    /\ solveMathProblem problemText w1 = (Ok [], w').

(** The three ways in which a stage can throw [e] to [handleProcess]
    during an attempt that starts in [w] and stops in [w']: from
    Transcribe, from Solve, or from RenderPage after some pages. *)
Definition StageThrows (question handwriting : UploadedFile)
  (w : World) (e : JsError) (w' : World) : Prop :=
  transcribeMathProblem (file question) w = (Throw e, w')
  \/ (exists problemText w1,
        transcribeMathProblem (file question) w = (Ok problemText, w1)
        /\ solveMathProblem problemText w1 = (Throw e, w'))
  \/ (exists problemText w1 done s rest w2 urls w3,
        transcribeMathProblem (file question) w = (Ok problemText, w1)
        /\ solveMathProblem problemText w1 = (Ok (done ++ s :: rest), w2)
        /\ Rendered (file handwriting) done 0 w2 urls w3
        /\ generateHandwrittenPage txt (file handwriting) (Some s)
             (List.length done) w3 = (Throw e, w')).

End Runs.

(** The pages that RenderPage's results make: numbered from [i + 1]. *)
Fixpoint numbered (i : nat) (urls : list jsstring) : list GeneratedPage :=
  match urls with
  | [] => []
  | url :: rest => {| imageUrl := url; pageNumber := i + 1 |} :: numbered (S i) rest
  end.

(** The states a complete page loop writes for indices [i], [i+1], ... *)
Fixpoint generatingStates (k i totalSteps : nat) : list ProcessingState :=
  match k with
  | O => []
  | S k' => generatingState i totalSteps :: generatingStates k' (S i) totalSteps
  end.

(** The component with [more] added to its record of written states, the
    last of them being current. *)
Definition logged (a : App) (more : list ProcessingState) : App :=
  mkApp (questionImage a) (handwritingImage a)
    (last more (processingState a)) (generatedPages a) (isKeySelected a)
    (stateLog a ++ more) (pagesLog a).

Definition published (a : App) (ps : list GeneratedPage) : App :=
  mkApp (questionImage a) (handwritingImage a) (processingState a) ps
    (isKeySelected a) (stateLog a) (pagesLog a ++ [ps]).

(** The states one attempt writes up to and including Validate, for
    [totalSteps] pages. *)
Definition attemptStates (attempts totalSteps : nat) : list ProcessingState :=
  [analyzingState attempts; solvingState]
  ++ generatingStates totalSteps 0 totalSteps ++ [validatingState].

(** What the [catch] clause does on a denial: forget the key, show the
    denial. *)
Definition deny (m : Machine) : Machine :=
  stateAfter ((setIsKeySelected false ;; setProcessingState accessDeniedState) m).

(** The error a failed conversion to a string throws. *)
Definition cannotConvert : JsError :=
  typeError "Cannot convert object to primitive value".

(** What the service returns once a call has been answered. *)
Definition solveOutcome (o : Outcome) : Result (list Json) :=
  match o with
  | Responds r => Ok (parseSolutionResponse r)
  | Fails e => Throw e
  end.

Definition pageOutcome (o : Outcome) : Result jsstring :=
  match o with
  | Responds r => extractImage (parts r)
  | Fails e => Throw e
  end.

(** A list of progress values that never goes down. *)
Fixpoint nondecreasing (l : list Q) : Prop :=
  match l with
  | x :: (y :: _) as rest => (x <= y)%Q /\ nondecreasing rest
  | _ => True
  end.

(** The progress values of an attempt that Validate accepts. *)
Definition successProgress (T : nat) : list Q :=
  [10%Q; 30%Q] ++ map (fun j => pageProgress j T) (seq 0 T) ++ [90%Q; 100%Q].

(** A computation that only adds to the record of written states. *)
Definition appends {A} (c : M Machine A) : Prop :=
  forall m, exists rest,
    stateLog (component (snd (c m))) = stateLog (component m) ++ rest.

(* ================================================================== *)
(** * The other handlers of [App.tsx] and [services/pdfService.ts] *)
(* ================================================================== *)

Definition setQuestionImage (f : option UploadedFile) : M Machine unit :=
  updApp (fun a =>
    mkApp f (handwritingImage a) (processingState a) (generatedPages a)
      (isKeySelected a) (stateLog a) (pagesLog a)).

Definition setHandwritingImage (f : option UploadedFile) : M Machine unit :=
  updApp (fun a =>
    mkApp (questionImage a) f (processingState a) (generatedPages a)
      (isKeySelected a) (stateLog a) (pagesLog a)).

(** The state the component starts in and [clearFiles] returns to. *)
Definition idleState : ProcessingState :=
  {| step_ := IDLE; message_ := []; progress := 0 |}.

(** [clearFiles]; revoking the preview URLs is the browser's business. *)
Definition clearFiles : M Machine unit :=
  setQuestionImage None ;;
  setHandwritingImage None ;;
  setGeneratedPages [] ;;
  setProcessingState idleState.

Inductive FileSlot : Type := QuestionSlot | HandwritingSlot.

(** [handleFileSelect]; [previewUrl] is what [URL.createObjectURL] gave. *)
Definition handleFileSelect (f : File) (previewUrl : jsstring) (slot : FileSlot)
  : M Machine unit :=
  match slot with
  | QuestionSlot => setQuestionImage (Some (mkUpload f previewUrl))
  | HandwritingSlot => setHandwritingImage (Some (mkUpload f previewUrl))
  end.

(** [handleManualKeySubmit] on the text of the key field. *)
Definition handleManualKeySubmit (manualKey : jsstring) : M Machine unit :=
  match trim manualKey with
  | [] => ret tt
  | c :: k =>
      (fun m => (Ok tt, mkMachine (component m) (setApiKey (c :: k) (world m)))) ;;
      setIsKeySelected true
  end.

(** What the component renders: the key landing page as long as no key is
    selected; otherwise the upload view with the EXECUTE button while idle
    and the status in every other state, the status coming with the
    results (the pages and the reset and download buttons) when pages are
    published and the state is the completed one. *)
Inductive Screen : Type :=
| KeyLanding
| UploadView
| StatusView (results : bool).

Definition render (a : App) : Screen :=
  if negb (isKeySelected a) then KeyLanding
  else
    match step_ (processingState a) with
    | IDLE => UploadView
    | COMPLETED => StatusView (Nat.ltb 0 (List.length (generatedPages a)))
    | _ => StatusView false
    end.

(** The EXECUTE button is [disabled] without both images. *)
Definition executeEnabled (a : App) : bool :=
  match questionImage a, handwritingImage a with
  | Some _, Some _ => true
  | _, _ => false
  end.

(** A jsPDF document: the pages that are complete and the current one,
    each with the images placed on it.  A new document has one empty
    page; [addPage] starts a new current page; [addImage] places on the
    current page. *)
Record Pdf : Type := mkPdf
  { earlier : list (list jsstring);
    current : list jsstring }.

Definition newPdf : Pdf := mkPdf [] [].

Definition addPage (doc : Pdf) : Pdf := mkPdf (earlier doc ++ [current doc]) [].

Definition pagesOf (doc : Pdf) : list (list jsstring) :=
  earlier doc ++ [current doc].

Section PdfService.

(** Which image data jsPDF can decode is the library's business:
    [rejects img] is the error its [addImage] throws for data it cannot
    use, if it throws. *)
Variable rejects : jsstring -> option JsError.

Definition addImage (img : jsstring) (doc : Pdf) : Result Pdf :=
  match rejects img with
  | Some e => Throw e
  | None => Ok (mkPdf (earlier doc) (current doc ++ [img]))
  end.

(** The [forEach] of [generatePDF], from position [index]. *)
Fixpoint placeImages (index : nat) (images : list jsstring) (doc : Pdf)
  : Result Pdf :=
  match images with
  | [] => Ok doc
  | imgData :: rest =>
      let doc := if Nat.ltb 0 index then addPage doc else doc in
      match addImage imgData doc with
      | Ok doc => placeImages (S index) rest doc
      | Throw e => Throw e
      end
  end.

Definition generatePDF (images : list jsstring) : Result Pdf :=
  placeImages 0 images newPdf.

(** [handleDownloadPDF]: the document handed to the browser, if any. *)
Definition handleDownloadPDF (a : App) : Result (option Pdf) :=
  if Nat.eqb (List.length (generatedPages a)) 0 then Ok None
  else
    match generatePDF (map imageUrl (generatedPages a)) with
    | Ok doc => Ok (Some doc)
    | Throw e => Throw e
    end.

End PdfService.

(** A stand-in for jsPDF's decoder in examples: it takes the data URLs
    that start with the PNG signature. *)
Definition signatureOnly (img : jsstring) : option JsError :=
  if startsWith (js "data:image/png;base64,iVBORw0KGgo") img then None
  else Some (newError (js "wrong PNG signature")).

(** A PNG of one pixel, and another. *)
Definition onePixel : jsstring :=
  js "data:image/png;base64,iVBORw0KGgoAAAANSUhEUgAAAAEAAAABCAYAAAAfFcSJAAAADUlEQVR42mNkYPhfDwAChwGA60e6kgAAAABJRU5ErkJggg==".

Definition otherPixel : jsstring :=
  js "data:image/png;base64,iVBORw0KGgoAAAANSUhEUgAAAAEAAAABCAQAAAC1HAwCAAAAC0lEQVR42mNkYAAAAAYAAjCB0C8AAAAASUVORK5CYII=".

(** The service with [more] calls added to its record. *)
Definition extended (w : World) (more : list Request) : World :=
  mkWorld (manualApiKey w) (envApiKey w) (backend w) (calls w ++ more).

(** The error of [getAiClient]. *)
Definition missingKey : JsError :=
  newError (js "API Key not found. Please select a project or enter a key.").

(** A computation that only adds calls to the service's record and leaves
    the keys and the backend alone. *)
Definition onlyCalls {A} (c : M Machine A) : Prop :=
  forall m, exists more, world (snd (c m)) = extended (world m) more.

(** A computation all of whose written states satisfy [P], the state
    shown at its end being the last one written, if any. *)
Definition writesOnly (P : ProcessingState -> Prop) {A} (c : M Machine A) : Prop :=
  forall m, exists rest,
    stateLog (component (snd (c m))) = stateLog (component m) ++ rest
    /\ processingState (component (snd (c m)))
       = last rest (processingState (component m))
    /\ Forall P rest.

(** A progress value inside the range the type promises. *)
Definition inRange (s : ProcessingState) : Prop :=
  (0 <= progress s)%Q /\ (progress s <= 100)%Q.

(** The models the service addresses. *)
Definition knownModels : list jsstring :=
  [js "gemini-2.5-flash"; js "gemini-3-pro-preview";
   js "gemini-3-pro-image-preview"; js "gemini-2.5-flash-image"].

(** No code unit of [s] is [c]. *)
Definition lacks (c : N) (s : jsstring) : Prop := Forall (fun x => x <> c) s.

(** [s] has no white space at either end. *)
Definition trimmed (s : jsstring) : Prop :=
  trimStart s = s /\ trimStart (rev s) = rev s.

(** From [w] to [w'] at most [k] calls were made, all to known models,
    and nothing else of the service changed. *)
Definition Spends (k : nat) (w w' : World) : Prop :=
  exists more,
    w' = extended w more
    /\ List.length more <= k
    /\ Forall (fun r => In (model r) knownModels) more.

(** How a run that started with [before] as published pages has ended:
    completed, with at least one page, numbered from 1, published; or in
    the error state with progress 0 and the published pages untouched. *)
Definition EndsCompletedOrError (before : list GeneratedPage) (r : RunEnd) : Prop :=
  (succeeded r = true
   /\ processingState (component (final r)) = completedState
   /\ generatedPages (component (final r)) <> []
   /\ map pageNumber (generatedPages (component (final r)))
      = seq 1 (List.length (generatedPages (component (final r)))))
  \/ (succeeded r = false
      /\ step_ (processingState (component (final r))) = ERROR
      /\ progress (processingState (component (final r))) = 0%Q
      /\ generatedPages (component (final r)) = before).

(** The component with the handwriting sample chosen and no question yet,
    on a service without key. *)
Definition onlyHandwriting : Machine :=
  {| component := mkApp None (Some Sample.handwriting) idleState [] true [] [];
     world := mkWorld None None (Sample.scripted []) [] |}.

(** The three ways a run ends, for a component that had [key] as its
    key flag: completed; denied, with the key forgotten; or out of
    attempts with a failure message. *)
Definition EndsOneOfThree (key : bool) (r : RunEnd) : Prop :=
  (succeeded r = true
   /\ processingState (component (final r)) = completedState
   /\ isKeySelected (component (final r)) = key)
  \/ (succeeded r = false
      /\ processingState (component (final r)) = accessDeniedState
      /\ isKeySelected (component (final r)) = false)
  \/ (succeeded r = false
      /\ attemptsUsed r = MAX_ATTEMPTS
      /\ (exists errMessage,
            processingState (component (final r)) = failureState errMessage)
      /\ isKeySelected (component (final r)) = key).

(* ================================================================== *)
(** * Properties of the service *)
(* ================================================================== *)

(** ** Running computations step by step *)

Lemma bind_ok {S A B} (m : M S A) (k : A -> M S B) s a s' :
  m s = (Ok a, s') -> bind m k s = k a s'.
Proof. intros H. unfold bind. rewrite H. reflexivity. Qed.

Lemma bind_throw {S A B} (m : M S A) (k : A -> M S B) s e s' :
  m s = (Throw e, s') -> bind m k s = (Throw e, s').
Proof. intros H. unfold bind. rewrite H. reflexivity. Qed.

Lemma tryCatch_ok {S A} (m : M S A) (h : JsError -> M S A) s a s' :
  m s = (Ok a, s') -> tryCatch m h s = (Ok a, s').
Proof. intros H. unfold tryCatch. rewrite H. reflexivity. Qed.

Lemma tryCatch_throw {S A} (m : M S A) (h : JsError -> M S A) s e s' :
  m s = (Throw e, s') -> tryCatch m h s = h e s'.
Proof. intros H. unfold tryCatch. rewrite H. reflexivity. Qed.

Lemma getAiClient_ok w : hasApiKey w -> getAiClient w = (Ok tt, w).
Proof. intros H. unfold getAiClient. rewrite H. reflexivity. Qed.

Lemma fileToGenerativePart_ok f url w :
  dataUrl f = Some url -> fileToGenerativePart f w = (Ok (secondField url), w).
Proof. intros H. unfold fileToGenerativePart. rewrite H. reflexivity. Qed.

Lemma generateContent_responds w req r :
  answer w req = Responds r -> generateContent req w = (Ok r, called w req).
Proof. intros H. unfold generateContent. rewrite H. reflexivity. Qed.

Lemma generateContent_fails w req e :
  answer w req = Fails e -> generateContent req w = (Throw e, called w req).
Proof. intros H. unfold generateContent. rewrite H. reflexivity. Qed.

Ltac step_ok H := erewrite bind_ok by (exact H).
Ltac step_throw H := erewrite bind_throw by (exact H).

(** ** The runtime model at work *)

Example includes_403 : includes (js "403") (js "got status: 403 Forbidden") = true.
Proof. reflexivity. Qed.

Example stripFences_fenced :
  stripFences (js "```json [1] ```") = js "[1]".
Proof. reflexivity. Qed.

Example removeHeaders_greedy :
  removeHeaders (js "## Title #######x") = js "Title x".
Proof. reflexivity. Qed.

Example trim_both_ends : trim (js "  a b  ") = js "a b".
Proof. reflexivity. Qed.

Example secondField_of_data_url :
  secondField (js "data:image/png;base64,AAA") = Some (js "AAA").
Proof. reflexivity. Qed.

Example cleanText_markdown :
  cleanTextForHandwriting (Some (JString (js "## Step 1: **x** = `[2]`")))
  = Ok (js "Step 1: x = 2").
Proof. reflexivity. Qed.

Example cleanText_not_a_string :
  cleanTextForHandwriting (Some (JBool true))
  = Throw (typeError "text.replace is not a function").
Proof. reflexivity. Qed.

Example parse_rejects :
  map parse [js ""; js "tru"; js "01"; js "[1,]"; js "-"; js "{1:2}"; js "1 2"]
  = [None; None; None; None; None; None; None].
Proof. reflexivity. Qed.

Example parse_nested :
  option_map stringify (parse (js " [1, 2.50, -0, 1e21, [], {}, null ] "))
  = Some (js "[1,2.5,0,1e+21,[],{},null]").
Proof. reflexivity. Qed.

Example parse_object_order :
  option_map stringify
    (parse (js "{" ++ dq ++ js "b" ++ dq ++ js ":1," ++ dq ++ js "2" ++ dq
            ++ js ":true," ++ dq ++ js "b" ++ dq ++ js ":null}"))
  = Some (js "{" ++ dq ++ js "2" ++ dq ++ js ":true," ++ dq ++ js "b" ++ dq
          ++ js ":null}").
Proof. reflexivity. Qed.

Example parse_escapes :
  parse (dq ++ js "a\nb\u0041" ++ dq) = Some (JString [97; 10; 98; 65]%N).
Proof. reflexivity. Qed.

Example toString_array :
  option_map toString (parse (js "[1,[2,null,3],{},true]"))
  = Some (Ok (js "1,2,,3,[object Object],true")).
Proof. reflexivity. Qed.

(** Number literals are read as binary64 and printed with the fewest
    digits that read back as the same number. *)
Example numbers_are_binary64 :
  map (fun t => option_map stringify (parse (js t)))
    ["0.1"; "9007199254740993"; "0.1234567890123456789"; "1e21"; "1e-7";
     "-12.5e3"; "1e400"; "1e-400"; "5e-324"]%string
  = map (fun t => Some (js t))
      ["0.1"; "9007199254740992"; "0.12345678901234568"; "1e+21"; "1e-7";
       "-12500"; "null"; "0"; "5e-324"]%string.
Proof. vm_compute. reflexivity. Qed.

(** Rounding at work: integers are exact up to [2^53], a tie goes to the
    even significand, and [0.1 + 0.2] is not [0.3]. *)
Example rounding_to_binary64 :
  (Double.round 4294967295 == 4294967295
   /\ Double.round 9007199254740993 == 9007199254740992
   /\ Double.round 9007199254740995 == 9007199254740996
   /\ Double.add (Double.round (1 # 10)) (Double.round (2 # 10))
      == 1351079888211149 # 4503599627370496
   /\ ~ Double.add (Double.round (1 # 10)) (Double.round (2 # 10))
        == Double.round (3 # 10)
   /\ Double.round (1 # 3) == 6004799503160661 # 18014398509481984)%Q
  /\ Double.overflows (2 ^ 1024) = true
  /\ Double.overflows (2 ^ 1024 - 2 ^ 971) = false.
Proof.
  vm_compute. repeat split; try reflexivity. intros H. discriminate H.
Qed.

Example tiny_number_is_falsy :
  truthy (parse (js "1e-400")) = false /\ truthy (parse (js "1e400")) = true
  /\ option_map toString (parse (js "-1e400")) = Some (Ok (js "-Infinity")).
Proof. vm_compute. repeat split. Qed.

(** The two denial tests are not the same: this error is a permission
    error for the service and not a denial for the [catch] clause. *)
Example tests_disagree :
  let e := {| message := js "PERMISSION_DENIED"; serialized := js "{}" |} in
  isPermissionError e = true /\ deniedInCatch e = false.
Proof. split; reflexivity. Qed.

(** ** Transcribe *)

(** C10.  When the backend answers the Transcribe call with a response
    that carries no text (absent or empty), Transcribe returns the
    placeholder "Could not read problem.", which is not empty: it does not
    throw and does not return the empty string. *)
Theorem transcribe_textless_gives_placeholder :
  forall (imageFile : File) (url : jsstring) (w : World) (r : Response),
    hasApiKey w ->
    dataUrl imageFile = Some url ->
    answer w (transcribeRequest imageFile (secondField url)) = Responds r ->
    text r = None \/ text r = Some [] ->
    fst (transcribeMathProblem imageFile w) = Ok (js "Could not read problem.")
    /\ js "Could not read problem." <> [].
Proof.
  intros imageFile url w r Hkey Hurl Hresp Htext.
  split; [| discriminate].
  unfold transcribeMathProblem.
  step_ok (getAiClient_ok Hkey).
  step_ok (fileToGenerativePart_ok imageFile w Hurl).
  step_ok (generateContent_responds _ _ Hresp).
  destruct Htext as [-> | ->]; reflexivity.
Qed.

Lemma transcribe_textless_witness :
  fst (transcribeMathProblem (file Sample.question)
         (world (Sample.start Sample.apiKey [Responds (mkResponse None [])])))
  = Ok (js "Could not read problem.")
  /\ js "Could not read problem." <> [].
Proof.
  apply (@transcribe_textless_gives_placeholder
           (file Sample.question) (js "data:image/jpeg;base64,UVVFU1Q=")
           (world (Sample.start Sample.apiKey [Responds (mkResponse None [])]))
           (mkResponse None [])).
  - reflexivity.
  - reflexivity.
  - reflexivity.
  - left. reflexivity.
Defined.

(** ** The List Interpreter *)

Example parse_not_json : parse (js "not json") = None.
Proof. reflexivity. Qed.

Example parse_array :
  parse (Sample.arrayOf ["Step 1"; "Step 2"]%string)
  = Some (JArray [JString (js "Step 1"); JString (js "Step 2")]).
Proof. reflexivity. Qed.

Example parseSolutionResponse_fenced :
  parseSolutionResponse
    (mkResponse (Some (js "```json" ++ Sample.arrayOf ["a"]%string ++ js "```")) [])
  = [JString (js "a")].
Proof. reflexivity. Qed.

Example parseSolutionResponse_no_text :
  parseSolutionResponse (mkResponse None []) = [].
Proof. reflexivity. Qed.

(** C5, as the code has it.  The List Interpreter strips the fence markers
    and parses.  When parsing fails it returns the whole raw text as the
    only element.  When the text parses to something that is not a
    sequence, the only element is that value serialized again by
    [JSON.stringify], not the raw text.  On "not json" it returns exactly
    ["not json"].  It never throws (it is a total function). *)
Theorem parseSolutionResponse_degrades :
  forall (response : Response),
    let stripped := stripFences (orText (text response) (js "[]")) in
    (parse stripped = None ->
     parseSolutionResponse response = [JString (orText (text response) [])])
    /\ (forall v, parse stripped = Some v -> (forall l, v <> JArray l) ->
        parseSolutionResponse response = [JString (stringify v)])
    /\ (forall l, parse stripped = Some (JArray l) ->
        parseSolutionResponse response = l)
    /\ parseSolutionResponse (mkResponse (Some (js "not json")) (parts response))
       = [JString (js "not json")].
Proof.
  intros response stripped. unfold parseSolutionResponse. fold stripped.
  repeat split.
  - intros ->. reflexivity.
  - intros v -> Hv. destruct v; try reflexivity. exfalso. eapply Hv. reflexivity.
  - intros l ->. reflexivity.
Qed.

Lemma parseSolutionResponse_degrades_witness :
  parseSolutionResponse (mkResponse (Some (js "Step 1: add. Step 2: done.")) [])
  = [JString (js "Step 1: add. Step 2: done.")]
  /\ parseSolutionResponse (mkResponse (Some (js " 42 ")) []) = [JString (js "42")]
  /\ parseSolutionResponse (mkResponse (Some (js "[true]")) []) = [JBool true].
Proof.
  split; [| split].
  - apply (proj1 (parseSolutionResponse_degrades
                    (mkResponse (Some (js "Step 1: add. Step 2: done.")) []))).
    reflexivity.
  - apply (proj1 (proj2 (parseSolutionResponse_degrades
                           (mkResponse (Some (js " 42 ")) [])))
             (JNumber (mkNum false 42 0))).
    + reflexivity.
    + intros l H. discriminate H.
  - apply (proj1 (proj2 (proj2 (parseSolutionResponse_degrades
                                  (mkResponse (Some (js "[true]")) []))))).
    reflexivity.
Defined.

(** C5, as the claim words it, fails: the fenced text below parses to an
    object, which is not a sequence, and the result holds the object
    serialized again, not the raw text. *)
Lemma parseSolutionResponse_not_raw_text :
  let raw := js "```json{}```" in
  let response := mkResponse (Some raw) [] in
  parse (stripFences raw) = Some (JObject [])
  /\ parseSolutionResponse response = [JString (js "{}")]
  /\ parseSolutionResponse response <> [JString raw].
Proof.
  cbv zeta. split; [reflexivity | split; [reflexivity |]].
  intros H. apply (f_equal (fun l => match l with
                                     | [JString s] => List.length s
                                     | _ => 0
                                     end)) in H.
  vm_compute in H. discriminate H.
Qed.

(** ** Validate *)

Example validate_reads_verdict :
  fst (validateSolution copyA (file Sample.question) []
         (world (Sample.start Sample.apiKey
                   [Sample.says (Sample.verdictText false "blank page")])))
  = Ok {| valid := false; reason := JString (js "blank page") |}.
Proof. reflexivity. Qed.

Example validate_non_object :
  fst (validateSolution copyA (file Sample.question) []
         (world (Sample.start Sample.apiKey [Sample.says (js "5")])))
  = Ok {| valid := false; reason := JString (js "Unknown") |}.
Proof. reflexivity. Qed.

(** What Validate returns once the backend has answered: the verdict read
    from the text, or the bypass verdict when reading it throws. *)
Lemma validate_responds txt questionFile url urls w r :
  hasApiKey w ->
  dataUrl questionFile = Some url ->
  answer w (validateRequest questionFile (secondField url) urls) = Responds r ->
  validateSolution txt questionFile urls w
  = (Ok match parse (stripFences (orText (text r) (js "{}"))) with
        | Some json =>
            match readVerdict json with
            | Ok v => v
            | Throw _ => {| valid := true; reason := JString (bypassReason txt) |}
            end
        | None => {| valid := true; reason := JString (bypassReason txt) |}
        end,
     called w (validateRequest questionFile (secondField url) urls)).
Proof.
  intros Hkey Hurl Hresp. unfold validateSolution.
  step_ok (getAiClient_ok Hkey).
  step_ok (fileToGenerativePart_ok questionFile w Hurl).
  destruct (parse (stripFences (orText (text r) (js "{}")))) as [json |] eqn:Hp.
  - destruct (readVerdict json) as [v | e] eqn:Hv.
    + erewrite tryCatch_ok; [reflexivity |].
      step_ok (generateContent_responds _ _ Hresp).
      rewrite Hp, Hv. reflexivity.
    + erewrite tryCatch_throw; [reflexivity |].
      step_ok (generateContent_responds _ _ Hresp).
      rewrite Hp, Hv. reflexivity.
  - erewrite tryCatch_throw; [reflexivity |].
    step_ok (generateContent_responds _ _ Hresp).
    rewrite Hp. reflexivity.
Qed.

(** C4, as the code has it.  Once the backend has answered, Validate never
    throws, and what it returns goes by the response text, with "{}" in
    the place of an absent or empty text and the fence markers removed:

    - text that is not JSON, and the JSON text [null], give the bypass
      verdict: [valid = true] with the reason "Validation bypassed due to
      system error" (capital V) in one copy of the service and "Validation
      bypassed due to technical error" in the other;
    - text that is JSON but not an object (a number, a string, a boolean,
      an array) gives [valid = false] with the reason "Unknown", and so
      does a response without text;
    - a JSON object gives [valid = true] only when its [valid] entry is
      the boolean [true], and its truthy [reason] entry or "Unknown". *)
Theorem validate_verdict_by_response_text :
  forall (txt : ServiceText) (questionFile : File) (url : jsstring)
         (urls : list jsstring) (w : World) (r : Response),
    hasApiKey w ->
    dataUrl questionFile = Some url ->
    answer w (validateRequest questionFile (secondField url) urls) = Responds r ->
    let body := stripFences (orText (text r) (js "{}")) in
    let bypassed := {| valid := true; reason := JString (bypassReason txt) |} in
    let unknown := {| valid := false; reason := JString (js "Unknown") |} in
    exists v,
      validateSolution txt questionFile urls w
      = (Ok v, called w (validateRequest questionFile (secondField url) urls))
      /\ (parse body = None -> v = bypassed)
      /\ (parse body = Some JNull -> v = bypassed)
      /\ (forall json,
            parse body = Some json -> json <> JNull ->
            (forall fields, json <> JObject fields) ->
            v = unknown)
      /\ (text r = None \/ text r = Some [] -> v = unknown)
      /\ (forall fields,
            parse body = Some (JObject fields) ->
            v = {| valid := match lookupKey fields (js "valid") with
                            | Some (JBool true) => true
                            | _ => false
                            end;
                   reason := orElse (lookupKey fields (js "reason"))
                               (JString (js "Unknown")) |})
      /\ bypassReason copyA = js "Validation bypassed due to system error"
      /\ bypassReason copyB = js "Validation bypassed due to technical error".
Proof.
  intros txt questionFile url urls w r Hkey Hurl Hresp body bypassed unknown.
  eexists.
  split; [apply (@validate_responds txt questionFile url urls w r Hkey Hurl Hresp) |].
  fold body.
  split; [intros ->; reflexivity |].
  split; [intros ->; reflexivity |].
  split.
  { intros json -> Hnull Hobj.
    destruct json as [| b | n | s | l | fs]; try reflexivity.
    - contradiction Hnull; reflexivity.
    - contradiction (Hobj fs); reflexivity. }
  split.
  { intros Htext. unfold body. destruct Htext as [-> | ->]; reflexivity. }
  split; [intros fields ->; reflexivity |].
  split; reflexivity.
Qed.

Lemma validate_verdict_witness :
  let w := world (Sample.start Sample.apiKey [Sample.says (js "not json")]) in
  validateSolution copyA (file Sample.question) [js "data:image/png;base64,AAA"] w
  = (Ok {| valid := true;
           reason := JString (js "Validation bypassed due to system error") |},
     called w (validateRequest (file Sample.question) (Some (js "UVVFU1Q="))
                 [js "data:image/png;base64,AAA"])).
Proof.
  cbv zeta.
  destruct (@validate_verdict_by_response_text copyA (file Sample.question)
              (js "data:image/jpeg;base64,UVVFU1Q=")
              [js "data:image/png;base64,AAA"]
              (world (Sample.start Sample.apiKey [Sample.says (js "not json")]))
              (mkResponse (Some (js "not json")) [])
              eq_refl eq_refl eq_refl)
    as (v & Hrun & Hnone & _).
  rewrite Hrun, (Hnone eq_refl). reflexivity.
Defined.

(** C4, as the claim words it, fails in two ways.  On the text "not json",
    which is not JSON, the reason is not the all-lower-case string of the
    claim, in either copy of the service.  And text that cannot be read as
    a verdict object need not be bypassed at all: on the JSON texts "5" and
    "[]", and on a response without text, Validate returns [valid = false]
    with the reason "Unknown". *)
Lemma validate_differs_from_claimed_bypass :
  let claimed := {| valid := true;
                    reason := JString (js "validation bypassed due to system error") |} in
  let unknown := {| valid := false; reason := JString (js "Unknown") |} in
  let run txt outcome :=
    fst (validateSolution txt (file Sample.question) []
           (world (Sample.start Sample.apiKey [outcome]))) in
  parse (stripFences (js "not json")) = None
  /\ run copyA (Sample.says (js "not json")) <> Ok claimed
  /\ run copyB (Sample.says (js "not json")) <> Ok claimed
  /\ run copyA (Sample.says (js "5")) = Ok unknown
  /\ run copyA (Sample.says (js "[]")) = Ok unknown
  /\ run copyA (Responds (mkResponse None [])) = Ok unknown
  /\ run copyB (Sample.says (js "5")) = Ok unknown
  /\ Ok unknown <> Ok claimed.
Proof.
  cbv zeta. split; [reflexivity |].
  split; [intros H; vm_compute in H; discriminate H |].
  split; [intros H; vm_compute in H; discriminate H |].
  split; [reflexivity |].
  split; [reflexivity |].
  split; [reflexivity |].
  split; [reflexivity |].
  discriminate.
Qed.

(** ** Tier fallback in Solve and RenderPage *)

Lemma liftResult_run {S A} (r : Result A) (s : S) : liftResult r s = (r, s).
Proof. reflexivity. Qed.

Lemma solve_primary_answers problemText w r :
  hasApiKey w ->
  answer w (solvePrimary problemText) = Responds r ->
  solveMathProblem problemText w
  = (Ok (parseSolutionResponse r), called w (solvePrimary problemText)).
Proof.
  intros Hkey Hresp. unfold solveMathProblem.
  step_ok (getAiClient_ok Hkey).
  erewrite tryCatch_ok; [reflexivity |].
  step_ok (generateContent_responds _ _ Hresp). reflexivity.
Qed.

Lemma solve_primary_fails problemText w e :
  hasApiKey w ->
  answer w (solvePrimary problemText) = Fails e ->
  solveMathProblem problemText w
  = if isPermissionError e
    then (solveOutcome (answer (called w (solvePrimary problemText))
                          (solveFallback problemText)),
          called (called w (solvePrimary problemText)) (solveFallback problemText))
    else (Throw e, called w (solvePrimary problemText)).
Proof.
  intros Hkey Hresp. unfold solveMathProblem.
  step_ok (getAiClient_ok Hkey).
  erewrite tryCatch_throw
    by (step_throw (generateContent_fails _ _ Hresp); reflexivity).
  destruct (isPermissionError e); [| reflexivity].
  unfold bind, generateContent, ret, solveOutcome.
  destruct (answer _ (solveFallback problemText)); reflexivity.
Qed.

(** No image in a response is not a permission failure. *)
Lemma extractImage_error_not_permission ps e :
  extractImage ps = Throw e -> isPermissionError e = false.
Proof.
  induction ps as [| p ps IH]; cbn [extractImage].
  - intros H. injection H as <-. reflexivity.
  - destruct (inlineData p); [discriminate | exact IH].
Qed.

Section PageTiers.

Variable txt : ServiceText.
Variables (ref : File) (url : jsstring) (step : option Json) (clean : jsstring).
Variable pageIndex : nat.
Hypothesis Href : dataUrl ref = Some url.
Hypothesis Hclean : cleanTextForHandwriting step = Ok clean.

Lemma page_primary_answers w r :
  hasApiKey w ->
  answer w (pagePrimary ref (secondField url) clean) = Responds r ->
  generateHandwrittenPage txt ref step pageIndex w
  = (extractImage (parts r), called w (pagePrimary ref (secondField url) clean)).
Proof.
  intros Hkey Hresp. unfold generateHandwrittenPage.
  step_ok (getAiClient_ok Hkey).
  step_ok (fileToGenerativePart_ok ref w Href).
  rewrite Hclean. step_ok (@liftResult_run World _ (Ok clean) w).
  unfold tryCatch, bind.
  rewrite (generateContent_responds _ _ Hresp). unfold liftResult.
  destruct (extractImage (parts r)) as [image | e] eqn:He; [reflexivity |].
  rewrite (extractImage_error_not_permission _ He). reflexivity.
Qed.

Lemma page_primary_fails w e :
  hasApiKey w ->
  answer w (pagePrimary ref (secondField url) clean) = Fails e ->
  generateHandwrittenPage txt ref step pageIndex w
  = if isPermissionError e
    then (pageOutcome
            (answer (called w (pagePrimary ref (secondField url) clean))
               (pageFallback txt ref (secondField url) clean)),
          called (called w (pagePrimary ref (secondField url) clean))
            (pageFallback txt ref (secondField url) clean))
    else (Throw e, called w (pagePrimary ref (secondField url) clean)).
Proof.
  intros Hkey Hresp. unfold generateHandwrittenPage.
  step_ok (getAiClient_ok Hkey).
  step_ok (fileToGenerativePart_ok ref w Href).
  rewrite Hclean. step_ok (@liftResult_run World _ (Ok clean) w).
  erewrite tryCatch_throw
    by (step_throw (generateContent_fails _ _ Hresp); reflexivity).
  destruct (isPermissionError e); [| reflexivity].
  unfold bind, generateContent, liftResult, pageOutcome.
  destruct (answer _ (pageFallback txt ref (secondField url) clean)); reflexivity.
Qed.

End PageTiers.


(** C2.  An invocation of Solve or RenderPage that reaches the backend (a
    key is set; for RenderPage the reference file is read and the step is a
    string) calls the primary tier first.  If that call is answered, its
    result is returned and nothing else is called.  If it fails with a
    permission error, exactly one more call goes to the fallback tier, with
    a thinking budget of 1024 instead of 2048 for Solve and without the
    image size for RenderPage, and the stage ends as that call does.  If it
    fails with any other error, that error is thrown as it is and no
    fallback call is made. *)
Theorem tier_fallback :
  forall (txt : ServiceText) (w : World) (problemText : jsstring)
         (ref : File) (url : jsstring) (step : option Json) (clean : jsstring)
         (pageIndex : nat),
    hasApiKey w ->
    dataUrl ref = Some url ->
    cleanTextForHandwriting step = Ok clean ->
    let sp := solvePrimary problemText in
    let sf := solveFallback problemText in
    let pp := pagePrimary ref (secondField url) clean in
    let pf := pageFallback txt ref (secondField url) clean in
    (forall r, answer w sp = Responds r ->
       solveMathProblem problemText w
       = (Ok (parseSolutionResponse r), called w sp))
    /\ (forall e, answer w sp = Fails e -> isPermissionError e = true ->
       solveMathProblem problemText w
       = (solveOutcome (answer (called w sp) sf), called (called w sp) sf))
    /\ (forall e, answer w sp = Fails e -> isPermissionError e = false ->
       solveMathProblem problemText w = (Throw e, called w sp))
    /\ (forall r, answer w pp = Responds r ->
       generateHandwrittenPage txt ref step pageIndex w
       = (extractImage (parts r), called w pp))
    /\ (forall e, answer w pp = Fails e -> isPermissionError e = true ->
       generateHandwrittenPage txt ref step pageIndex w
       = (pageOutcome (answer (called w pp) pf), called (called w pp) pf))
    /\ (forall e, answer w pp = Fails e -> isPermissionError e = false ->
       generateHandwrittenPage txt ref step pageIndex w = (Throw e, called w pp))
    /\ thinkingBudget (config sp) = Some 2048%nat
    /\ thinkingBudget (config sf) = Some 1024%nat
    /\ imageSize (config pp) = Some (js "2K")
    /\ imageSize (config pf) = None
    /\ model sp <> model sf
    /\ model pp <> model pf.
Proof.
  intros txt w problemText ref url step clean pageIndex Hkey Href Hclean
    sp sf pp pf.
  repeat match goal with |- _ /\ _ => split end;
    try reflexivity; try discriminate.
  - intros r Hr. exact (solve_primary_answers _ Hkey Hr).
  - intros e He Hperm. rewrite (solve_primary_fails _ Hkey He), Hperm. reflexivity.
  - intros e He Hperm. rewrite (solve_primary_fails _ Hkey He), Hperm. reflexivity.
  - intros r Hr. exact (page_primary_answers txt _ _ pageIndex Href Hclean Hkey Hr).
  - intros e He Hperm.
    rewrite (page_primary_fails txt _ _ pageIndex Href Hclean Hkey He), Hperm.
    reflexivity.
  - intros e He Hperm.
    rewrite (page_primary_fails txt _ _ pageIndex Href Hclean Hkey He), Hperm.
    reflexivity.
Qed.

Lemma tier_fallback_witness :
  let w := world (Sample.start Sample.apiKey
                    [Fails Sample.forbidden;
                     Responds (mkResponse (Some (js "[true]"))
                                 [mkPart (Some (Some (js "AAA")))])]) in
  let ref := file Sample.handwriting in
  solveMathProblem (js "x+1=2") w
  = (Ok [JBool true],
     called (called w (solvePrimary (js "x+1=2"))) (solveFallback (js "x+1=2")))
  /\ generateHandwrittenPage copyA ref (Some (JString (js "**x** = 1"))) 0 w
     = (Ok (js "data:image/png;base64,AAA"),
        called (called w (pagePrimary ref (Some (js "SEFORA==")) (js "x = 1")))
          (pageFallback copyA ref (Some (js "SEFORA==")) (js "x = 1"))).
Proof.
  cbv zeta.
  pose proof (@tier_fallback copyA
                (world (Sample.start Sample.apiKey
                          [Fails Sample.forbidden;
                           Responds (mkResponse (Some (js "[true]"))
                                       [mkPart (Some (Some (js "AAA")))])]))
                (js "x+1=2") (file Sample.handwriting)
                (js "data:image/png;base64,SEFORA==")
                (Some (JString (js "**x** = 1"))) (js "x = 1") 0
                eq_refl eq_refl eq_refl) as H.
  cbv zeta in H.
  destruct H as (_ & Hsolve & _ & _ & Hpage & _).
  split.
  - exact (Hsolve Sample.forbidden eq_refl eq_refl).
  - exact (Hpage Sample.forbidden eq_refl eq_refl).
Defined.

(* ================================================================== *)
(** * Properties of [handleProcess] *)
(* ================================================================== *)

Lemma last_default {A} (x : A) (l : list A) (d d' : A) :
  last (x :: l) d = last (x :: l) d'.
Proof.
  revert x. induction l as [| y l IH]; intros x; [reflexivity |].
  change (last (y :: l) d = last (y :: l) d'). apply IH.
Qed.

Lemma last_app_last {A} (l1 l2 : list A) (d : A) :
  last (l1 ++ l2) d = last l2 (last l1 d).
Proof.
  destruct l2 as [| y l2]; [rewrite app_nil_r; reflexivity |].
  induction l1 as [| x l1 IH]; [reflexivity |].
  rewrite (last_default y l2 (last (x :: l1) d) d).
  destruct l1 as [| z l1]; [reflexivity |].
  change (last ((z :: l1) ++ y :: l2) d = last (y :: l2) d).
  rewrite IH. apply last_default.
Qed.

Lemma logged_nil a : logged a [] = a.
Proof. destruct a. unfold logged. cbn. rewrite app_nil_r. reflexivity. Qed.

Lemma logged_logged a l1 l2 : logged (logged a l1) l2 = logged a (l1 ++ l2).
Proof.
  unfold logged. cbn. rewrite last_app_last, app_assoc. reflexivity.
Qed.

Lemma setProcessingState_run ps a w :
  setProcessingState ps (mkMachine a w) = (Ok tt, mkMachine (logged a [ps]) w).
Proof. reflexivity. Qed.

Lemma setGeneratedPages_run ps a w :
  setGeneratedPages ps (mkMachine a w) = (Ok tt, mkMachine (published a ps) w).
Proof. reflexivity. Qed.

Lemma liftW_run {A} (c : M World A) a w r w' :
  c w = (r, w') -> liftW c (mkMachine a w) = (r, mkMachine a w').
Proof. intros H. unfold liftW. cbn. rewrite H. reflexivity. Qed.

Lemma toString_throws_cannotConvert v :
  forall e, toString v = Throw e -> e = cannotConvert.
Proof.
  induction v as [| b | n | s | l IH | fs] using Json_nested_ind; intros e;
    cbn [toString].
  - discriminate.
  - destruct b; discriminate.
  - discriminate.
  - discriminate.
  - assert (Hseq : forall e',
               sequence (map (fun x => match x with
                                       | JNull => Ok []
                                       | _ => toString x
                                       end) l) = Throw e' ->
               e' = cannotConvert).
    { induction IH as [| x r Hx _ IHr]; cbn [map sequence]; intros e'.
      - discriminate.
      - destruct (match x with JNull => Ok [] | _ => toString x end)
          as [sx | ex] eqn:Ex.
        + destruct (sequence _) eqn:Er; [discriminate |].
          intros H. injection H as <-. apply IHr. reflexivity.
        + intros H. injection H as <-. apply Hx.
          destruct x; try exact Ex. discriminate Ex. }
    destruct (sequence _) eqn:Es; [discriminate |].
    intros H. injection H as <-. apply Hseq. reflexivity.
  - destruct (Json.hasKey fs (js "toString")); [| discriminate].
    intros H. injection H as <-. reflexivity.
Qed.

Lemma cannotConvert_not_denied : deniedInCatch cannotConvert = false.
Proof. reflexivity. Qed.

(** Validate throws only before it reaches the backend, and never an
    error that the [catch] clause of [handleProcess] takes for a denial. *)
Lemma validateSolution_throw_not_denied txt q urls w e w' :
  validateSolution txt q urls w = (Throw e, w') ->
  deniedInCatch e = false /\ w' = w.
Proof.
  unfold validateSolution, bind, getAiClient, fileToGenerativePart, tryCatch.
  destruct (isSet _).
  - destruct (dataUrl q); cbn [ret throw].
    + destruct (generateContent _ w) as [[r | e0] w0].
      * destruct (parse _) as [json |]; cbn [liftResult throw ret].
        -- destruct (readVerdict json); discriminate.
        -- discriminate.
      * cbn [ret]. discriminate.
    + intros H. injection H as <- <-. split; reflexivity.
  - intros H. injection H as <- <-. split; reflexivity.
Qed.

Section PipelineFacts.

Variable txt : ServiceText.
Variables question handwriting : UploadedFile.

Lemma pagesLoop_rendered suffix i w urls w' :
  Rendered txt (file handwriting) suffix i w urls w' ->
  forall allSteps a cur,
    (forall j s, nth_error suffix j = Some s ->
                 nth_error allSteps (i + j) = Some s) ->
    pagesLoop txt (file handwriting) allSteps (List.length suffix) i cur
      (mkMachine a w)
    = (Ok (cur ++ numbered i urls),
       mkMachine
         (logged a (generatingStates (List.length suffix) i (List.length allSteps)))
         w').
Proof.
  induction 1 as [i w | s steps i w url w1 urls w2 Hpage _ IH];
    intros allSteps a cur Hnth.
  - cbn. rewrite app_nil_r, logged_nil. reflexivity.
  - cbn [List.length pagesLoop generatingStates numbered].
    step_ok (setProcessingState_run (generatingState i (List.length allSteps)) a w).
    assert (Hs : nth_error allSteps i = Some s).
    { rewrite <- (Nat.add_0_r i). apply Hnth. reflexivity. }
    rewrite Hs.
    step_ok (@liftW_run _ _ (logged a [generatingState i (List.length allSteps)]) _ _ _ Hpage).
    rewrite IH.
    + rewrite logged_logged, <- app_assoc. reflexivity.
    + intros j s' Hj. rewrite Nat.add_succ_comm. apply Hnth. exact Hj.
Qed.

Lemma generatePages_rendered steps w urls w' a :
  Rendered txt (file handwriting) steps 0 w urls w' ->
  generatePages txt (file handwriting) steps (mkMachine a w)
  = (Ok (numbered 0 urls),
     mkMachine
       (logged a (generatingStates (List.length steps) 0 (List.length steps))) w').
Proof.
  intros H. unfold generatePages.
  rewrite (pagesLoop_rendered H steps a []); [reflexivity |].
  intros j s Hj. exact Hj.
Qed.

(** The attempt up to the verdict. *)
Lemma tryBlock_reaches_validate attempts a w steps urls v w' :
  ReachesValidate txt question handwriting w steps urls v w' ->
  tryBlock txt attempts question handwriting (mkMachine a w)
  = (let a1 := logged a (attemptStates attempts (List.length steps)) in
     if valid v then
       (setGeneratedPages (numbered 0 urls) ;;
        setProcessingState completedState ;;
        ret true) (mkMachine a1 w')
     else
       (liftResult (toString (reason v)) ;;
        if Nat.eqb attempts MAX_ATTEMPTS then
          shown <- liftResult
                     (toString (orElse (Some (reason v))
                                  (JString (js "Output illegible")))) ;;
          throw (newError (js "Validation failed: " ++ shown))
        else ret false) (mkMachine a1 w')).
Proof.
  intros (problemText & w1 & w2 & w3 & Ht & Hs & Hne & Hr & Hv).
  unfold tryBlock.
  step_ok (setProcessingState_run (analyzingState attempts) a w).
  step_ok (@liftW_run _ _ (logged a [analyzingState attempts]) _ _ _ Ht).
  step_ok (setProcessingState_run solvingState (logged a [analyzingState attempts]) w1).
  step_ok (@liftW_run _ _ (logged (logged a [analyzingState attempts]) [solvingState]) _ _ _ Hs).
  destruct steps as [| s0 steps']; [contradiction Hne; reflexivity |].
  cbn [List.length Nat.eqb].
  step_ok (generatePages_rendered
             (logged (logged a [analyzingState attempts]) [solvingState]) Hr).
  rewrite !logged_logged.
  erewrite bind_ok by (apply setProcessingState_run).
  rewrite logged_logged.
  erewrite bind_ok.
  2:{ apply liftW_run.
      assert (Hmap : forall i, map imageUrl (numbered i urls) = urls).
      { clear. induction urls as [| u r IH]; intros i; [reflexivity |].
        cbn. rewrite IH. reflexivity. }
      rewrite Hmap. exact Hv. }
  unfold attemptStates. cbn [List.length].
  replace (([analyzingState attempts] ++ [solvingState]) ++
           generatingStates (S (List.length steps')) 0 (S (List.length steps')))
    with ([analyzingState attempts; solvingState] ++
          generatingStates (S (List.length steps')) 0 (S (List.length steps')))
    by reflexivity.
  rewrite <- app_assoc. cbv zeta.
  destruct (valid v); reflexivity.
Qed.

Lemma tryBlock_valid attempts a w steps urls v w' :
  ReachesValidate txt question handwriting w steps urls v w' ->
  valid v = true ->
  tryBlock txt attempts question handwriting (mkMachine a w)
  = (Ok true,
     mkMachine
       (logged (published (logged a (attemptStates attempts (List.length steps)))
                  (numbered 0 urls))
          [completedState])
       w').
Proof.
  intros H Hv. rewrite (tryBlock_reaches_validate attempts a H).
  cbv zeta. rewrite Hv. reflexivity.
Qed.

Lemma tryBlock_invalid attempts a w steps urls v w' :
  ReachesValidate txt question handwriting w steps urls v w' ->
  valid v = false ->
  attempts <> MAX_ATTEMPTS ->
  exists r,
    tryBlock txt attempts question handwriting (mkMachine a w)
    = (r, mkMachine (logged a (attemptStates attempts (List.length steps))) w')
    /\ (r = Ok false \/ r = Throw cannotConvert).
Proof.
  intros H Hv Hn. rewrite (tryBlock_reaches_validate attempts a H).
  cbv zeta. rewrite Hv.
  apply Nat.eqb_neq in Hn. rewrite Hn.
  unfold bind, liftResult, ret.
  destruct (toString (reason v)) as [shown | e] eqn:Hshown.
  - eexists. split; [reflexivity | left; reflexivity].
  - eexists. split; [reflexivity | right].
    rewrite (toString_throws_cannotConvert _ Hshown). reflexivity.
Qed.

Lemma tryBlock_empty attempts a w w' :
  SolvesEmpty question w w' ->
  tryBlock txt attempts question handwriting (mkMachine a w)
  = (if Nat.eqb attempts MAX_ATTEMPTS
     then Throw (newError (js "Could not solve the problem."))
     else Ok false,
     mkMachine (logged a [analyzingState attempts; solvingState]) w').
Proof.
  intros (problemText & w1 & Ht & Hs).
  unfold tryBlock.
  step_ok (setProcessingState_run (analyzingState attempts) a w).
  step_ok (@liftW_run _ _ (logged a [analyzingState attempts]) _ _ _ Ht).
  step_ok (setProcessingState_run solvingState (logged a [analyzingState attempts]) w1).
  step_ok (@liftW_run _ _ (logged (logged a [analyzingState attempts]) [solvingState])
             _ _ _ Hs).
  cbn [List.length Nat.eqb]. rewrite logged_logged.
  destruct (Nat.eqb attempts MAX_ATTEMPTS); reflexivity.
Qed.

(** *** One turn of the [while] loop *)

Lemma attemptLoop_success fuel attempts m m' :
  Nat.ltb attempts MAX_ATTEMPTS = true ->
  tryBlock txt (S attempts) question handwriting m = (Ok true, m') ->
  attemptLoop txt (S fuel) question handwriting attempts false m
  = Some (mkEnd (S attempts) true m').
Proof.
  intros Hlt Htry. cbn [attemptLoop]. rewrite Hlt, Htry. cbn [andb negb].
  destruct fuel; cbn [attemptLoop]; rewrite andb_false_r; reflexivity.
Qed.

Lemma attemptLoop_denied fuel attempts m e m' :
  Nat.ltb attempts MAX_ATTEMPTS = true ->
  tryBlock txt (S attempts) question handwriting m = (Throw e, m') ->
  deniedInCatch e = true ->
  attemptLoop txt (S fuel) question handwriting attempts false m
  = Some (mkEnd (S attempts) false (deny m')).
Proof.
  intros Hlt Htry Hd. cbn [attemptLoop]. rewrite Hlt, Htry, Hd. reflexivity.
Qed.

Lemma attemptLoop_retry fuel attempts m r m' :
  Nat.ltb attempts MAX_ATTEMPTS = true ->
  S attempts <> MAX_ATTEMPTS ->
  tryBlock txt (S attempts) question handwriting m = (r, m') ->
  r = Ok false \/ (exists e, r = Throw e /\ deniedInCatch e = false) ->
  attemptLoop txt (S fuel) question handwriting attempts false m
  = attemptLoop txt fuel question handwriting (S attempts) false m'.
Proof.
  intros Hlt Hn Htry Hr. cbn [attemptLoop]. rewrite Hlt, Htry. cbn [andb negb].
  destruct Hr as [-> | (e & -> & Hd)]; [reflexivity |].
  rewrite Hd. apply Nat.eqb_neq in Hn. rewrite Hn. reflexivity.
Qed.

Lemma attemptLoop_last_failure fuel attempts m e m' :
  S attempts = MAX_ATTEMPTS ->
  tryBlock txt (S attempts) question handwriting m = (Throw e, m') ->
  deniedInCatch e = false ->
  attemptLoop txt (S fuel) question handwriting attempts false m
  = Some (mkEnd (S attempts) false
            (stateAfter (setProcessingState (failureState (message e)) m'))).
Proof.
  intros Hn Htry Hd.
  assert (Hlt : Nat.ltb attempts MAX_ATTEMPTS = true).
  { apply Nat.ltb_lt. rewrite <- Hn. apply Nat.lt_succ_diag_r. }
  cbn [attemptLoop]. rewrite Hlt, Htry, Hd. cbn [andb negb].
  rewrite Hn, Nat.eqb_refl.
  destruct fuel; cbn [attemptLoop]; rewrite Nat.ltb_irrefl; reflexivity.
Qed.

(** The loop ends within its fuel. *)
Lemma attemptLoop_total fuel :
  forall attempts success m,
    MAX_ATTEMPTS <= fuel + attempts ->
    exists r, attemptLoop txt fuel question handwriting attempts success m = Some r.
Proof.
  induction fuel as [| fuel IH]; intros attempts success m Hle.
  - cbn [attemptLoop].
    replace (Nat.ltb attempts MAX_ATTEMPTS) with false
      by (symmetry; apply Nat.ltb_ge; exact Hle).
    eexists. reflexivity.
  - cbn [attemptLoop].
    destruct (Nat.ltb attempts MAX_ATTEMPTS && negb success);
      [| eexists; reflexivity].
    destruct (tryBlock txt (S attempts) question handwriting m) as [[s' | e] m'].
    + apply IH. rewrite Nat.add_succ_r. exact Hle.
    + destruct (deniedInCatch e); [eexists; reflexivity |].
      apply IH. rewrite Nat.add_succ_r. exact Hle.
Qed.

End PipelineFacts.

(** [handleProcess] always returns. *)
Lemma handleProcess_total txt m : exists r, handleProcess txt m = Some r.
Proof.
  unfold handleProcess.
  destruct (questionImage (component m)) as [q |]; [| eexists; reflexivity].
  destruct (handwritingImage (component m)) as [h |]; [| eexists; reflexivity].
  apply attemptLoop_total. rewrite Nat.add_0_r. apply Nat.le_refl.
Qed.

(** ** Facts about the pages of an attempt *)

Lemma Rendered_length txt ref steps i w urls w' :
  Rendered txt ref steps i w urls w' -> List.length urls = List.length steps.
Proof. induction 1; cbn; congruence. Qed.

Lemma numbered_length i urls : List.length (numbered i urls) = List.length urls.
Proof. revert i. induction urls; intros i; cbn; congruence. Qed.

Lemma numbered_pageNumber i urls :
  map pageNumber (numbered i urls) = seq (i + 1) (List.length urls).
Proof.
  revert i. induction urls as [| u r IH]; intros i; [reflexivity |].
  cbn [numbered map List.length seq pageNumber]. rewrite IH. reflexivity.
Qed.

Lemma numbered_imageUrl i urls : map imageUrl (numbered i urls) = urls.
Proof.
  revert i. induction urls as [| u r IH]; intros i; [reflexivity |].
  cbn. rewrite IH. reflexivity.
Qed.

(** The run starts by clearing the pages shown. *)
Lemma handleProcess_start txt a w q h :
  questionImage a = Some q ->
  handwritingImage a = Some h ->
  handleProcess txt (mkMachine a w)
  = attemptLoop txt 3 q h 0 false (mkMachine (published a []) w).
Proof. intros Hq Hh. unfold handleProcess. cbn. rewrite Hq, Hh. reflexivity. Qed.

Ltac solve_attempt :=
  do 4 eexists;
  split; [reflexivity |];
  split; [reflexivity |];
  split; [discriminate |];
  split; [repeat (eapply Rendered_cons; [reflexivity |]); apply Rendered_nil |];
  reflexivity.

Ltac solve_empty := do 2 eexists; split; reflexivity.

(** ** Success on the first attempt *)

(** C3.  When on attempt 1 Transcribe, Solve and every RenderPage succeed
    and Validate returns [valid = true], the run ends after one attempt
    with as many published pages as Solve gave steps, numbered 1..N in
    order, page [i] showing what RenderPage returned for step [i]. *)
Theorem first_attempt_publishes_numbered_pages :
  forall (txt : ServiceText) (m : Machine) (q h : UploadedFile)
         (steps : list Json) (urls : list jsstring) (v : Verdict) (w' : World),
    questionImage (component m) = Some q ->
    handwritingImage (component m) = Some h ->
    ReachesValidate txt q h (world m) steps urls v w' ->
    valid v = true ->
    exists r,
      handleProcess txt m = Some r
      /\ attemptsUsed r = 1
      /\ succeeded r = true
      /\ List.length (generatedPages (component (final r))) = List.length steps
      /\ map pageNumber (generatedPages (component (final r)))
         = seq 1 (List.length steps)
      /\ map imageUrl (generatedPages (component (final r))) = urls
      /\ processingState (component (final r)) = completedState.
Proof.
  intros txt [a w] q h steps urls v w' Hq Hh Hrun Hv. cbn in Hq, Hh, Hrun.
  rewrite (@handleProcess_start txt a w q h Hq Hh).
  rewrite (@attemptLoop_success txt q h 2 0 _ _ eq_refl
             (@tryBlock_valid txt q h 1 (published a []) _ _ _ _ _ Hrun Hv)).
  eexists. split; [reflexivity |].
  destruct Hrun as (t & w1 & w2 & w3 & _ & _ & _ & Hr & _).
  pose proof (Rendered_length Hr) as Hlen.
  cbn [attemptsUsed succeeded final component generatedPages published logged
       processingState last].
  rewrite numbered_length, numbered_pageNumber, numbered_imageUrl, Hlen.
  repeat split; reflexivity.
Qed.

Lemma first_attempt_witness :
  exists r,
    handleProcess copyA
      (Sample.start Sample.apiKey
         [Sample.says (js "x+1=2");
          Sample.says (Sample.arrayOf ["p1"; "p2"]%string);
          Sample.draws "AAA"; Sample.draws "BBB";
          Sample.says (Sample.verdictText true "ok")]) = Some r
    /\ attemptsUsed r = 1
    /\ succeeded r = true
    /\ List.length (generatedPages (component (final r)))
       = List.length [JString (js "p1"); JString (js "p2")]
    /\ map pageNumber (generatedPages (component (final r)))
       = seq 1 (List.length [JString (js "p1"); JString (js "p2")])
    /\ map imageUrl (generatedPages (component (final r)))
       = [js "data:image/png;base64,AAA"; js "data:image/png;base64,BBB"]
    /\ processingState (component (final r)) = completedState.
Proof.
  eapply (@first_attempt_publishes_numbered_pages copyA _
            Sample.question Sample.handwriting).
  - reflexivity.
  - reflexivity.
  - solve_attempt.
  - reflexivity.
Defined.

(** ** Success on the third attempt *)

(** C7.  When Validate rejects the pages of attempts 1 and 2 and accepts
    those of attempt 3, the run ends after three attempts and publishes
    exactly the pages rendered during attempt 3: the only values ever
    published are the empty list that clears the display at the start and
    that list. *)
Theorem third_attempt_publishes_only_its_pages :
  forall (txt : ServiceText) (m : Machine) (q h : UploadedFile)
         (steps1 steps2 steps3 : list Json) (urls1 urls2 urls3 : list jsstring)
         (v1 v2 v3 : Verdict) (w1 w2 w3 : World),
    questionImage (component m) = Some q ->
    handwritingImage (component m) = Some h ->
    ReachesValidate txt q h (world m) steps1 urls1 v1 w1 ->
    valid v1 = false ->
    ReachesValidate txt q h w1 steps2 urls2 v2 w2 ->
    valid v2 = false ->
    ReachesValidate txt q h w2 steps3 urls3 v3 w3 ->
    valid v3 = true ->
    exists r,
      handleProcess txt m = Some r
      /\ attemptsUsed r = 3
      /\ succeeded r = true
      /\ generatedPages (component (final r)) = numbered 0 urls3
      /\ pagesLog (component (final r))
         = pagesLog (component m) ++ [[]; numbered 0 urls3]
      /\ processingState (component (final r)) = completedState.
Proof.
  intros txt [a w] q h steps1 steps2 steps3 urls1 urls2 urls3 v1 v2 v3 w1 w2 w3
    Hq Hh H1 Hv1 H2 Hv2 H3 Hv3.
  cbn in Hq, Hh, H1.
  rewrite (@handleProcess_start txt a w q h Hq Hh).
  destruct (@tryBlock_invalid txt q h 1 (published a []) _ _ _ _ _ H1 Hv1)
    as (r1 & Ht1 & Hr1); [discriminate |].
  rewrite (@attemptLoop_retry txt q h 2 0 _ r1 _ eq_refl ltac:(discriminate) Ht1).
  2:{ destruct Hr1 as [-> | ->]; [left; reflexivity |].
      right. eexists. split; [reflexivity | exact cannotConvert_not_denied]. }
  destruct (@tryBlock_invalid txt q h 2
              (logged (published a []) (attemptStates 1 (List.length steps1)))
              _ _ _ _ _ H2 Hv2)
    as (r2 & Ht2 & Hr2); [discriminate |].
  rewrite (@attemptLoop_retry txt q h 1 1 _ r2 _ eq_refl ltac:(discriminate) Ht2).
  2:{ destruct Hr2 as [-> | ->]; [left; reflexivity |].
      right. eexists. split; [reflexivity | exact cannotConvert_not_denied]. }
  rewrite (@attemptLoop_success txt q h 0 2 _ _ eq_refl
             (@tryBlock_valid txt q h 3 _ _ _ _ _ _ H3 Hv3)).
  eexists. split; [reflexivity |].
  cbn [attemptsUsed succeeded final component generatedPages published logged
       processingState last pagesLog].
  rewrite <- app_assoc.
  repeat split; reflexivity.
Qed.

Lemma third_attempt_witness :
  let m := Sample.start Sample.apiKey Sample.thirdTime in
  let urls3 := [js "data:image/png;base64,NEW1";
                js "data:image/png;base64,NEW2"] in
  exists r,
    handleProcess copyA m = Some r
    /\ attemptsUsed r = 3
    /\ succeeded r = true
    /\ generatedPages (component (final r)) = numbered 0 urls3
    /\ pagesLog (component (final r))
       = pagesLog (component m) ++ [[]; numbered 0 urls3]
    /\ processingState (component (final r)) = completedState.
Proof.
  cbv zeta.
  eapply (@third_attempt_publishes_only_its_pages copyA
            (Sample.start Sample.apiKey Sample.thirdTime)
            Sample.question Sample.handwriting
            _ _ _ _ _
            [js "data:image/png;base64,NEW1"; js "data:image/png;base64,NEW2"]).
  - reflexivity.
  - reflexivity.
  - solve_attempt.
  - reflexivity.
  - solve_attempt.
  - reflexivity.
  - solve_attempt.
  - reflexivity.
Defined.

(** ** No solution on any attempt *)

(** C6.  When Solve returns no step on each of the three attempts, the
    first two attempts end without any error state and the loop goes on;
    the third throws "Could not solve the problem.", and the run ends with
    the state ERROR, "SYSTEM FAILURE: Could not solve the problem.",
    progress 0. *)
Theorem empty_solutions_exhaust_attempts :
  forall (txt : ServiceText) (m : Machine) (q h : UploadedFile)
         (w1 w2 w3 : World),
    questionImage (component m) = Some q ->
    handwritingImage (component m) = Some h ->
    SolvesEmpty q (world m) w1 ->
    SolvesEmpty q w1 w2 ->
    SolvesEmpty q w2 w3 ->
    exists r,
      handleProcess txt m = Some r
      /\ attemptsUsed r = MAX_ATTEMPTS
      /\ succeeded r = false
      /\ step_ (processingState (component (final r))) = ERROR
      /\ processingState (component (final r))
         = failureState (js "Could not solve the problem.")
      /\ stateLog (component (final r))
         = stateLog (component m)
           ++ [analyzingState 1; solvingState;
               analyzingState 2; solvingState;
               analyzingState 3; solvingState;
               failureState (js "Could not solve the problem.")]
      /\ generatedPages (component (final r)) = []
      /\ world (final r) = w3.
Proof.
  intros txt [a w] q h w1 w2 w3 Hq Hh H1 H2 H3. cbn in Hq, Hh, H1.
  rewrite (@handleProcess_start txt a w q h Hq Hh).
  rewrite (@attemptLoop_retry txt q h 2 0 _ _ _ eq_refl ltac:(discriminate)
             (@tryBlock_empty txt q h 1 _ _ _ H1) (or_introl eq_refl)).
  rewrite (@attemptLoop_retry txt q h 1 1 _ _ _ eq_refl ltac:(discriminate)
             (@tryBlock_empty txt q h 2 _ _ _ H2) (or_introl eq_refl)).
  rewrite (@attemptLoop_last_failure txt q h 0 2 _ _ _ eq_refl
             (@tryBlock_empty txt q h 3 _ _ _ H3) eq_refl).
  eexists. split; [reflexivity |].
  cbn [attemptsUsed succeeded final component generatedPages published logged
       processingState last pagesLog stateLog world stateAfter snd
       setProcessingState updApp message newError].
  rewrite <- !app_assoc.
  repeat split; reflexivity.
Qed.

Lemma empty_solutions_witness :
  let script := [Sample.says (js "x+1=2"); Sample.says (js "[]");
                 Sample.says (js "x+1=2"); Sample.says (js "[]");
                 Sample.says (js "x+1=2"); Sample.says (js "```json[]```")] in
  exists r,
    handleProcess copyA (Sample.start Sample.apiKey script) = Some r
    /\ attemptsUsed r = MAX_ATTEMPTS
    /\ succeeded r = false
    /\ step_ (processingState (component (final r))) = ERROR.
Proof.
  cbv zeta.
  edestruct (@empty_solutions_exhaust_attempts copyA
               (Sample.start Sample.apiKey
                  [Sample.says (js "x+1=2"); Sample.says (js "[]");
                   Sample.says (js "x+1=2"); Sample.says (js "[]");
                   Sample.says (js "x+1=2"); Sample.says (js "```json[]```")])
               Sample.question Sample.handwriting)
    as (r & Hr & Hn & Hs & He & _).
  - reflexivity.
  - reflexivity.
  - solve_empty.
  - solve_empty.
  - solve_empty.
  - exists r. repeat split; assumption.
Defined.

(** ** Denied access *)

Section Denial.

Variable txt : ServiceText.
Variables question handwriting : UploadedFile.

Lemma pagesLoop_throws done i w urls w1 :
  Rendered txt (file handwriting) done i w urls w1 ->
  forall s rest e w' allSteps a cur,
    generateHandwrittenPage txt (file handwriting) (Some s)
      (i + List.length done) w1 = (Throw e, w') ->
    (forall j x, nth_error (done ++ s :: rest) j = Some x ->
                 nth_error allSteps (i + j) = Some x) ->
    exists written,
      pagesLoop txt (file handwriting) allSteps
        (List.length (done ++ s :: rest)) i cur (mkMachine a w)
      = (Throw e, mkMachine (logged a written) w').
Proof.
  induction 1 as [i w | s0 steps i w url w1 urls w2 Hpage _ IH];
    intros s rest e w' allSteps a cur Hfail Hnth.
  - cbn [List.length app pagesLoop]. rewrite Nat.add_0_r in Hfail.
    step_ok (setProcessingState_run (generatingState i (List.length allSteps)) a w).
    assert (Hs : nth_error allSteps i = Some s).
    { rewrite <- (Nat.add_0_r i). apply Hnth. reflexivity. }
    rewrite Hs.
    step_throw (@liftW_run _ _ (logged a [generatingState i (List.length allSteps)])
                  _ _ _ Hfail).
    eexists. reflexivity.
  - cbn [List.length app pagesLoop].
    step_ok (setProcessingState_run (generatingState i (List.length allSteps)) a w).
    assert (Hs : nth_error allSteps i = Some s0).
    { rewrite <- (Nat.add_0_r i). apply Hnth. reflexivity. }
    rewrite Hs.
    step_ok (@liftW_run _ _ (logged a [generatingState i (List.length allSteps)])
               _ _ _ Hpage).
    cbn [List.length] in Hfail. rewrite Nat.add_succ_r in Hfail.
    destruct (IH s rest e w' allSteps
                (logged a [generatingState i (List.length allSteps)])
                (cur ++ [{| imageUrl := url; pageNumber := i + 1 |}]) Hfail)
      as (written & Hw).
    + intros j x Hj. rewrite Nat.add_succ_comm. apply Hnth. exact Hj.
    + rewrite Hw, logged_logged. eexists. reflexivity.
Qed.

Lemma tryBlock_stage_throws attempts a w e w' :
  StageThrows txt question handwriting w e w' ->
  exists written,
    tryBlock txt attempts question handwriting (mkMachine a w)
    = (Throw e, mkMachine (logged a written) w').
Proof.
  intros [Ht | [(t & w1 & Ht & Hs) | (t & w1 & done & s & rest & w2 & urls & w3
                                       & Ht & Hs & Hr & Hp)]];
    unfold tryBlock;
    step_ok (setProcessingState_run (analyzingState attempts) a w).
  - step_throw (@liftW_run _ _ (logged a [analyzingState attempts]) _ _ _ Ht).
    eexists. reflexivity.
  - step_ok (@liftW_run _ _ (logged a [analyzingState attempts]) _ _ _ Ht).
    step_ok (setProcessingState_run solvingState
               (logged a [analyzingState attempts]) w1).
    step_throw (@liftW_run _ _
                  (logged (logged a [analyzingState attempts]) [solvingState])
                  _ _ _ Hs).
    rewrite logged_logged. eexists. reflexivity.
  - step_ok (@liftW_run _ _ (logged a [analyzingState attempts]) _ _ _ Ht).
    step_ok (setProcessingState_run solvingState
               (logged a [analyzingState attempts]) w1).
    step_ok (@liftW_run _ _
               (logged (logged a [analyzingState attempts]) [solvingState])
               _ _ _ Hs).
    assert (Hlen : Nat.eqb (List.length (done ++ s :: rest)) 0 = false).
    { rewrite length_app. cbn [List.length]. rewrite Nat.add_succ_r. reflexivity. }
    rewrite Hlen. unfold generatePages.
    destruct (@pagesLoop_throws done 0 w2 urls w3 Hr s rest e w'
                (done ++ s :: rest)
                (logged (logged a [analyzingState attempts]) [solvingState]) []
                Hp (fun j x H => H))
      as (written & Hw).
    step_throw Hw. rewrite !logged_logged. eexists. reflexivity.
Qed.

End Denial.

(** C1, as the code has it.  When during attempt 1 Transcribe, Solve or
    RenderPage throws to [handleProcess] an error that its [catch] clause
    takes for a denial (the serialized error contains "403" or
    "PERMISSION_DENIED", or the message contains "403" or "permission"),
    the run stops at once: one attempt used, the key forgotten, the state
    ERROR with "ACCESS DENIED: API Key invalid.", no page published.  A
    denied primary call of Solve or RenderPage is first tried again on the
    fallback tier (see [tier_fallback]), and Validate never throws such an
    error (see [validateSolution_throw_not_denied]). *)
Theorem denial_stops_run_after_one_attempt :
  forall (txt : ServiceText) (m : Machine) (q h : UploadedFile)
         (e : JsError) (w' : World),
    questionImage (component m) = Some q ->
    handwritingImage (component m) = Some h ->
    deniedInCatch e = true ->
    StageThrows txt q h (world m) e w' ->
    exists r,
      handleProcess txt m = Some r
      /\ attemptsUsed r = 1
      /\ succeeded r = false
      /\ processingState (component (final r)) = accessDeniedState
      /\ isKeySelected (component (final r)) = false
      /\ generatedPages (component (final r)) = []
      /\ world (final r) = w'.
Proof.
  intros txt [a w] q h e w' Hq Hh Hd Hthrow. cbn in Hq, Hh, Hthrow.
  rewrite (@handleProcess_start txt a w q h Hq Hh).
  destruct (@tryBlock_stage_throws txt q h 1 (published a []) w e w' Hthrow)
    as (written & Htry).
  rewrite (@attemptLoop_denied txt q h 2 0 _ e _ eq_refl Htry Hd).
  eexists. split; [reflexivity |].
  repeat split; reflexivity.
Qed.

Lemma denial_stops_run_witness :
  let m := Sample.start Sample.apiKey [Fails Sample.forbidden] in
  exists r,
    handleProcess copyA m = Some r
    /\ attemptsUsed r = 1
    /\ succeeded r = false
    /\ processingState (component (final r)) = accessDeniedState
    /\ isKeySelected (component (final r)) = false
    /\ generatedPages (component (final r)) = []
    /\ world (final r)
       = called (world m)
           (transcribeRequest (file Sample.question) (Some (js "UVVFU1Q="))).
Proof.
  cbv zeta.
  eapply (@denial_stops_run_after_one_attempt copyA
            (Sample.start Sample.apiKey [Fails Sample.forbidden])
            Sample.question Sample.handwriting Sample.forbidden).
  - reflexivity.
  - reflexivity.
  - reflexivity.
  - left. reflexivity.
Defined.

(** C1, as the claim words it, fails.  Here the fourth call of attempt 1,
    the one Validate makes, fails with a 403 error that both tests take
    for a denial; Validate turns the failure into [valid = true] and the
    run completes with its page published. *)
Lemma denied_validate_call_completes_run :
  let script := [Sample.says (js "x+1=2");
                 Sample.says (Sample.arrayOf ["p1"]%string);
                 Sample.draws "AAA";
                 Fails Sample.forbidden] in
  let m := Sample.start Sample.apiKey script in
  deniedInCatch Sample.forbidden = true
  /\ isPermissionError Sample.forbidden = true
  /\ exists r,
       handleProcess copyA m = Some r
       /\ attemptsUsed r = 1
       /\ succeeded r = true
       /\ processingState (component (final r)) = completedState
       /\ processingState (component (final r)) <> accessDeniedState
       /\ isKeySelected (component (final r)) = true
       /\ generatedPages (component (final r))
          = [{| imageUrl := js "data:image/png;base64,AAA"; pageNumber := 1 |}]
       /\ List.length (calls (world (final r))) = 4
       /\ answer (called (called (called (world m)
                    (transcribeRequest (file Sample.question) (Some (js "UVVFU1Q="))))
                    (solvePrimary (js "x+1=2")))
                    (pagePrimary (file Sample.handwriting) (Some (js "SEFORA=="))
                       (js "p1")))
            (validateRequest (file Sample.question) (Some (js "UVVFU1Q="))
               [js "data:image/png;base64,AAA"])
          = Fails Sample.forbidden.
Proof.
  cbv zeta. split; [reflexivity | split; [reflexivity |]].
  eexists. split; [vm_compute; reflexivity |].
  repeat split; try reflexivity.
  discriminate.
Qed.

(** The same for a denied primary call of Solve: the fallback answers and
    the run goes on. *)
Example denied_solve_primary_falls_back :
  exists r,
    handleProcess copyA
      (Sample.start Sample.apiKey
         [Sample.says (js "x+1=2"); Fails Sample.forbidden;
          Sample.says (Sample.arrayOf ["p1"]%string); Sample.draws "AAA";
          Sample.says (Sample.verdictText true "ok")]) = Some r
    /\ succeeded r = true
    /\ processingState (component (final r)) = completedState.
Proof. eexists. split; [vm_compute; reflexivity |]. split; reflexivity. Qed.

(** ** Progress *)

Lemma nondecreasing_app l1 l2 :
  nondecreasing l1 -> nondecreasing l2 ->
  (forall x y, In x l1 -> In y l2 -> (x <= y)%Q) ->
  nondecreasing (l1 ++ l2).
Proof.
  induction l1 as [| x l1 IH]; intros H1 H2 Hle; [exact H2 |].
  destruct l1 as [| y l1].
  - destruct l2 as [| z l2]; [exact I |].
    split; [apply Hle; left; reflexivity | exact H2].
  - destruct H1 as [Hxy H1]. split; [exact Hxy |].
    apply IH; [exact H1 | exact H2 |].
    intros a b Ha Hb. apply Hle; [right; exact Ha | exact Hb].
Qed.

(** ** Rounding to binary64 keeps the order *)

Section Binary64.
Import Double.

Lemma nearestEven_bounds y :
  (Qfloor y <= nearestEven y <= Qfloor y + 1)%Z.
Proof.
  unfold nearestEven.
  destruct (Qcompare (y - inject_Z (Qfloor y)) (1 # 2)); [destruct (Z.even _) | |]; lia.
Qed.

(** Rounding to the nearest integer keeps the order, and leaves integers
    alone. *)
Lemma nearestEven_mono y1 y2 :
  (y1 <= y2)%Q -> (nearestEven y1 <= nearestEven y2)%Z.
Proof.
  intros H.
  pose proof (Qfloor_resp_le _ _ H) as Hf.
  pose proof (nearestEven_bounds y1) as B1.
  pose proof (nearestEven_bounds y2) as B2.
  destruct (Z.eq_dec (Qfloor y1) (Qfloor y2)) as [E | NE]; [| lia].
  unfold nearestEven. rewrite <- E.
  assert (Hr : (y1 - inject_Z (Qfloor y1) <= y2 - inject_Z (Qfloor y1))%Q).
  { apply Qplus_le_l. exact H. }
  destruct (Qcompare_spec (y1 - inject_Z (Qfloor y1)) (1 # 2)) as [E1 | L1 | G1];
    destruct (Qcompare_spec (y2 - inject_Z (Qfloor y1)) (1 # 2)) as [E2 | L2 | G2];
    try (destruct (Z.even (Qfloor y1)); lia); try lia.
  - exfalso. rewrite E1 in Hr. apply (Qlt_irrefl (1 # 2)).
    eapply Qle_lt_trans; [exact Hr | exact L2].
  - exfalso. rewrite E2 in Hr. apply (Qlt_irrefl (1 # 2)).
    eapply Qlt_le_trans; [exact G1 | exact Hr].
  - exfalso. apply (Qlt_irrefl (1 # 2)).
    eapply Qlt_trans; [exact G1 |]. eapply Qle_lt_trans; [exact Hr | exact L2].
Qed.

Lemma nearestEven_integer z : nearestEven (inject_Z z) = z.
Proof.
  unfold nearestEven. rewrite Qfloor_Z.
  destruct (Qcompare_spec (inject_Z z - inject_Z z) (1 # 2)) as [E | L | G].
  - exfalso. assert (H0 : (inject_Z z - inject_Z z == 0)%Q) by ring.
    rewrite H0 in E. discriminate E.
  - reflexivity.
  - exfalso. assert (H0 : (inject_Z z - inject_Z z == 0)%Q) by ring.
    rewrite H0 in G. discriminate G.
Qed.

Lemma two_pos k : (0 < 2 ^ k)%Q.
Proof. apply Qpower_0_lt. reflexivity. Qed.

Lemma two_mono a b : (a <= b)%Z -> (2 ^ a <= 2 ^ b)%Q.
Proof. intros H. apply Qpower_le_compat_l; [exact H | discriminate]. Qed.

Lemma two_plus a b : (2 ^ (a + b) == 2 ^ a * 2 ^ b)%Q.
Proof. apply Qpower_plus. discriminate. Qed.

Lemma two_inject n : (0 <= n)%Z -> (inject_Z (2 ^ n) == 2 ^ n)%Q.
Proof. intros H. rewrite Zpower_Qpower by exact H. reflexivity. Qed.

(** The binade read off the bit lengths of numerator and denominator is
    off by at most one. *)
Lemma log2_bounds x :
  (0 < x)%Q ->
  let k := (Z.log2 (Qnum x) - Z.log2 (Zpos (Qden x)))%Z in
  (2 ^ (k - 1) <= x)%Q /\ (x < 2 ^ (k + 1))%Q.
Proof.
  intros Hx k.
  destruct x as [n d]. cbn [Qnum Qden] in k.
  assert (Hn : (0 < n)%Z).
  { unfold Qlt in Hx. cbn in Hx. lia. }
  pose proof (Z.log2_spec n Hn) as [Hn1 Hn2].
  pose proof (Z.log2_spec (Zpos d) (Pos2Z.is_pos d)) as [Hd1 Hd2].
  pose proof (Z.log2_nonneg n) as Ha.
  pose proof (Z.log2_nonneg (Zpos d)) as Hb.
  set (a := Z.log2 n) in *. set (b := Z.log2 (Zpos d)) in *.
  assert (Hdq : (0 < inject_Z (Zpos d))%Q) by reflexivity.
  rewrite (Qmake_Qdiv n d).
  split.
  - apply Qle_shift_div_l; [exact Hdq |].
    apply Qle_trans with (2 ^ (k - 1) * 2 ^ (b + 1))%Q.
    + apply Qmult_le_l; [apply two_pos |].
      rewrite <- two_inject by lia. rewrite <- Zle_Qle. lia.
    + rewrite <- two_plus. replace (k - 1 + (b + 1))%Z with a by (unfold k; lia).
      rewrite <- two_inject by lia. rewrite <- Zle_Qle. exact Hn1.
  - apply Qlt_shift_div_r; [exact Hdq |].
    apply Qlt_le_trans with (2 ^ (k + 1) * 2 ^ b)%Q.
    + rewrite <- two_plus. replace (k + 1 + b)%Z with (a + 1)%Z by (unfold k; lia).
      rewrite <- two_inject by lia. rewrite <- Zlt_Qlt.
      replace (a + 1)%Z with (Z.succ a) by lia. exact Hn2.
    + apply Qmult_le_l; [apply two_pos |].
      rewrite <- two_inject by lia. rewrite <- Zle_Qle. exact Hd1.
Qed.

(** [binade x] is the exponent of the power of two at or below [x]. *)
Lemma binade_spec x :
  (0 < x)%Q -> (2 ^ binade x <= x)%Q /\ (x < 2 ^ (binade x + 1))%Q.
Proof.
  intros Hx. destruct (log2_bounds Hx) as [Hlo Hhi].
  unfold binade.
  set (k := (Z.log2 (Qnum x) - Z.log2 (Zpos (Qden x)))%Z) in *.
  destruct (Qle_bool (2 ^ k) x) eqn:E.
  - split; [apply Qle_bool_iff; exact E | exact Hhi].
  - split; [exact Hlo |].
    replace (k - 1 + 1)%Z with k by lia.
    apply Qnot_le_lt. intros H. apply Qle_bool_iff in H. congruence.
Qed.

Lemma binade_mono x y :
  (0 < x)%Q -> (x <= y)%Q -> (binade x <= binade y)%Z.
Proof.
  intros Hx Hxy.
  assert (Hy : (0 < y)%Q) by (eapply Qlt_le_trans; eassumption).
  destruct (binade_spec Hx) as [Hx1 _].
  destruct (binade_spec Hy) as [_ Hy2].
  destruct (Z_lt_le_dec (binade y) (binade x)) as [L | L]; [| exact L].
  exfalso. apply (Qlt_irrefl y).
  eapply Qlt_le_trans; [exact Hy2 |].
  eapply Qle_trans; [| exact Hxy].
  eapply Qle_trans; [| exact Hx1].
  apply two_mono. lia.
Qed.

Lemma ulpExponent_lower x : (binade x - 52 <= ulpExponent x)%Z.
Proof. unfold ulpExponent. lia. Qed.

(** Within one binade the rounded value stays between the binade's ends. *)
Lemma roundPositive_upper x :
  (0 < x)%Q -> (roundPositive x <= 2 ^ (ulpExponent x + 53))%Q.
Proof.
  intros Hx. destruct (binade_spec Hx) as [_ Hhi].
  unfold roundPositive. set (q := ulpExponent x).
  rewrite Z.add_comm, two_plus.
  apply Qmult_le_compat_r; [| apply Qlt_le_weak, two_pos].
  rewrite <- (@two_inject 53) by lia. rewrite <- Zle_Qle.
  rewrite <- (nearestEven_integer (2 ^ 53)).
  apply nearestEven_mono.
  apply Qle_shift_div_r; [apply two_pos |].
  rewrite (@two_inject 53) by lia. rewrite <- two_plus.
  apply Qlt_le_weak. eapply Qlt_le_trans; [exact Hhi |].
  apply two_mono. pose proof (ulpExponent_lower x). unfold q. lia.
Qed.

Lemma roundPositive_lower x :
  (0 < x)%Q -> ulpExponent x = (binade x - 52)%Z ->
  (2 ^ binade x <= roundPositive x)%Q.
Proof.
  intros Hx Hq. destruct (binade_spec Hx) as [Hlo _].
  unfold roundPositive. rewrite Hq.
  replace (binade x) with (52 + (binade x - 52))%Z at 1 by lia.
  rewrite two_plus.
  apply Qmult_le_compat_r; [| apply Qlt_le_weak, two_pos].
  rewrite <- (@two_inject 52) by lia. rewrite <- Zle_Qle.
  rewrite <- (nearestEven_integer (2 ^ 52)) at 1.
  apply nearestEven_mono.
  apply Qle_shift_div_l; [apply two_pos |].
  rewrite (@two_inject 52) by lia. rewrite <- two_plus.
  replace (52 + (binade x - 52))%Z with (binade x) by lia. exact Hlo.
Qed.

(** Rounding keeps the order: inside one binade because rounding to the
    nearest integer does, across binades because the power of two between
    the two arguments is a binary64 value. *)
Lemma roundPositive_mono x y :
  (0 < x)%Q -> (x <= y)%Q -> (roundPositive x <= roundPositive y)%Q.
Proof.
  intros Hx Hxy.
  assert (Hy : (0 < y)%Q) by (eapply Qlt_le_trans; eassumption).
  pose proof (binade_mono Hx Hxy) as Hb.
  destruct (Z.eq_dec (ulpExponent x) (ulpExponent y)) as [E | NE].
  - unfold roundPositive. rewrite E.
    apply Qmult_le_compat_r; [| apply Qlt_le_weak, two_pos].
    rewrite <- Zle_Qle. apply nearestEven_mono.
    apply Qmult_le_compat_r; [exact Hxy |].
    apply Qinv_le_0_compat, Qlt_le_weak, two_pos.
  - assert (Hq : ulpExponent y = (binade y - 52)%Z /\ (ulpExponent x + 53 <= binade y)%Z).
    { unfold ulpExponent in *. lia. }
    destruct Hq as [Hq Hle].
    eapply Qle_trans; [apply (roundPositive_upper Hx) |].
    eapply Qle_trans; [| apply (roundPositive_lower Hy Hq)].
    apply two_mono. exact Hle.
Qed.

Lemma roundPositive_nonneg x : (0 < x)%Q -> (0 <= roundPositive x)%Q.
Proof.
  intros Hx. unfold roundPositive.
  apply Qmult_le_0_compat; [| apply Qlt_le_weak, two_pos].
  change 0%Q with (inject_Z 0). rewrite <- Zle_Qle.
  rewrite <- (nearestEven_integer 0). apply nearestEven_mono.
  apply Qle_shift_div_l; [apply two_pos |].
  rewrite Qmult_0_l. apply Qlt_le_weak. exact Hx.
Qed.

Lemma round_mono x y :
  (0 <= x)%Q -> (x <= y)%Q -> (round x <= round y)%Q.
Proof.
  intros Hx Hxy. unfold round.
  destruct x as [nx dx], y as [ny dy]. cbn [Qnum].
  unfold Qle in Hx, Hxy. cbn in Hx, Hxy.
  destruct nx as [| px | px]; [| | lia].
  - destruct ny as [| py | py]; [apply Qle_refl | | lia].
    apply roundPositive_nonneg. reflexivity.
  - destruct ny as [| py | py]; [lia | | lia].
    apply roundPositive_mono; [reflexivity |].
    unfold Qle. cbn. exact Hxy.
Qed.

Lemma round_nonneg x : (0 <= x)%Q -> (0 <= round x)%Q.
Proof. intros H. apply (@round_mono 0%Q x); [apply Qle_refl | exact H]. Qed.

End Binary64.

(** ** The progress of the page loop *)

Section PageProgress.
Import Double.

Lemma ratio_nonneg i T :
  (0 <= inject_Z (Z.of_nat i) / inject_Z (Z.of_nat T))%Q.
Proof.
  apply Qmult_le_0_compat.
  - change 0%Q with (inject_Z 0). rewrite <- Zle_Qle. lia.
  - apply Qinv_le_0_compat. change 0%Q with (inject_Z 0).
    rewrite <- Zle_Qle. lia.
Qed.

Lemma pageProgress_mono i j T :
  i <= j -> (pageProgress i T <= pageProgress j T)%Q.
Proof.
  intros Hij. unfold pageProgress, add, mul, div.
  assert (H1 : (inject_Z (Z.of_nat i) / inject_Z (Z.of_nat T)
                <= inject_Z (Z.of_nat j) / inject_Z (Z.of_nat T))%Q).
  { apply Qmult_le_compat_r.
    - rewrite <- Zle_Qle. lia.
    - apply Qinv_le_0_compat. change 0%Q with (inject_Z 0).
      rewrite <- Zle_Qle. lia. }
  pose proof (round_mono (ratio_nonneg i T) H1) as H2.
  pose proof (round_nonneg (ratio_nonneg i T)) as H3.
  assert (H4 : (0 <= round (inject_Z (Z.of_nat i) / inject_Z (Z.of_nat T)) * 40)%Q).
  { apply Qmult_le_0_compat; [exact H3 | discriminate]. }
  assert (H5 : (round (inject_Z (Z.of_nat i) / inject_Z (Z.of_nat T)) * 40
                <= round (inject_Z (Z.of_nat j) / inject_Z (Z.of_nat T)) * 40)%Q).
  { apply Qmult_le_compat_r; [exact H2 | discriminate]. }
  pose proof (round_mono H4 H5) as H6.
  pose proof (round_nonneg H4) as H7.
  apply round_mono.
  - apply Qle_trans with (40 + 0)%Q; [discriminate |].
    apply Qplus_le_r. exact H7.
  - apply Qplus_le_r. exact H6.
Qed.

Lemma pageProgress_from_40 i T : (40 <= pageProgress i T)%Q.
Proof.
  unfold pageProgress, add, mul, div.
  apply Qle_trans with (round 40); [vm_compute; discriminate |].
  apply round_mono; [discriminate |].
  apply Qle_trans with (40 + 0)%Q; [discriminate |].
  apply Qplus_le_r. apply round_nonneg.
  apply Qmult_le_0_compat; [| discriminate].
  apply round_nonneg, ratio_nonneg.
Qed.

Lemma pageProgress_up_to_80 i T : i < T -> (pageProgress i T <= 80)%Q.
Proof.
  intros H. unfold pageProgress, add, mul, div.
  assert (H1 : (inject_Z (Z.of_nat i) / inject_Z (Z.of_nat T) <= 1)%Q).
  { apply Qle_shift_div_r.
    - change 0%Q with (inject_Z 0). rewrite <- Zlt_Qlt. lia.
    - rewrite Qmult_1_l. rewrite <- Zle_Qle. lia. }
  pose proof (round_mono (ratio_nonneg i T) H1) as H2.
  pose proof (round_nonneg (ratio_nonneg i T)) as H3.
  assert (E1 : (round 1 == 1)%Q) by reflexivity.
  assert (H4 : (0 <= round (inject_Z (Z.of_nat i) / inject_Z (Z.of_nat T)) * 40)%Q).
  { apply Qmult_le_0_compat; [exact H3 | discriminate]. }
  assert (H5 : (round (inject_Z (Z.of_nat i) / inject_Z (Z.of_nat T)) * 40 <= 40)%Q).
  { apply Qle_trans with (round 1 * 40)%Q.
    - apply Qmult_le_compat_r; [exact H2 | discriminate].
    - rewrite E1. discriminate. }
  pose proof (round_mono H4 H5) as H6.
  pose proof (round_nonneg H4) as H7.
  assert (E40 : (round 40 == 40)%Q) by reflexivity.
  assert (E80 : (round 80 == 80)%Q) by reflexivity.
  apply Qle_trans with (round 80); [| rewrite E80; apply Qle_refl].
  apply round_mono.
  - apply Qle_trans with (40 + 0)%Q; [discriminate |].
    apply Qplus_le_r. exact H7.
  - apply Qle_trans with (40 + 40)%Q; [| discriminate].
    apply Qplus_le_r.
    apply Qle_trans with (round 40); [exact H6 | rewrite E40; apply Qle_refl].
Qed.

End PageProgress.

Lemma pageProgress_lower i T : (30 <= pageProgress i T)%Q.
Proof.
  apply Qle_trans with 40%Q; [discriminate | apply pageProgress_from_40].
Qed.

Lemma pageProgress_upper i T : i < T -> (pageProgress i T <= 90)%Q.
Proof.
  intros H. apply Qle_trans with 80%Q;
    [apply pageProgress_up_to_80; exact H | discriminate].
Qed.

Lemma generatingStates_progress k i T :
  map progress (generatingStates k i T)
  = map (fun j => pageProgress j T) (seq i k).
Proof.
  revert i. induction k as [| k IH]; intros i; [reflexivity |].
  cbn [generatingStates map seq progress generatingState]. rewrite IH.
  reflexivity.
Qed.

Lemma pageProgress_seq_nondecreasing k i T :
  nondecreasing (map (fun j => pageProgress j T) (seq i k)).
Proof.
  revert i. induction k as [| k IH]; intros i; [exact I |].
  destruct k as [| k]; [exact I |].
  split; [apply pageProgress_mono; apply Nat.le_succ_diag_r | apply (IH (S i))].
Qed.

Lemma successProgress_nondecreasing T : nondecreasing (successProgress T).
Proof.
  unfold successProgress.
  apply nondecreasing_app.
  - split; [discriminate | exact I].
  - apply nondecreasing_app.
    + apply pageProgress_seq_nondecreasing.
    + split; [discriminate | exact I].
    + intros x y Hx Hy. apply in_map_iff in Hx. destruct Hx as (j & <- & Hj).
      apply in_seq in Hj.
      apply Qle_trans with 90%Q; [apply pageProgress_upper; lia |].
      destruct Hy as [<- | [<- | []]]; discriminate.
  - intros x y Hx Hy.
    apply Qle_trans with 30%Q.
    + destruct Hx as [<- | [<- | []]]; discriminate.
    + apply in_app_or in Hy. destruct Hy as [Hy | Hy].
      * apply in_map_iff in Hy. destruct Hy as (j & <- & _).
        apply pageProgress_lower.
      * destruct Hy as [<- | [<- | []]]; discriminate.
Qed.

Lemma appends_bind {A B} (c : M Machine A) (k : A -> M Machine B) :
  appends c -> (forall x, appends (k x)) -> appends (bind c k).
Proof.
  intros Hc Hk m. unfold bind.
  destruct (Hc m) as (r1 & H1).
  destruct (c m) as [[x | e] m1]; cbn [snd] in *.
  - destruct (Hk x m1) as (r2 & H2). exists (r1 ++ r2).
    rewrite H2, H1, app_assoc. reflexivity.
  - exists r1. exact H1.
Qed.

Lemma appends_setProcessingState ps : appends (setProcessingState ps).
Proof. intros m. exists [ps]. reflexivity. Qed.

Lemma appends_setGeneratedPages ps : appends (setGeneratedPages ps).
Proof. intros m. exists []. cbn. rewrite app_nil_r. reflexivity. Qed.

Lemma appends_liftW {A} (c : M World A) : appends (liftW c).
Proof.
  intros m. exists []. unfold liftW. destruct (c (world m)).
  cbn. rewrite app_nil_r. reflexivity.
Qed.

Lemma appends_pure {A} (r : Result A) : appends (liftResult r).
Proof. intros m. exists []. cbn. rewrite app_nil_r. reflexivity. Qed.

Lemma appends_pagesLoop txt hf steps k :
  forall i cur, appends (pagesLoop txt hf steps k i cur).
Proof.
  induction k as [| k IH]; intros i cur; cbn [pagesLoop].
  - exact (appends_pure (Ok cur)).
  - apply appends_bind; [apply appends_setProcessingState | intros _].
    apply appends_bind; [apply appends_liftW | intros url]. apply IH.
Qed.

Lemma appends_tryBlock_rest txt attempts q h :
  appends (problemText <- liftW (transcribeMathProblem (file q)) ;;
           setProcessingState solvingState ;;
           solutionSteps <- liftW (solveMathProblem problemText) ;;
           if Nat.eqb (List.length solutionSteps) 0 then
             if Nat.eqb attempts MAX_ATTEMPTS
             then throw (newError (js "Could not solve the problem."))
             else ret false
           else
             currentPages <- generatePages txt (file h) solutionSteps ;;
             setProcessingState validatingState ;;
             validation <- liftW (validateSolution txt (file q)
                                    (map imageUrl currentPages)) ;;
             if valid validation then
               setGeneratedPages currentPages ;;
               setProcessingState completedState ;;
               ret true
             else
               liftResult (toString (reason validation)) ;;
               if Nat.eqb attempts MAX_ATTEMPTS then
                 shown <- liftResult
                            (toString (orElse (Some (reason validation))
                                         (JString (js "Output illegible")))) ;;
                 throw (newError (js "Validation failed: " ++ shown))
               else ret false).
Proof.
  apply appends_bind; [apply appends_liftW | intros problemText].
  apply appends_bind; [apply appends_setProcessingState | intros _].
  apply appends_bind; [apply appends_liftW | intros steps].
  destruct (Nat.eqb (List.length steps) 0).
  - destruct (Nat.eqb attempts MAX_ATTEMPTS);
      [exact (appends_pure (Throw _)) | exact (appends_pure (Ok false))].
  - apply appends_bind; [apply appends_pagesLoop | intros pages].
    apply appends_bind; [apply appends_setProcessingState | intros _].
    apply appends_bind; [apply appends_liftW | intros v].
    destruct (valid v).
    + apply appends_bind; [apply appends_setGeneratedPages | intros _].
      apply appends_bind; [apply appends_setProcessingState | intros _].
      exact (appends_pure (Ok true)).
    + apply appends_bind; [apply appends_pure | intros _].
      destruct (Nat.eqb attempts MAX_ATTEMPTS); [| exact (appends_pure (Ok false))].
      apply appends_bind; [apply appends_pure | intros shown].
      exact (appends_pure (Throw _)).
Qed.

Ltac step_ok_in H E := erewrite bind_ok in H by (exact E).
Ltac step_throw_in H E := erewrite bind_throw in H by (exact E).

(** However the page loop ends, it has written the states of the pages it
    started, in order: all [k] of them when it returns, at least one when
    there is a page at all. *)
Lemma pagesLoop_outcome txt hf steps k :
  forall i cur a w,
  exists j w',
    j <= k
    /\ snd (pagesLoop txt hf steps k i cur (mkMachine a w))
       = mkMachine (logged a (generatingStates j i (List.length steps))) w'
    /\ (forall pages,
          fst (pagesLoop txt hf steps k i cur (mkMachine a w)) = Ok pages -> j = k)
    /\ (0 < k -> 0 < j).
Proof.
  induction k as [| k IH]; intros i cur a w.
  - exists 0, w. cbn. rewrite logged_nil.
    repeat split; [apply Nat.le_refl | intros H; exact H].
  - cbn [pagesLoop].
    step_ok (setProcessingState_run (generatingState i (List.length steps)) a w).
    destruct (generateHandwrittenPage txt hf (nth_error steps i) i w)
      as [[url | e] w1] eqn:Hpage.
    + step_ok (@liftW_run _ _ (logged a [generatingState i (List.length steps)])
                 _ _ _ Hpage).
      destruct (IH (S i) (cur ++ [{| imageUrl := url; pageNumber := i + 1 |}])
                  (logged a [generatingState i (List.length steps)]) w1)
        as (j & w' & Hj & Hsnd & Hok & _).
      exists (S j), w'. rewrite Hsnd, logged_logged.
      repeat split.
      * apply le_n_S. exact Hj.
      * intros pages Hp. f_equal. exact (Hok pages Hp).
      * intros _. apply Nat.lt_0_succ.
    + step_throw (@liftW_run _ _ (logged a [generatingState i (List.length steps)])
                    _ _ _ Hpage).
      exists 1, w1. cbn [snd fst generatingStates].
      repeat split.
      * apply le_n_S. apply Nat.le_0_l.
      * intros pages Hp. discriminate Hp.
      * intros _. apply Nat.lt_0_succ.
Qed.

(** An attempt that leaves [success] set has written, in this order, the
    states of Transcribe, Solve, every page, Validate and completion. *)
Lemma tryBlock_success_log txt attempts q h a w m' :
  tryBlock txt attempts q h (mkMachine a w) = (Ok true, m') ->
  exists T,
    0 < T
    /\ stateLog (component m')
       = stateLog a ++ attemptStates attempts T ++ [completedState].
Proof.
  intros H. unfold tryBlock in H.
  step_ok_in H (setProcessingState_run (analyzingState attempts) a w).
  destruct (transcribeMathProblem (file q) w) as [[t | e] w1] eqn:Ht.
  2:{ step_throw_in H (@liftW_run _ _ (logged a [analyzingState attempts])
                         _ _ _ Ht).
      discriminate H. }
  step_ok_in H (@liftW_run _ _ (logged a [analyzingState attempts]) _ _ _ Ht).
  step_ok_in H (setProcessingState_run solvingState
                  (logged a [analyzingState attempts]) w1).
  rewrite logged_logged in H.
  destruct (solveMathProblem t w1) as [[steps | e] w2] eqn:Hs.
  2:{ step_throw_in H (@liftW_run _ _
                         (logged a ([analyzingState attempts] ++ [solvingState]))
                         _ _ _ Hs).
      discriminate H. }
  step_ok_in H (@liftW_run _ _
                  (logged a ([analyzingState attempts] ++ [solvingState]))
                  _ _ _ Hs).
  destruct steps as [| s0 steps'].
  { cbn [List.length Nat.eqb] in H.
    destruct (Nat.eqb attempts MAX_ATTEMPTS); discriminate H. }
  cbn [List.length Nat.eqb] in H.
  unfold generatePages in H.
  destruct (pagesLoop_outcome txt (file h) (s0 :: steps')
              (List.length (s0 :: steps')) 0 []
              (logged a ([analyzingState attempts] ++ [solvingState])) w2)
    as (j & w3 & _ & Hsnd & Hok & _).
  cbn [List.length] in Hsnd, Hok.
  destruct (pagesLoop txt (file h) (s0 :: steps') (S (List.length steps')) 0 []
              {| component := logged a ([analyzingState attempts] ++ [solvingState]);
                 world := w2 |})
    as [[pages | e] m3] eqn:Hp.
  2:{ step_throw_in H Hp. discriminate H. }
  step_ok_in H Hp.
  cbn [snd fst] in Hsnd, Hok. subst m3.
  rewrite (Hok pages eq_refl) in H. rewrite logged_logged in H.
  step_ok_in H (setProcessingState_run validatingState
                  (logged a (([analyzingState attempts] ++ [solvingState]) ++
                             generatingStates (S (List.length steps')) 0
                               (S (List.length steps')))) w3).
  rewrite logged_logged in H.
  destruct (validateSolution txt (file q) (map imageUrl pages) w3)
    as [[v | e] w4] eqn:Hv.
  2:{ step_throw_in H (@liftW_run _ _
                         (logged a ((([analyzingState attempts] ++ [solvingState]) ++
                             generatingStates (S (List.length steps')) 0
                               (S (List.length steps'))) ++ [validatingState]))
                         _ _ _ Hv).
      discriminate H. }
  step_ok_in H (@liftW_run _ _
                  (logged a ((([analyzingState attempts] ++ [solvingState]) ++
                      generatingStates (S (List.length steps')) 0
                        (S (List.length steps'))) ++ [validatingState]))
                  _ _ _ Hv).
  destruct (valid v).
  - cbn in H. injection H as <-.
    exists (S (List.length steps')). split; [apply Nat.lt_0_succ |].
    unfold attemptStates.
    repeat (cbn; rewrite <- ?app_assoc). reflexivity.
  - unfold bind, liftResult, ret, throw in H.
    destruct (toString (reason v)); [| discriminate H].
    destruct (Nat.eqb attempts MAX_ATTEMPTS); [| discriminate H].
    destruct (toString _); discriminate H.
Qed.

Lemma attemptStates_progress attempts T :
  map progress (attemptStates attempts T ++ [completedState]) = successProgress T.
Proof.
  unfold attemptStates, successProgress.
  rewrite !map_app, generatingStates_progress, <- !app_assoc. reflexivity.
Qed.

(** C8.  Every attempt begins by writing the Analyzing state, whose
    progress is 10, whatever was shown before.  An attempt that succeeds
    has written exactly the progress values 10, 30, 40 + (i/T)*40 for
    i = 0..T-1, 90, 100, the formula being computed in binary64 as the
    source computes it, and this sequence never goes down: rounding keeps
    the order ([round_mono]). *)
Theorem progress_resets_then_never_decreases :
  forall (txt : ServiceText) (attempts : nat) (q h : UploadedFile) (m : Machine),
    (exists rest,
       stateLog (component (snd (tryBlock txt attempts q h m)))
       = stateLog (component m) ++ analyzingState attempts :: rest)
    /\ progress (analyzingState attempts) = 10%Q
    /\ (fst (tryBlock txt attempts q h m) = Ok true ->
        exists T written,
          0 < T
          /\ stateLog (component (snd (tryBlock txt attempts q h m)))
             = stateLog (component m) ++ written
          /\ map progress written = successProgress T
          /\ nondecreasing (map progress written)).
Proof.
  intros txt attempts q h m. split; [| split; [reflexivity |]].
  - unfold tryBlock.
    destruct (@appends_tryBlock_rest txt attempts q h
                (snd (setProcessingState (analyzingState attempts) m)))
      as (rest & Hrest).
    exists rest. unfold bind at 1. cbn [setProcessingState updApp].
    cbn [snd setProcessingState updApp component stateLog] in Hrest.
    rewrite Hrest, <- app_assoc. reflexivity.
  - intros Hok. destruct m as [a w].
    destruct (tryBlock txt attempts q h (mkMachine a w)) as [r m'] eqn:Htry.
    cbn [fst] in Hok. subst r.
    destruct (@tryBlock_success_log txt attempts q h a w m' Htry) as (T & HT & Hlog).
    exists T, (attemptStates attempts T ++ [completedState]).
    rewrite attemptStates_progress.
    split; [exact HT |]. split; [exact Hlog |].
    split; [reflexivity | apply successProgress_nondecreasing].
Qed.

Lemma progress_witness :
  let m := Sample.start Sample.apiKey
             [Sample.says (js "x+1=2");
              Sample.says (Sample.arrayOf ["p1"; "p2"; "p3"]%string);
              Sample.draws "A"; Sample.draws "B"; Sample.draws "C";
              Sample.says (Sample.verdictText true "ok")] in
  exists T written,
    0 < T
    /\ stateLog (component (snd (tryBlock copyA 1 Sample.question
                                    Sample.handwriting m)))
       = stateLog (component m) ++ written
    /\ map progress written = successProgress T
    /\ nondecreasing (map progress written).
Proof.
  cbv zeta.
  apply (proj2 (proj2 (@progress_resets_then_never_decreases copyA 1
                         Sample.question Sample.handwriting
                         (Sample.start Sample.apiKey
                            [Sample.says (js "x+1=2");
                             Sample.says (Sample.arrayOf ["p1"; "p2"; "p3"]%string);
                             Sample.draws "A"; Sample.draws "B"; Sample.draws "C";
                             Sample.says (Sample.verdictText true "ok")])))).
  reflexivity.
Defined.

Example pageProgress_of_four :
  (pageProgress 0 4 == 40 /\ pageProgress 1 4 == 50
   /\ pageProgress 2 4 == 60 /\ pageProgress 3 4 == 70)%Q.
Proof. repeat split. Qed.

(** With three pages the quotient rounds: the second and third values are
    the binary64 numbers that print as 53.33333333333333 and
    66.66666666666666, not 160/3 and 200/3. *)
Example pageProgress_of_three :
  map Qred (successProgress 3)
  = [10; 30; 40; 3752999689475413 # 70368744177664;
     2345624805922133 # 35184372088832; 90; 100]%Q
  /\ ~ (pageProgress 1 3 == 160 # 3)%Q
  /\ (pageProgress 1 3 < 160 # 3)%Q.
Proof.
  split; [vm_compute; reflexivity |].
  split; [intros H; vm_compute in H; discriminate H | vm_compute; reflexivity].
Qed.

(** C9.  For a solution of four pages the page loop writes, in order, the
    progress values 40, 50, 60, 70, all in the GeneratingPages state: all
    four when the loop completes, and the first of them up to the page
    whose rendering throws otherwise.  These are the values of exact
    rational arithmetic: with four pages no operation of the formula
    rounds (see [pageProgress_of_four]). *)
Theorem four_pages_progress :
  forall (txt : ServiceText) (hf : File) (steps : list Json) (m : Machine),
    List.length steps = 4 ->
    exists j written,
      stateLog (component (snd (generatePages txt hf steps m)))
      = stateLog (component m) ++ written
      /\ Forall (fun s => step_ s = GENERATING_PAGES) written
      /\ 1 <= j <= 4
      /\ Forall2 Qeq (map progress written) (firstn j [40; 50; 60; 70]%Q)
      /\ (forall pages, fst (generatePages txt hf steps m) = Ok pages -> j = 4).
Proof.
  intros txt hf steps [a w] Hlen. unfold generatePages. rewrite Hlen.
  destruct (pagesLoop_outcome txt hf steps 4 0 [] a w)
    as (j & w' & Hj & Hsnd & Hok & Hpos).
  rewrite Hsnd, Hlen. exists j, (generatingStates j 0 4).
  split; [reflexivity |].
  assert (Hcases : j = 1 \/ j = 2 \/ j = 3 \/ j = 4).
  { specialize (Hpos ltac:(lia)). lia. }
  split; [| split; [lia | split; [| exact Hok]]].
  - destruct Hcases as [-> | [-> | [-> | ->]]]; repeat constructor.
  - destruct Hcases as [-> | [-> | [-> | ->]]]; repeat constructor.
Qed.

Lemma four_pages_witness :
  let m := Sample.start Sample.apiKey
             [Sample.draws "A"; Sample.draws "B"; Sample.draws "C";
              Sample.draws "D"] in
  let steps := [JString (js "p1"); JString (js "p2"); JString (js "p3");
                JString (js "p4")] in
  exists j written,
    stateLog (component (snd (generatePages copyA (file Sample.handwriting) steps m)))
    = stateLog (component m) ++ written
    /\ Forall (fun s => step_ s = GENERATING_PAGES) written
    /\ 1 <= j <= 4
    /\ Forall2 Qeq (map progress written) (firstn j [40; 50; 60; 70]%Q)
    /\ (forall pages,
          fst (generatePages copyA (file Sample.handwriting) steps m) = Ok pages ->
          j = 4).
Proof.
  cbv zeta.
  apply (@four_pages_progress copyA (file Sample.handwriting)
           [JString (js "p1"); JString (js "p2"); JString (js "p3");
            JString (js "p4")]
           (Sample.start Sample.apiKey
              [Sample.draws "A"; Sample.draws "B"; Sample.draws "C";
               Sample.draws "D"])).
  reflexivity.
Defined.

Example four_pages_run :
  map (fun s => Qred (progress s))
    (stateLog (component (snd (generatePages copyA (file Sample.handwriting)
       [JString (js "p1"); JString (js "p2"); JString (js "p3"); JString (js "p4")]
       (Sample.start Sample.apiKey
          [Sample.draws "A"; Sample.draws "B"; Sample.draws "C";
           Sample.draws "D"])))))
  = [40; 50; 60; 70]%Q.
Proof. reflexivity. Qed.

(** An overloaded backend is no denial: Transcribe answers, the primary
    call of Solve fails three times, no fallback call is made and the run
    ends as a system failure after three attempts. *)
Example overloaded_solve_is_retried :
  exists r,
    handleProcess copyA
      (Sample.start Sample.apiKey
         [Sample.says (js "x+1=2"); Fails Sample.overloaded;
          Sample.says (js "x+1=2"); Fails Sample.overloaded;
          Sample.says (js "x+1=2"); Fails Sample.overloaded]) = Some r
    /\ attemptsUsed r = 3
    /\ succeeded r = false
    /\ processingState (component (final r))
       = failureState (js "got status: 503 Service Unavailable")
    /\ List.length (calls (world (final r))) = 6.
Proof. eexists. split; [vm_compute; reflexivity |]. repeat split. Qed.

(* ================================================================== *)
(** * Further properties of the service *)
(* ================================================================== *)

(** ** Substrings *)

Lemma startsWith_iff p s :
  startsWith p s = true <-> exists rest, s = p ++ rest.
Proof.
  revert s. induction p as [| x p IH]; intros s; cbn [startsWith].
  - split; [intros _; exists s; reflexivity | reflexivity].
  - destruct s as [| y s].
    + split; [discriminate | intros (rest & H); discriminate H].
    + rewrite andb_true_iff, N.eqb_eq, IH. split.
      * intros (-> & rest & ->). exists rest. reflexivity.
      * intros (rest & H). injection H as -> ->. split; [reflexivity |].
        exists rest. reflexivity.
Qed.

Lemma includes_iff p s :
  includes p s = true <-> exists before rest, s = before ++ p ++ rest.
Proof.
  induction s as [| y s IH].
  - cbn [includes]. rewrite orb_false_r, startsWith_iff. split.
    + intros (rest & H). exists [], rest. exact H.
    + intros (before & rest & H). destruct before; [exists rest; exact H |].
      discriminate H.
  - cbn [includes]. rewrite orb_true_iff, startsWith_iff, IH. split.
    + intros [(rest & H) | (before & rest & ->)].
      * exists [], rest. exact H.
      * exists (y :: before), rest. reflexivity.
    + intros (before & rest & H). destruct before as [| b before].
      * left. exists rest. exact H.
      * right. injection H as _ ->. exists before, rest. reflexivity.
Qed.

Lemma includes_trans q p s :
  includes q p = true -> includes p s = true -> includes q s = true.
Proof.
  rewrite !includes_iff.
  intros (b1 & r1 & ->) (b2 & r2 & ->).
  exists (b2 ++ b1), (r1 ++ r2). rewrite <- !app_assoc. reflexivity.
Qed.

(** ** The two tests for a denial *)

(** X1.  The service's test [isPermissionError] and the test in the
    [catch] clause of [handleProcess] agree except in two cases: a message
    that holds "PERMISSION_DENIED" passes only the first, a message that
    holds "permission" passes only the second. *)
Theorem denial_tests_compared :
  forall e : JsError,
    (isPermissionError e = true ->
     deniedInCatch e = true
     \/ includes (js "PERMISSION_DENIED") (message e) = true)
    /\ (deniedInCatch e = true ->
        isPermissionError e = true
        \/ includes (js "permission") (message e) = true).
Proof.
  intros e. unfold isPermissionError, deniedInCatch. split; intros H.
  - repeat (apply orb_true_iff in H; destruct H as [H | H]).
    + left. rewrite H, !orb_true_r. reflexivity.
    + right. exact H.
    + left.
      rewrite (@includes_trans (js "permission")
                 (js "The caller does not have permission") (message e)
                 eq_refl H).
      rewrite !orb_true_r. reflexivity.
    + left. rewrite H. reflexivity.
    + left. rewrite H, !orb_true_r. reflexivity.
  - repeat (apply orb_true_iff in H; destruct H as [H | H]).
    + left. rewrite H, !orb_true_r. reflexivity.
    + left. rewrite H, !orb_true_r. reflexivity.
    + left. rewrite H. reflexivity.
    + right. exact H.
Qed.

Lemma denial_tests_witness :
  deniedInCatch (mkError (js "The caller does not have permission") (js "{}")) = true
  \/ includes (js "PERMISSION_DENIED")
       (message (mkError (js "The caller does not have permission") (js "{}"))) = true.
Proof.
  apply (proj1 (denial_tests_compared
                  (mkError (js "The caller does not have permission") (js "{}")))).
  reflexivity.
Defined.

(** ** What a stage does to the service *)

Lemma extended_nil w : extended w [] = w.
Proof. destruct w. unfold extended. cbn. rewrite app_nil_r. reflexivity. Qed.

Lemma extended_extended w a b : extended (extended w a) b = extended w (a ++ b).
Proof. unfold extended. cbn. rewrite app_assoc. reflexivity. Qed.

Lemma Spends_none k w : Spends k w w.
Proof.
  exists []. rewrite extended_nil.
  split; [reflexivity | split; [apply Nat.le_0_l | constructor]].
Qed.

Lemma Spends_one k w req :
  In (model req) knownModels -> Spends (S k) w (called w req).
Proof.
  intros H. exists [req].
  split; [reflexivity |].
  split; [apply le_n_S, Nat.le_0_l | constructor; [exact H | constructor]].
Qed.

Lemma Spends_two k w req1 req2 :
  In (model req1) knownModels -> In (model req2) knownModels ->
  Spends (S (S k)) w (called (called w req1) req2).
Proof.
  intros H1 H2. exists [req1; req2].
  split; [unfold called, extended; cbn; rewrite <- app_assoc; reflexivity |].
  split; [apply le_n_S, le_n_S, Nat.le_0_l |].
  constructor; [exact H1 | constructor; [exact H2 | constructor]].
Qed.

Lemma stages_spend :
  forall (txt : ServiceText) (w : World),
    (forall f, Spends 1 w (snd (transcribeMathProblem f w)))
    /\ (forall t, Spends 2 w (snd (solveMathProblem t w)))
    /\ (forall ref step i, Spends 2 w (snd (generateHandwrittenPage txt ref step i w)))
    /\ (forall q urls, Spends 1 w (snd (validateSolution txt q urls w))).
Proof.
  intros txt w. repeat split.
  - intros f.
    unfold transcribeMathProblem, bind, getAiClient, fileToGenerativePart,
      generateContent.
    destruct (isSet _); [| apply Spends_none].
    destruct (dataUrl f); cbn [ret throw snd]; [| apply Spends_none].
    destruct (answer w _); cbn [snd ret];
      apply Spends_one; cbn; tauto.
  - intros t.
    unfold solveMathProblem, bind, tryCatch, getAiClient, generateContent.
    destruct (isSet _); [| apply Spends_none].
    destruct (answer w _) as [r | e]; cbn [ret snd].
    + apply Spends_one; cbn; tauto.
    + destruct (isPermissionError e); cbn [throw snd].
      * destruct (answer _ _); cbn [snd ret];
          apply Spends_two; cbn; tauto.
      * apply (@Spends_one 1); cbn; tauto.
  - intros ref step i.
    unfold generateHandwrittenPage, bind, tryCatch, getAiClient,
      fileToGenerativePart, generateContent, liftResult.
    destruct (isSet _); [| apply Spends_none].
    destruct (dataUrl ref); cbn [ret throw snd]; [| apply Spends_none].
    destruct (cleanTextForHandwriting step) as [clean | e0]; [| apply Spends_none].
    destruct (answer w _) as [r | e]; cbn [snd].
    + destruct (extractImage (parts r)) as [img | e] eqn:He.
      * apply (@Spends_one 1); cbn; tauto.
      * rewrite (@extractImage_error_not_permission (parts r) e He). cbn [throw snd].
        apply (@Spends_one 1); cbn; tauto.
    + destruct (isPermissionError e); cbn [throw snd].
      * destruct (answer _ _) as [r2 | e2]; cbn [snd];
          [destruct (extractImage (parts r2)) |]; cbn [snd];
          apply Spends_two; cbn; tauto.
      * apply (@Spends_one 1); cbn; tauto.
  - intros q urls.
    unfold validateSolution, bind, tryCatch, getAiClient, fileToGenerativePart,
      generateContent.
    destruct (isSet _); [| apply Spends_none].
    destruct (dataUrl q); cbn [ret throw snd]; [| apply Spends_none].
    destruct (answer w _) as [r | e]; cbn [ret snd].
    + destruct (parse _) as [json |]; cbn [liftResult throw ret snd].
      * destruct (readVerdict json); cbn [snd]; apply Spends_one; cbn; tauto.
      * apply Spends_one; cbn; tauto.
    + apply Spends_one; cbn; tauto.
Qed.

(** X2.  Whatever the backend answers, Transcribe and Validate make at
    most one call and Solve and RenderPage at most two, always to one of
    the four known models; no stage changes the API keys or the backend,
    and none removes a call from the record. *)
Theorem stages_spend_bounded_calls :
  forall (txt : ServiceText) (w : World),
    (forall f, Spends 1 w (snd (transcribeMathProblem f w)))
    /\ (forall t, Spends 2 w (snd (solveMathProblem t w)))
    /\ (forall ref step i, Spends 2 w (snd (generateHandwrittenPage txt ref step i w)))
    /\ (forall q urls, Spends 1 w (snd (validateSolution txt q urls w))).
Proof. exact stages_spend. Qed.

(** ** Without an API key *)

Section MissingKey.

Variable txt : ServiceText.
Variable w : World.
Hypothesis Hnone : isSet (orKey (manualApiKey w) (envApiKey w)) = false.

Lemma getAiClient_missing : getAiClient w = (Throw missingKey, w).
Proof. unfold getAiClient. rewrite Hnone. reflexivity. Qed.

Lemma transcribe_missing f :
  transcribeMathProblem f w = (Throw missingKey, w).
Proof. unfold transcribeMathProblem. step_throw getAiClient_missing. reflexivity. Qed.

Lemma solve_missing t : solveMathProblem t w = (Throw missingKey, w).
Proof. unfold solveMathProblem. step_throw getAiClient_missing. reflexivity. Qed.

Lemma page_missing ref step i :
  generateHandwrittenPage txt ref step i w = (Throw missingKey, w).
Proof. unfold generateHandwrittenPage. step_throw getAiClient_missing. reflexivity. Qed.

Lemma validate_missing q urls :
  validateSolution txt q urls w = (Throw missingKey, w).
Proof. unfold validateSolution. step_throw getAiClient_missing. reflexivity. Qed.

Lemma tryBlock_missing attempts q h a :
  tryBlock txt attempts q h (mkMachine a w)
  = (Throw missingKey, mkMachine (logged a [analyzingState attempts]) w).
Proof.
  unfold tryBlock.
  step_ok (setProcessingState_run (analyzingState attempts) a w).
  step_throw (@liftW_run _ _ (logged a [analyzingState attempts]) _ _ _
                (transcribe_missing (file q))).
  reflexivity.
Qed.

End MissingKey.

(** X3.  Without any API key (none typed in, none in the environment)
    every stage throws "API Key not found. Please select a project or
    enter a key." before it calls the backend; a run then uses all three
    attempts, makes no call at all, and ends with the state ERROR,
    "SYSTEM FAILURE: API Key not found. ...", still counting the key as
    selected. *)
Theorem run_without_key_fails_without_calls :
  forall (txt : ServiceText) (m : Machine) (q h : UploadedFile),
    questionImage (component m) = Some q ->
    handwritingImage (component m) = Some h ->
    isSet (orKey (manualApiKey (world m)) (envApiKey (world m))) = false ->
    (forall f, transcribeMathProblem f (world m) = (Throw missingKey, world m))
    /\ (forall t, solveMathProblem t (world m) = (Throw missingKey, world m))
    /\ (forall ref step i,
          generateHandwrittenPage txt ref step i (world m)
          = (Throw missingKey, world m))
    /\ (forall f urls,
          validateSolution txt f urls (world m) = (Throw missingKey, world m))
    /\ exists r,
         handleProcess txt m = Some r
         /\ attemptsUsed r = 3
         /\ succeeded r = false
         /\ processingState (component (final r))
            = failureState
                (js "API Key not found. Please select a project or enter a key.")
         /\ stateLog (component (final r))
            = stateLog (component m)
              ++ [analyzingState 1; analyzingState 2; analyzingState 3;
                  failureState
                    (js "API Key not found. Please select a project or enter a key.")]
         /\ isKeySelected (component (final r)) = isKeySelected (component m)
         /\ world (final r) = world m.
Proof.
  intros txt [a w] q h Hq Hh Hnone. cbn in Hq, Hh, Hnone. cbn [world component].
  split; [intros f; apply transcribe_missing; exact Hnone |].
  split; [intros t; apply solve_missing; exact Hnone |].
  split; [intros ref step i; apply page_missing; exact Hnone |].
  split; [intros f urls; apply validate_missing; exact Hnone |].
  rewrite (@handleProcess_start txt a w q h Hq Hh).
  rewrite (@attemptLoop_retry txt q h 2 0 _ _ _ eq_refl ltac:(discriminate)
             (@tryBlock_missing txt w Hnone 1 q h _)
             (or_intror (ex_intro _ missingKey (conj eq_refl eq_refl)))).
  rewrite (@attemptLoop_retry txt q h 1 1 _ _ _ eq_refl ltac:(discriminate)
             (@tryBlock_missing txt w Hnone 2 q h _)
             (or_intror (ex_intro _ missingKey (conj eq_refl eq_refl)))).
  rewrite (@attemptLoop_last_failure txt q h 0 2 _ _ _ eq_refl
             (@tryBlock_missing txt w Hnone 3 q h _) eq_refl).
  eexists. split; [reflexivity |].
  cbn [attemptsUsed succeeded final component generatedPages published logged
       processingState last pagesLog stateLog world stateAfter snd
       setProcessingState updApp message newError missingKey isKeySelected].
  rewrite <- !app_assoc.
  repeat split; reflexivity.
Qed.

Lemma run_without_key_witness :
  exists r,
    handleProcess copyA (Sample.start None []) = Some r
    /\ attemptsUsed r = 3
    /\ succeeded r = false
    /\ List.length (calls (world (final r))) = 0.
Proof.
  destruct (@run_without_key_fails_without_calls copyA (Sample.start None [])
              Sample.question Sample.handwriting eq_refl eq_refl eq_refl)
    as (_ & _ & _ & _ & r & Hr & Hn & Hs & _ & _ & _ & Hw).
  exists r. rewrite Hw. repeat split; assumption.
Defined.

(** ** Entering a key by hand *)

Lemma trimStart_all_space s :
  Forall (fun c => isWhiteSpace c = true) s -> trimStart s = [].
Proof.
  induction 1 as [| c s Hc _ IH]; [reflexivity |].
  cbn [trimStart]. rewrite Hc. exact IH.
Qed.

Lemma trim_all_space s :
  Forall (fun c => isWhiteSpace c = true) s -> trim s = [].
Proof.
  intros H. unfold trim. rewrite (trimStart_all_space H). reflexivity.
Qed.

(** X4.  Submitting the key form stores the trimmed key and marks the key
    as selected, after which the service can make a client, whenever the
    trimmed text is not empty; a text of white space only changes
    nothing. *)
Theorem manual_key_is_trimmed_or_ignored :
  forall (manualKey : jsstring) (m : Machine),
    (trim manualKey <> [] ->
     manualApiKey (world (snd (handleManualKeySubmit manualKey m)))
     = Some (trim manualKey)
     /\ isKeySelected (component (snd (handleManualKeySubmit manualKey m))) = true
     /\ getAiClient (world (snd (handleManualKeySubmit manualKey m)))
        = (Ok tt, world (snd (handleManualKeySubmit manualKey m))))
    /\ (Forall (fun c => isWhiteSpace c = true) manualKey ->
        snd (handleManualKeySubmit manualKey m) = m).
Proof.
  intros manualKey m. unfold handleManualKeySubmit. split.
  - intros Hne. destruct (trim manualKey) as [| c k]; [contradiction Hne; reflexivity |].
    repeat split.
  - intros Hws. rewrite (trim_all_space Hws). reflexivity.
Qed.

Lemma manual_key_witness :
  manualApiKey (world (snd (handleManualKeySubmit (js "  AIza-key ")
                              (Sample.start None []))))
  = Some (trim (js "  AIza-key "))
  /\ snd (handleManualKeySubmit (js "   ") (Sample.start None []))
     = Sample.start None [].
Proof.
  split.
  - apply (proj1 (manual_key_is_trimmed_or_ignored (js "  AIza-key ")
                    (Sample.start None []))).
    discriminate.
  - apply (proj2 (manual_key_is_trimmed_or_ignored (js "   ")
                    (Sample.start None []))).
    repeat constructor.
Defined.

(** ** Validate fails open *)

Lemma orElse_truthy r d : truthy (Some d) = true -> truthy (Some (orElse r d)) = true.
Proof.
  intros Hd. unfold orElse. destruct r as [v |]; [| exact Hd].
  destruct (truthy (Some v)) eqn:Hv; [exact Hv | exact Hd].
Qed.

Lemma readVerdict_reason json v :
  readVerdict json = Ok v -> truthy (Some (reason v)) = true.
Proof.
  unfold readVerdict.
  destruct (getField json "valid"); [| discriminate].
  destruct (getField json "reason") as [r |]; [| discriminate].
  intros H. injection H as <-. cbn [reason]. apply orElse_truthy. reflexivity.
Qed.

Lemma readVerdict_invalid json v :
  readVerdict json = Ok v -> valid v = false ->
  getField json "valid" <> Ok (Some (JBool true)).
Proof.
  unfold readVerdict. intros H Hv Hfield. rewrite Hfield in H.
  destruct (getField json "reason"); [| discriminate].
  injection H as <-. discriminate Hv.
Qed.

(** X5.  With a key and a readable question file, Validate never throws:
    it makes its one call and returns a verdict whatever comes back.  The
    verdict is negative only when the response carries text that parses
    as JSON whose [valid] entry is not the boolean [true]; every failure
    (a failed call, unparsable text, [null]) gives [valid = true].  The
    reason is never empty, so the orchestrator's default "Output
    illegible" is never used. *)
Theorem validate_fails_open :
  forall (txt : ServiceText) (q : File) (url : jsstring) (urls : list jsstring)
         (w : World),
    txt = copyA \/ txt = copyB ->
    hasApiKey w ->
    dataUrl q = Some url ->
    exists v,
      validateSolution txt q urls w
      = (Ok v, called w (validateRequest q (secondField url) urls))
      /\ truthy (Some (reason v)) = true
      /\ orElse (Some (reason v)) (JString (js "Output illegible")) = reason v
      /\ (valid v = false ->
          exists r json,
            answer w (validateRequest q (secondField url) urls) = Responds r
            /\ parse (stripFences (orText (text r) (js "{}"))) = Some json
            /\ getField json "valid" <> Ok (Some (JBool true))).
Proof.
  intros txt q url urls w Htxt Hkey Hurl.
  assert (Hbypass : truthy (Some (JString (bypassReason txt))) = true).
  { destruct Htxt as [-> | ->]; reflexivity. }
  assert (Hor : forall v, truthy (Some (reason v)) = true ->
                  orElse (Some (reason v)) (JString (js "Output illegible"))
                  = reason v).
  { intros v Hv. unfold orElse. rewrite Hv. reflexivity. }
  unfold validateSolution.
  step_ok (getAiClient_ok Hkey).
  step_ok (fileToGenerativePart_ok q w Hurl).
  unfold tryCatch, bind, generateContent.
  destruct (answer w (validateRequest q (secondField url) urls)) as [r | e] eqn:Ha.
  - destruct (parse (stripFences (orText (text r) (js "{}")))) as [json |] eqn:Hp.
    + unfold liftResult.
      destruct (readVerdict json) as [v | e] eqn:Hv.
      * exists v. split; [reflexivity |].
        pose proof (readVerdict_reason json Hv) as Ht.
        split; [exact Ht | split; [exact (Hor v Ht) |]].
        intros Hinv. exists r, json.
        split; [reflexivity | split; [exact Hp |]].
        exact (readVerdict_invalid json Hv Hinv).
      * eexists. split; [reflexivity |].
        split; [exact Hbypass | split; [apply Hor; exact Hbypass | discriminate]].
    + eexists. split; [reflexivity |].
      split; [exact Hbypass | split; [apply Hor; exact Hbypass | discriminate]].
  - eexists. split; [reflexivity |].
    split; [exact Hbypass | split; [apply Hor; exact Hbypass | discriminate]].
Qed.

Lemma validate_fails_open_witness :
  exists v,
    validateSolution copyA (file Sample.question) []
      (world (Sample.start Sample.apiKey [Fails Sample.overloaded]))
    = (Ok v,
       called (world (Sample.start Sample.apiKey [Fails Sample.overloaded]))
         (validateRequest (file Sample.question)
            (secondField (js "data:image/jpeg;base64,UVVFU1Q=")) []))
    /\ truthy (Some (reason v)) = true.
Proof.
  destruct (@validate_fails_open copyA (file Sample.question)
              (js "data:image/jpeg;base64,UVVFU1Q=") []
              (world (Sample.start Sample.apiKey [Fails Sample.overloaded]))
              (or_introl eq_refl) eq_refl eq_refl)
    as (v & Hv & Ht & _).
  exists v. split; assumption.
Defined.

(** ** When Solve returns nothing *)

Lemma parseSolutionResponse_empty r :
  parseSolutionResponse r = [] ->
  parse (stripFences (orText (text r) (js "[]"))) = Some (JArray []).
Proof.
  unfold parseSolutionResponse.
  destruct (parse _) as [v |]; [| discriminate].
  destruct v; try discriminate. intros ->. reflexivity.
Qed.

(** X6.  Solve returns the empty list, which makes the orchestrator retry,
    only when the tier that answered (the primary one, or the fallback
    after a permission failure of the primary) sent no text at all or a
    text that, fences stripped, is a JSON array without elements. *)
Theorem solve_empty_only_for_empty_array :
  forall (problemText : jsstring) (w w' : World),
    solveMathProblem problemText w = (Ok [], w') ->
    exists r,
      (answer w (solvePrimary problemText) = Responds r
       \/ (exists e,
             answer w (solvePrimary problemText) = Fails e
             /\ isPermissionError e = true
             /\ answer (called w (solvePrimary problemText))
                  (solveFallback problemText) = Responds r))
      /\ parse (stripFences (orText (text r) (js "[]"))) = Some (JArray []).
Proof.
  intros problemText w w'.
  unfold solveMathProblem, bind, tryCatch, getAiClient, generateContent.
  destruct (isSet _); [| discriminate].
  destruct (answer w (solvePrimary problemText)) as [r | e] eqn:Ha; cbn [ret].
  - intros H. injection H as H _. exists r.
    split; [left; reflexivity | exact (parseSolutionResponse_empty r H)].
  - destruct (isPermissionError e) eqn:Hperm; cbn [throw]; [| discriminate].
    destruct (answer _ (solveFallback problemText)) as [r | e2] eqn:Hb;
      [| discriminate].
    intros H. injection H as H _. exists r.
    split; [| exact (parseSolutionResponse_empty r H)].
    right. exists e. split; [reflexivity | split; [exact Hperm | reflexivity]].
Qed.

Lemma solve_empty_witness :
  exists r,
    (answer (world (Sample.start Sample.apiKey [Sample.says (js " [ ] ")]))
       (solvePrimary (js "x")) = Responds r
     \/ (exists e,
           answer (world (Sample.start Sample.apiKey [Sample.says (js " [ ] ")]))
             (solvePrimary (js "x")) = Fails e
           /\ isPermissionError e = true
           /\ answer (called (world (Sample.start Sample.apiKey
                                       [Sample.says (js " [ ] ")]))
                        (solvePrimary (js "x")))
                (solveFallback (js "x")) = Responds r))
    /\ parse (stripFences (orText (text r) (js "[]"))) = Some (JArray []).
Proof.
  eapply (@solve_empty_only_for_empty_array (js "x")
            (world (Sample.start Sample.apiKey [Sample.says (js " [ ] ")]))).
  reflexivity.
Defined.

(** ** From RenderPage's image to Validate's request *)

Lemma splitComma_lacks acc d :
  lacks 44 d -> splitComma acc d = [rev acc ++ d].
Proof.
  intros H. revert acc. induction H as [| c d Hc _ IH]; intros acc; cbn [splitComma].
  - rewrite app_nil_r. reflexivity.
  - apply N.eqb_neq in Hc. rewrite Hc, IH. cbn [rev].
    rewrite <- app_assoc. reflexivity.
Qed.

(** X7.  The URL that RenderPage returns is "data:image/png;base64,"
    followed by the data of the first inline part of the response; when
    that data holds no comma (base64 never does), the part Validate sends
    back for this URL carries exactly that data. *)
Theorem page_image_reaches_validate :
  forall (ps : list ResponsePart) (url : jsstring),
    extractImage ps = Ok url ->
    exists before p after d,
      ps = before ++ p :: after
      /\ Forall (fun x => inlineData x = None) before
      /\ inlineData p = Some d
      /\ url = js "data:image/png;base64," ++ undefinedText d
      /\ (lacks 44 (undefinedText d) -> secondField url = Some (undefinedText d)).
Proof.
  induction ps as [| p ps IH]; intros url; cbn [extractImage]; [discriminate |].
  destruct (inlineData p) as [d |] eqn:Hp.
  - intros H. injection H as <-. exists [], p, ps, d.
    repeat split; [constructor | exact Hp |].
    intros Hl. unfold secondField. cbn.
    rewrite (splitComma_lacks [] Hl). reflexivity.
  - intros H. destruct (IH url H) as (before & p' & after & d & -> & Hb & Hp' & Hu & Hs).
    exists (p :: before), p', after, d.
    repeat split; [constructor; assumption | exact Hp' | exact Hu | exact Hs].
Qed.

Lemma page_image_witness :
  exists before p after d,
    [mkPart None; mkPart (Some (Some (js "QUJD")))] = before ++ p :: after
    /\ Forall (fun x => inlineData x = None) before
    /\ inlineData p = Some d
    /\ js "data:image/png;base64,QUJD" = js "data:image/png;base64," ++ undefinedText d
    /\ (lacks 44 (undefinedText d) ->
        secondField (js "data:image/png;base64,QUJD") = Some (undefinedText d)).
Proof.
  apply (@page_image_reaches_validate
           [mkPart None; mkPart (Some (Some (js "QUJD")))]
           (js "data:image/png;base64,QUJD")).
  reflexivity.
Defined.

(** ** The PDF *)

Lemma placeImages_later rejects n images doc :
  Forall (fun img => rejects img = None) images ->
  exists doc',
    placeImages rejects (S n) images doc = Ok doc'
    /\ pagesOf doc' = pagesOf doc ++ map (fun img => [img]) images.
Proof.
  revert n doc. induction images as [| img rest IH]; intros n doc Hall;
    cbn [placeImages map].
  - exists doc. rewrite app_nil_r. split; reflexivity.
  - inversion Hall as [| ? ? Himg Hrest]; subst.
    unfold addImage. rewrite Himg.
    destruct (IH (S n) (mkPdf (earlier (addPage doc)) (current (addPage doc) ++ [img]))
                Hrest) as (doc' & Hrun & Hpages).
    exists doc'. split; [exact Hrun |].
    rewrite Hpages. unfold pagesOf, addPage. cbn.
    rewrite <- app_assoc. reflexivity.
Qed.

Lemma generatePDF_accepted rejects images :
  images <> [] ->
  Forall (fun img => rejects img = None) images ->
  exists doc,
    generatePDF rejects images = Ok doc
    /\ pagesOf doc = map (fun img => [img]) images.
Proof.
  intros Hne Hall. destruct images as [| img rest]; [contradiction Hne; reflexivity |].
  inversion Hall as [| ? ? Himg Hrest]; subst.
  unfold generatePDF. cbn [placeImages Nat.ltb Nat.leb]. unfold addImage.
  rewrite Himg.
  destruct (@placeImages_later rejects 0 rest
              (mkPdf (earlier newPdf) (current newPdf ++ [img])) Hrest)
    as (doc & Hrun & Hpages).
  exists doc. split; [exact Hrun |]. rewrite Hpages. reflexivity.
Qed.

Lemma placeImages_rejected rejects before bad after e :
  Forall (fun img => rejects img = None) before ->
  rejects bad = Some e ->
  forall n doc, placeImages rejects n (before ++ bad :: after) doc = Throw e.
Proof.
  intros Hall Hbad. induction Hall as [| img rest Himg _ IH]; intros n doc.
  - cbn [app placeImages]. unfold addImage. rewrite Hbad. reflexivity.
  - cbn [app placeImages]. unfold addImage at 1. rewrite Himg. apply IH.
Qed.

(** X8.  What [generatePDF] makes of the images depends on jsPDF taking
    them.  When it takes them all, the PDF has one page per image, in the
    order of the images, each page holding just its image (without images
    it is the single empty page of a new document).  When it rejects one,
    [generatePDF] throws the error of the first rejected image and there
    is no document.  The download handler does nothing while no page is
    published; otherwise it hands over the document of the published
    pages, one page per published page in page order, or throws with
    [generatePDF]. *)
Theorem pdf_has_one_page_per_image :
  forall (rejects : jsstring -> option JsError) (images : list jsstring)
         (a : App),
    (Forall (fun img => rejects img = None) images ->
     exists doc,
       generatePDF rejects images = Ok doc
       /\ pagesOf doc = match images with
                        | [] => [[]]
                        | _ => map (fun img => [img]) images
                        end)
    /\ (forall before bad after e,
          images = before ++ bad :: after ->
          Forall (fun img => rejects img = None) before ->
          rejects bad = Some e ->
          generatePDF rejects images = Throw e)
    /\ (generatedPages a = [] -> handleDownloadPDF rejects a = Ok None)
    /\ (generatedPages a <> [] ->
        Forall (fun p => rejects (imageUrl p) = None) (generatedPages a) ->
        exists doc,
          handleDownloadPDF rejects a = Ok (Some doc)
          /\ pagesOf doc = map (fun p => [imageUrl p]) (generatedPages a)
          /\ List.length (pagesOf doc) = List.length (generatedPages a))
    /\ (forall p e,
          In p (generatedPages a) -> rejects (imageUrl p) = Some e ->
          exists e', handleDownloadPDF rejects a = Throw e').
Proof.
  intros rejects images a.
  split; [| split; [| split; [| split]]].
  - intros Hall. destruct images as [| img rest].
    + exists newPdf. split; reflexivity.
    + apply generatePDF_accepted; [discriminate | exact Hall].
  - intros before bad after e -> Hall Hbad.
    apply placeImages_rejected; assumption.
  - intros H. unfold handleDownloadPDF. rewrite H. reflexivity.
  - intros Hne Hall. unfold handleDownloadPDF.
    destruct (generatedPages a) as [| p ps] eqn:Hp; [contradiction Hne; reflexivity |].
    cbn [List.length Nat.eqb].
    destruct (@generatePDF_accepted rejects (map imageUrl (p :: ps)))
      as (doc & Hrun & Hpages).
    + discriminate.
    + apply Forall_map. exact Hall.
    + rewrite Hrun. exists doc. split; [reflexivity |].
      rewrite Hpages, map_map. split; [reflexivity |].
      rewrite !length_map. reflexivity.
  - intros p e Hin Hbad. unfold handleDownloadPDF.
    destruct (generatedPages a) as [| p0 ps] eqn:Hp; [contradiction Hin |].
    cbn [List.length Nat.eqb].
    assert (Hex : Exists (fun img => rejects img <> None) (map imageUrl (p0 :: ps))).
    { apply Exists_exists. exists (imageUrl p). split.
      - apply in_map. exact Hin.
      - rewrite Hbad. discriminate. }
    clear Hin Hbad Hp.
    assert (Hthrow : forall l n doc,
              Exists (fun img => rejects img <> None) l ->
              exists e', placeImages rejects n l doc = Throw e').
    { induction l as [| img rest IH]; intros n doc H; [inversion H |].
      cbn [placeImages]. unfold addImage at 1.
      destruct (rejects img) as [e0 |] eqn:Himg; [exists e0; reflexivity |].
      apply IH. inversion H as [? ? Hh | ? ? Ht]; subst;
        [contradiction Hh; exact Himg | exact Ht]. }
    destruct (Hthrow _ 0 newPdf Hex) as (e' & He').
    exists e'. unfold generatePDF. rewrite He'. reflexivity.
Qed.

Lemma pdf_witness :
  exists doc,
    handleDownloadPDF signatureOnly
      (published (component (Sample.start None []))
         (numbered 0 [onePixel; otherPixel]))
    = Ok (Some doc)
    /\ pagesOf doc = [[onePixel]; [otherPixel]].
Proof.
  destruct (proj1 (proj2 (proj2 (proj2 (@pdf_has_one_page_per_image signatureOnly []
              (published (component (Sample.start None []))
                 (numbered 0 [onePixel; otherPixel])))))))
    as (doc & Hd & Hp & _).
  - discriminate.
  - repeat constructor.
  - exists doc. split; [exact Hd | exact Hp].
Defined.

Example pdf_of_a_rejected_image :
  exists e,
    generatePDF signatureOnly [onePixel; js "data:image/png;base64,AAA"; otherPixel]
    = Throw e.
Proof. eexists. reflexivity. Qed.

(* ================================================================== *)
(** * Further properties of [handleProcess] *)
(* ================================================================== *)

(** ** How an attempt can end *)

Lemma pagesLoop_cases txt hf steps k :
  forall i cur a w,
    (exists urls w',
       List.length urls = k
       /\ pagesLoop txt hf steps k i cur (mkMachine a w)
          = (Ok (cur ++ numbered i urls),
             mkMachine (logged a (generatingStates k i (List.length steps))) w'))
    \/ (exists e written w',
          pagesLoop txt hf steps k i cur (mkMachine a w)
          = (Throw e, mkMachine (logged a written) w')).
Proof.
  induction k as [| k IH]; intros i cur a w.
  - left. exists [], w. cbn. rewrite app_nil_r, logged_nil. split; reflexivity.
  - cbn [pagesLoop].
    step_ok (setProcessingState_run (generatingState i (List.length steps)) a w).
    destruct (generateHandwrittenPage txt hf (nth_error steps i) i w)
      as [[url | e] w1] eqn:Hpage.
    + step_ok (@liftW_run _ _ (logged a [generatingState i (List.length steps)])
                 _ _ _ Hpage).
      destruct (IH (S i) (cur ++ [{| imageUrl := url; pageNumber := i + 1 |}])
                  (logged a [generatingState i (List.length steps)]) w1)
        as [(urls & w' & Hlen & Hrun) | (e & written & w' & Hrun)].
      * left. exists (url :: urls), w'. rewrite Hrun, logged_logged, <- app_assoc.
        split; [cbn; rewrite Hlen; reflexivity | reflexivity].
      * right. exists e, ([generatingState i (List.length steps)] ++ written), w'.
        rewrite Hrun, logged_logged. reflexivity.
    + right. exists e, [generatingState i (List.length steps)], w1.
      step_throw (@liftW_run _ _ (logged a [generatingState i (List.length steps)])
                    _ _ _ Hpage).
      reflexivity.
Qed.

(** An attempt either succeeds, having rendered at least one page,
    published the pages and written the completion state, or it leaves
    the published pages alone; it reports plain failure ([success] not
    set, nothing thrown) only while attempts remain. *)
Lemma tryBlock_cases txt attempts q h a w :
  (exists urls w',
     urls <> []
     /\ tryBlock txt attempts q h (mkMachine a w)
        = (Ok true,
           mkMachine
             (logged (published (logged a (attemptStates attempts (List.length urls)))
                        (numbered 0 urls))
                [completedState]) w'))
  \/ (exists r written w',
        tryBlock txt attempts q h (mkMachine a w)
        = (r, mkMachine (logged a written) w')
        /\ r <> Ok true
        /\ (r = Ok false -> attempts <> MAX_ATTEMPTS)).
Proof.
  unfold tryBlock.
  step_ok (setProcessingState_run (analyzingState attempts) a w).
  destruct (transcribeMathProblem (file q) w) as [[t | e] w1] eqn:Ht.
  2:{ right. exists (Throw e), [analyzingState attempts], w1.
      step_throw (@liftW_run _ _ (logged a [analyzingState attempts]) _ _ _ Ht).
      split; [reflexivity | split; discriminate]. }
  step_ok (@liftW_run _ _ (logged a [analyzingState attempts]) _ _ _ Ht).
  step_ok (setProcessingState_run solvingState
             (logged a [analyzingState attempts]) w1).
  rewrite logged_logged.
  change ([analyzingState attempts] ++ [solvingState])
    with [analyzingState attempts; solvingState].
  destruct (solveMathProblem t w1) as [[steps | e] w2] eqn:Hs.
  2:{ right. exists (Throw e), [analyzingState attempts; solvingState], w2.
      step_throw (@liftW_run _ _ (logged a [analyzingState attempts; solvingState])
                    _ _ _ Hs).
      split; [reflexivity | split; discriminate]. }
  step_ok (@liftW_run _ _ (logged a [analyzingState attempts; solvingState])
             _ _ _ Hs).
  destruct steps as [| s0 steps'].
  { cbn [List.length Nat.eqb]. right.
    destruct (Nat.eqb attempts MAX_ATTEMPTS) eqn:Hmax.
    - eexists _, _, _. split; [reflexivity | split; discriminate].
    - eexists _, _, _. split; [reflexivity | split; [discriminate |]].
      intros _. apply Nat.eqb_neq. exact Hmax. }
  cbn [List.length Nat.eqb]. unfold generatePages.
  destruct (pagesLoop_cases txt (file h) (s0 :: steps')
              (List.length (s0 :: steps')) 0 []
              (logged a [analyzingState attempts; solvingState]) w2)
    as [(urls & w3 & Hlen & Hrun) | (e & written & w3 & Hrun)].
  2:{ right. step_throw Hrun. rewrite logged_logged.
      eexists _, _, _. split; [reflexivity | split; discriminate]. }
  step_ok Hrun. rewrite logged_logged.
  erewrite bind_ok by (apply setProcessingState_run).
  rewrite logged_logged.
  cbn [app]. rewrite numbered_imageUrl.
  destruct (validateSolution txt (file q) urls w3) as [[v | e] w4] eqn:Hv.
  2:{ right. erewrite bind_throw by (apply liftW_run; exact Hv).
      eexists _, _, _. split; [reflexivity | split; discriminate]. }
  erewrite bind_ok by (apply liftW_run; exact Hv).
  destruct (valid v).
  - left. exists urls, w4. split.
    + intros ->. discriminate Hlen.
    + unfold attemptStates. rewrite Hlen. cbn [List.length].
      reflexivity.
  - right. unfold bind, liftResult, ret, throw.
    destruct (toString (reason v)).
    + destruct (Nat.eqb attempts MAX_ATTEMPTS) eqn:Hmax.
      * destruct (toString _);
          eexists _, _, _; (split; [reflexivity | split; discriminate]).
      * eexists _, _, _. split; [reflexivity | split; [discriminate |]].
        intros _. apply Nat.eqb_neq. exact Hmax.
    + eexists _, _, _. split; [reflexivity | split; discriminate].
Qed.

(** ** How a run can end *)

Lemma attemptLoop_exit txt fuel q h attempts success m :
  Nat.ltb attempts MAX_ATTEMPTS && negb success = false ->
  attemptLoop txt fuel q h attempts success m = Some (mkEnd attempts success m).
Proof. intros H. destruct fuel; cbn [attemptLoop]; rewrite H; reflexivity. Qed.

Lemma attemptLoop_outcome txt q h fuel :
  forall attempts a w r,
    attempts < MAX_ATTEMPTS ->
    attemptLoop txt fuel q h attempts false (mkMachine a w) = Some r ->
    attempts < attemptsUsed r <= MAX_ATTEMPTS
    /\ EndsCompletedOrError (generatedPages a) r.
Proof.
  induction fuel as [| fuel IH]; intros attempts a w r Hlt Hrun.
  - cbn [attemptLoop] in Hrun.
    replace (Nat.ltb attempts MAX_ATTEMPTS) with true in Hrun
      by (symmetry; apply Nat.ltb_lt; exact Hlt).
    discriminate Hrun.
  - cbn [attemptLoop] in Hrun.
    replace (Nat.ltb attempts MAX_ATTEMPTS) with true in Hrun
      by (symmetry; apply Nat.ltb_lt; exact Hlt).
    cbn [andb negb] in Hrun.
    destruct (tryBlock_cases txt (S attempts) q h a w)
      as [(urls & w' & Hne & Htry) | (r0 & written & w' & Htry & Hnot & Hfalse)];
      rewrite Htry in Hrun.
    + rewrite attemptLoop_exit in Hrun by (rewrite andb_false_r; reflexivity).
      injection Hrun as <-. cbn [attemptsUsed].
      split; [split; [apply Nat.lt_succ_diag_r | exact Hlt] |].
      left. cbn [succeeded final component processingState generatedPages
                 logged published last].
      repeat split.
      * intros H. apply Hne. destruct urls; [reflexivity | discriminate H].
      * rewrite numbered_pageNumber, numbered_length. reflexivity.
    + destruct r0 as [[|] | e].
      * contradiction Hnot. reflexivity.
      * specialize (Hfalse eq_refl).
        assert (Hlt' : S attempts < MAX_ATTEMPTS).
        { apply Nat.le_neq. split; [exact Hlt | exact Hfalse]. }
        destruct (IH (S attempts) (logged a written) w' r Hlt' Hrun) as (Hb & He).
        split; [split; [apply Nat.lt_succ_l; apply Hb | apply Hb] | exact He].
      * destruct (deniedInCatch e).
        -- injection Hrun as <-. cbn [attemptsUsed].
           split; [split; [apply Nat.lt_succ_diag_r | exact Hlt] |].
           right. repeat split.
        -- destruct (Nat.eqb (S attempts) MAX_ATTEMPTS) eqn:Hmax.
           ++ apply Nat.eqb_eq in Hmax.
              rewrite attemptLoop_exit in Hrun
                by (rewrite Hmax, Nat.ltb_irrefl; reflexivity).
              injection Hrun as <-. cbn [attemptsUsed].
              split; [split; [apply Nat.lt_succ_diag_r | exact Hlt] |].
              right. repeat split.
           ++ apply Nat.eqb_neq in Hmax.
              assert (Hlt' : S attempts < MAX_ATTEMPTS).
              { apply Nat.le_neq. split; [exact Hlt | exact Hmax]. }
              destruct (IH (S attempts) (logged a written) w' r Hlt' Hrun)
                as (Hb & He).
              split; [split; [apply Nat.lt_succ_l; apply Hb | apply Hb] | exact He].
Qed.

(** X9.  A run started with both images uses between one and three
    attempts and always ends in one of two ways: completed, with a
    non-empty list of pages numbered 1..n published, or in the state
    ERROR with progress 0 and no page published.  It never stops in an
    intermediate state. *)
Theorem run_ends_completed_or_error :
  forall (txt : ServiceText) (m : Machine) (q h : UploadedFile),
    questionImage (component m) = Some q ->
    handwritingImage (component m) = Some h ->
    exists r,
      handleProcess txt m = Some r
      /\ 1 <= attemptsUsed r <= MAX_ATTEMPTS
      /\ EndsCompletedOrError [] r.
Proof.
  intros txt m q h Hq Hh.
  destruct (handleProcess_total txt m) as (r & Hr). exists r.
  split; [exact Hr |]. destruct m as [a w]. cbn in Hq, Hh.
  rewrite (@handleProcess_start txt a w q h Hq Hh) in Hr.
  apply attemptLoop_outcome in Hr; [exact Hr | apply Nat.lt_0_succ].
Qed.

Lemma run_ends_witness :
  exists r,
    handleProcess copyA (Sample.start Sample.apiKey Sample.thirdTime) = Some r
    /\ 1 <= attemptsUsed r <= MAX_ATTEMPTS
    /\ EndsCompletedOrError [] r.
Proof.
  apply (@run_ends_completed_or_error copyA
           (Sample.start Sample.apiKey Sample.thirdTime)
           Sample.question Sample.handwriting).
  - reflexivity.
  - reflexivity.
Defined.

(** ** Where the attempt loop stops *)

Lemma attemptLoop_three_ends txt q h fuel :
  forall attempts a w r,
    attempts < MAX_ATTEMPTS ->
    attemptLoop txt fuel q h attempts false (mkMachine a w) = Some r ->
    EndsOneOfThree (isKeySelected a) r.
Proof.
  induction fuel as [| fuel IH]; intros attempts a w r Hlt Hrun.
  - cbn [attemptLoop] in Hrun.
    replace (Nat.ltb attempts MAX_ATTEMPTS) with true in Hrun
      by (symmetry; apply Nat.ltb_lt; exact Hlt).
    discriminate Hrun.
  - cbn [attemptLoop] in Hrun.
    replace (Nat.ltb attempts MAX_ATTEMPTS) with true in Hrun
      by (symmetry; apply Nat.ltb_lt; exact Hlt).
    cbn [andb negb] in Hrun.
    destruct (tryBlock_cases txt (S attempts) q h a w)
      as [(urls & w' & Hne & Htry) | (r0 & written & w' & Htry & Hnot & Hfalse)];
      rewrite Htry in Hrun.
    + rewrite attemptLoop_exit in Hrun by (rewrite andb_false_r; reflexivity).
      injection Hrun as <-. left. repeat split.
    + destruct r0 as [[|] | e].
      * contradiction Hnot. reflexivity.
      * specialize (Hfalse eq_refl).
        assert (Hlt' : S attempts < MAX_ATTEMPTS).
        { apply Nat.le_neq. split; [exact Hlt | exact Hfalse]. }
        exact (IH (S attempts) (logged a written) w' r Hlt' Hrun).
      * destruct (deniedInCatch e).
        -- injection Hrun as <-. right. left. repeat split.
        -- destruct (Nat.eqb (S attempts) MAX_ATTEMPTS) eqn:Hmax.
           ++ apply Nat.eqb_eq in Hmax.
              rewrite attemptLoop_exit in Hrun
                by (rewrite Hmax, Nat.ltb_irrefl; reflexivity).
              injection Hrun as <-. right. right.
              split; [reflexivity | split; [exact Hmax |]].
              split; [exists (message e); reflexivity | reflexivity].
           ++ apply Nat.eqb_neq in Hmax.
              assert (Hlt' : S attempts < MAX_ATTEMPTS).
              { apply Nat.le_neq. split; [exact Hlt | exact Hmax]. }
              exact (IH (S attempts) (logged a written) w' r Hlt' Hrun).
Qed.

(** ** What is on screen after a run *)

Lemma attemptLoop_screen txt q h fuel attempts a w r :
  attempts < MAX_ATTEMPTS ->
  isKeySelected a = true ->
  attemptLoop txt fuel q h attempts false (mkMachine a w) = Some r ->
  (succeeded r = true
   /\ processingState (component (final r)) = completedState
   /\ generatedPages (component (final r)) <> []
   /\ isKeySelected (component (final r)) = true)
  \/ (succeeded r = false
      /\ processingState (component (final r)) = accessDeniedState
      /\ isKeySelected (component (final r)) = false)
  \/ (succeeded r = false
      /\ attemptsUsed r = MAX_ATTEMPTS
      /\ (exists errMessage,
            processingState (component (final r)) = failureState errMessage)
      /\ isKeySelected (component (final r)) = true).
Proof.
  intros Hlt Hkey Hrun.
  pose proof (@attemptLoop_three_ends txt q h fuel attempts a w r Hlt Hrun) as H3.
  destruct (@attemptLoop_outcome txt q h fuel attempts a w r Hlt Hrun) as (_ & H2).
  rewrite Hkey in H3.
  destruct H3 as [(Hs & Hstate & Hk) | [(Hs & Hstate & Hk) | (Hs & Hn & Hstate & Hk)]].
  - left. destruct H2 as [(_ & _ & Hne & _) | (Hf & _)].
    + repeat split; assumption.
    + rewrite Hs in Hf. discriminate Hf.
  - right. left. repeat split; assumption.
  - right. right. repeat split; assumption.
Qed.

(** X10.  After a run started with both images by a component with a key
    selected, the upload view, and with it the EXECUTE button, is not what
    is rendered: a run that succeeded shows the status with the results
    (the pages and the reset and download buttons); a run that was denied
    access shows the key landing page again; a run that used up its
    attempts shows the status alone, with no button to start over. *)
Theorem views_after_run :
  forall (txt : ServiceText) (m : Machine) (q h : UploadedFile),
    questionImage (component m) = Some q ->
    handwritingImage (component m) = Some h ->
    isKeySelected (component m) = true ->
    exists r,
      handleProcess txt m = Some r
      /\ ((succeeded r = true
           /\ render (component (final r)) = StatusView true)
          \/ (succeeded r = false
              /\ processingState (component (final r)) = accessDeniedState
              /\ render (component (final r)) = KeyLanding)
          \/ (succeeded r = false
              /\ attemptsUsed r = MAX_ATTEMPTS
              /\ render (component (final r)) = StatusView false)).
Proof.
  intros txt m q h Hq Hh Hkey.
  destruct (handleProcess_total txt m) as (r & Hr). exists r.
  split; [exact Hr |]. destruct m as [a w]. cbn in Hq, Hh, Hkey.
  rewrite (@handleProcess_start txt a w q h Hq Hh) in Hr.
  destruct (@attemptLoop_screen txt q h 3 0 (published a []) w r
              (Nat.lt_0_succ _) Hkey Hr)
    as [(Hs & Hstate & Hne & Hk) | [(Hs & Hstate & Hk) | (Hs & Hn & (msg & Hstate) & Hk)]];
    unfold render; rewrite Hk, Hstate; cbn [negb step_].
  - left. split; [exact Hs |].
    destruct (generatedPages (component (final r))) as [| p ps];
      [contradiction Hne; reflexivity | reflexivity].
  - right. left. repeat split; assumption.
  - right. right. repeat split; assumption.
Qed.

Lemma views_after_run_witness :
  exists r,
    handleProcess copyA (Sample.start Sample.apiKey Sample.thirdTime) = Some r
    /\ render (component (final r)) = StatusView true.
Proof.
  destruct (@views_after_run copyA
              (Sample.start Sample.apiKey Sample.thirdTime)
              Sample.question Sample.handwriting eq_refl eq_refl eq_refl)
    as (r & Hr & Hview).
  exists r. split; [exact Hr |].
  vm_compute in Hr. injection Hr as <-. reflexivity.
Defined.

Example views_after_denied_and_failed_runs :
  option_map (fun r => render (component (final r)))
    (handleProcess copyA (Sample.start Sample.apiKey [Fails Sample.forbidden]))
  = Some KeyLanding
  /\ option_map (fun r => render (component (final r)))
       (handleProcess copyA (Sample.start Sample.apiKey [Fails Sample.overloaded]))
     = Some (StatusView false).
Proof. split; reflexivity. Qed.

(** ** Properties every step of an attempt keeps *)

Section AttemptClosure.

Variable txt : ServiceText.
Variable Good : forall A : Type, M Machine A -> Prop.

Hypothesis good_bind :
  forall A B (c : M Machine A) (k : A -> M Machine B),
    Good c -> (forall x, Good (k x)) -> Good (bind c k).
Hypothesis good_pure : forall A (r : Result A), Good (liftResult r).
Hypothesis good_service : forall A (c : M World A),
  (forall w, exists k, Spends k w (snd (c w))) -> Good (liftW c).
Hypothesis good_pages : forall ps, Good (setGeneratedPages ps).
Hypothesis good_analyzing : forall n, Good (setProcessingState (analyzingState n)).
Hypothesis good_solving : Good (setProcessingState solvingState).
Hypothesis good_generating :
  forall i T, i < T -> Good (setProcessingState (generatingState i T)).
Hypothesis good_validating : Good (setProcessingState validatingState).
Hypothesis good_completed : Good (setProcessingState completedState).

Lemma good_pagesLoop hf steps k :
  forall i cur,
    i + k <= List.length steps ->
    Good (pagesLoop txt hf steps k i cur).
Proof.
  induction k as [| k IH]; intros i cur Hle; cbn [pagesLoop].
  - exact (good_pure (Ok cur)).
  - apply good_bind; [apply good_generating; lia | intros _].
    apply good_bind.
    + apply good_service. intros w. exists 2.
      apply (stages_spend txt w).
    + intros url. apply IH. lia.
Qed.

Lemma good_tryBlock attempts q h : Good (tryBlock txt attempts q h).
Proof.
  unfold tryBlock.
  apply good_bind; [apply good_analyzing | intros _].
  apply good_bind.
  { apply good_service. intros w. exists 1.
    apply (stages_spend txt w). }
  intros problemText.
  apply good_bind; [apply good_solving | intros _].
  apply good_bind.
  { apply good_service. intros w. exists 2.
    apply (stages_spend txt w). }
  intros steps.
  destruct (Nat.eqb (List.length steps) 0).
  - destruct (Nat.eqb attempts MAX_ATTEMPTS);
      [exact (good_pure (Throw _)) | exact (good_pure (Ok false))].
  - apply good_bind.
    { unfold generatePages. apply good_pagesLoop. apply Nat.le_refl. }
    intros pages.
    apply good_bind; [apply good_validating | intros _].
    apply good_bind.
    { apply good_service. intros w. exists 1.
      apply (stages_spend txt w). }
    intros v.
    destruct (valid v).
    + apply good_bind; [apply good_pages | intros _].
      apply good_bind; [apply good_completed | intros _].
      exact (good_pure (Ok true)).
    + apply good_bind; [apply good_pure | intros _].
      destruct (Nat.eqb attempts MAX_ATTEMPTS); [| exact (good_pure (Ok false))].
      apply good_bind; [apply good_pure | intros shown].
      exact (good_pure (Throw _)).
Qed.

End AttemptClosure.

(** ** A run and the service *)

Lemma onlyCalls_bind {A B} (c : M Machine A) (k : A -> M Machine B) :
  onlyCalls c -> (forall x, onlyCalls (k x)) -> onlyCalls (bind c k).
Proof.
  intros Hc Hk m. unfold bind.
  destruct (Hc m) as (m1 & H1).
  destruct (c m) as [[x | e] s1]; cbn [snd] in *.
  - destruct (Hk x s1) as (m2 & H2). exists (m1 ++ m2).
    rewrite H2, H1, extended_extended. reflexivity.
  - exists m1. exact H1.
Qed.

Lemma onlyCalls_pure {A} (r : Result A) : onlyCalls (liftResult r).
Proof. intros m. exists []. cbn. rewrite extended_nil. reflexivity. Qed.

Lemma onlyCalls_updApp f : onlyCalls (updApp f).
Proof. intros m. exists []. cbn. rewrite extended_nil. reflexivity. Qed.

Lemma onlyCalls_service {A} (c : M World A) :
  (forall w, exists k, Spends k w (snd (c w))) -> onlyCalls (liftW c).
Proof.
  intros Hc m. destruct (Hc (world m)) as (k & more & Hw & _).
  exists more. unfold liftW. destruct (c (world m)) as [r w']. exact Hw.
Qed.

Lemma onlyCalls_tryBlock txt attempts q h : onlyCalls (tryBlock txt attempts q h).
Proof.
  apply (@good_tryBlock txt (@onlyCalls)).
  - intros A B. apply onlyCalls_bind.
  - intros A. apply onlyCalls_pure.
  - intros A. apply onlyCalls_service.
  - intros ps. apply onlyCalls_updApp.
  - intros n. apply onlyCalls_updApp.
  - apply onlyCalls_updApp.
  - intros i T _. apply onlyCalls_updApp.
  - apply onlyCalls_updApp.
  - apply onlyCalls_updApp.
Qed.

Lemma attemptLoop_onlyCalls txt q h fuel :
  forall attempts success m r,
    attemptLoop txt fuel q h attempts success m = Some r ->
    exists more, world (final r) = extended (world m) more.
Proof.
  induction fuel as [| fuel IH]; intros attempts success m r; cbn [attemptLoop].
  - destruct (Nat.ltb attempts MAX_ATTEMPTS && negb success); [discriminate |].
    intros H. injection H as <-. exists []. cbn. rewrite extended_nil. reflexivity.
  - destruct (Nat.ltb attempts MAX_ATTEMPTS && negb success).
    2:{ intros H. injection H as <-. exists []. cbn.
        rewrite extended_nil. reflexivity. }
    destruct (onlyCalls_tryBlock txt (S attempts) q h m) as (more1 & H1).
    destruct (tryBlock txt (S attempts) q h m) as [[s' | e] m']; cbn [snd] in H1.
    + intros H. destruct (IH _ _ _ _ H) as (more2 & H2).
      exists (more1 ++ more2). rewrite H2, H1, extended_extended. reflexivity.
    + destruct (deniedInCatch e).
      * intros H. injection H as <-. exists more1. exact H1.
      * intros H. destruct (IH _ _ _ _ H) as (more2 & H2).
        exists (more1 ++ more2). rewrite H2.
        destruct (Nat.eqb (S attempts) MAX_ATTEMPTS); cbn [stateAfter snd
          setProcessingState updApp world]; rewrite H1, extended_extended;
          reflexivity.
Qed.

(** X11.  A run only ever adds calls to the service's record: the API
    keys and the backend are the same after it, and the earlier calls are
    still there.  Started without both images it changes nothing at
    all. *)
Theorem run_only_adds_calls :
  forall (txt : ServiceText) (m : Machine) (r : RunEnd),
    handleProcess txt m = Some r ->
    (exists more, world (final r) = extended (world m) more)
    /\ (executeEnabled (component m) = false ->
        final r = m /\ attemptsUsed r = 0).
Proof.
  intros txt m r. unfold handleProcess, executeEnabled.
  destruct (questionImage (component m)) as [q |].
  - destruct (handwritingImage (component m)) as [h |].
    + intros H. split; [| discriminate].
      destruct (attemptLoop_onlyCalls _ _ _ _ _ _ _ H) as (more & Hm).
      exists more. exact Hm.
    + intros H. injection H as <-. split; [| intros _; split; reflexivity].
      exists []. cbn. rewrite extended_nil. reflexivity.
  - intros H. injection H as <-. split; [| intros _; split; reflexivity].
    exists []. cbn. rewrite extended_nil. reflexivity.
Qed.

Lemma run_only_adds_calls_witness :
  exists r,
    handleProcess copyA onlyHandwriting = Some r
    /\ final r = onlyHandwriting
    /\ attemptsUsed r = 0.
Proof.
  exists (mkEnd 0 false onlyHandwriting).
  split; [reflexivity |].
  exact (proj2 (@run_only_adds_calls copyA onlyHandwriting
                  (mkEnd 0 false onlyHandwriting) eq_refl) eq_refl).
Defined.

(** ** Progress stays in range *)

Lemma writesOnly_bind P {A B} (c : M Machine A) (k : A -> M Machine B) :
  writesOnly P c -> (forall x, writesOnly P (k x)) -> writesOnly P (bind c k).
Proof.
  intros Hc Hk m. unfold bind.
  destruct (Hc m) as (r1 & H1 & Hs1 & HP1).
  destruct (c m) as [[x | e] m1]; cbn [snd] in *.
  - destruct (Hk x m1) as (r2 & H2 & Hs2 & HP2). exists (r1 ++ r2).
    rewrite H2, H1, Hs2, Hs1, app_assoc, last_app_last.
    repeat split. apply Forall_app. split; assumption.
  - exists r1. repeat split; assumption.
Qed.

Lemma writesOnly_silent P {A} (c : M Machine A) :
  (forall m, stateLog (component (snd (c m))) = stateLog (component m)
             /\ processingState (component (snd (c m)))
                = processingState (component m)) ->
  writesOnly P c.
Proof.
  intros H m. exists []. destruct (H m) as (H1 & H2).
  rewrite H1, H2, app_nil_r. repeat split. constructor.
Qed.

Lemma writesOnly_set (P : ProcessingState -> Prop) ps :
  P ps -> writesOnly P (setProcessingState ps).
Proof.
  intros H m. exists [ps]. repeat split. constructor; [exact H | constructor].
Qed.

Lemma writesOnly_service P {A} (c : M World A) : writesOnly P (liftW c).
Proof.
  apply writesOnly_silent. intros m. unfold liftW.
  destruct (c (world m)). split; reflexivity.
Qed.

Lemma inRange_generating i T : i < T -> inRange (generatingState i T).
Proof.
  intros H. split; cbn [progress generatingState].
  - apply Qle_trans with 30%Q; [discriminate | apply pageProgress_lower].
  - apply Qle_trans with 90%Q; [apply pageProgress_upper; exact H | discriminate].
Qed.

Lemma tryBlock_inRange txt attempts q h :
  writesOnly inRange (tryBlock txt attempts q h).
Proof.
  apply (@good_tryBlock txt (@writesOnly inRange)).
  - intros A B. apply writesOnly_bind.
  - intros A r. apply writesOnly_silent. intros m. split; reflexivity.
  - intros A c _. apply writesOnly_service.
  - intros ps. apply writesOnly_silent. intros m. split; reflexivity.
  - intros n. apply writesOnly_set. split; discriminate.
  - apply writesOnly_set. split; discriminate.
  - intros i T H. apply writesOnly_set. apply inRange_generating. exact H.
  - apply writesOnly_set. split; discriminate.
  - apply writesOnly_set. split; discriminate.
Qed.

Lemma attemptLoop_inRange txt q h fuel :
  forall attempts success m r,
    attemptLoop txt fuel q h attempts success m = Some r ->
    exists rest,
      stateLog (component (final r)) = stateLog (component m) ++ rest
      /\ processingState (component (final r))
         = last rest (processingState (component m))
      /\ Forall inRange rest.
Proof.
  assert (Hstop : forall m : Machine, exists rest,
            stateLog (component m) = stateLog (component m) ++ rest
            /\ processingState (component m)
               = last rest (processingState (component m))
            /\ Forall inRange rest).
  { intros m. exists []. rewrite app_nil_r. repeat split. constructor. }
  induction fuel as [| fuel IH]; intros attempts success m r; cbn [attemptLoop].
  - destruct (Nat.ltb attempts MAX_ATTEMPTS && negb success); [discriminate |].
    intros H. injection H as <-. apply Hstop.
  - destruct (Nat.ltb attempts MAX_ATTEMPTS && negb success).
    2:{ intros H. injection H as <-. apply Hstop. }
    destruct (tryBlock_inRange txt (S attempts) q h m) as (r1 & H1 & Hs1 & HP1).
    destruct (tryBlock txt (S attempts) q h m) as [[s' | e] m']; cbn [snd] in *.
    + intros H. destruct (IH _ _ _ _ H) as (r2 & H2 & Hs2 & HP2).
      exists (r1 ++ r2). rewrite H2, Hs2, H1, Hs1, app_assoc, last_app_last.
      repeat split. apply Forall_app. split; assumption.
    + destruct (deniedInCatch e).
      * intros H. injection H as <-. exists (r1 ++ [accessDeniedState]).
        cbn [final deny stateAfter snd bind setIsKeySelected setProcessingState
             updApp component stateLog processingState].
        rewrite H1, app_assoc, last_app_last. repeat split.
        apply Forall_app. split; [exact HP1 |].
        constructor; [split; discriminate | constructor].
      * intros H. destruct (IH _ _ _ _ H) as (r2 & H2 & Hs2 & HP2).
        destruct (Nat.eqb (S attempts) MAX_ATTEMPTS).
        -- exists (r1 ++ failureState (message e) :: r2).
           cbn [stateAfter snd setProcessingState updApp component stateLog
                processingState] in H2, Hs2.
           rewrite H2, Hs2, H1, <- !app_assoc.
           split; [reflexivity |].
           split.
           ++ rewrite last_app_last.
              change (failureState (message e) :: r2)
                with ([failureState (message e)] ++ r2).
              rewrite last_app_last. reflexivity.
           ++ apply Forall_app. split; [exact HP1 |].
              constructor; [split; discriminate | exact HP2].
        -- exists (r1 ++ r2). rewrite H2, Hs2, H1, Hs1, app_assoc, last_app_last.
           repeat split. apply Forall_app. split; assumption.
Qed.

(** X12.  Every state a run writes has its progress between 0 and 100,
    as the type of [ProcessingState] promises, and the state shown at the
    end is the last one written; so a progress that was in range before
    a run is in range after it. *)
Theorem progress_stays_in_range :
  forall (txt : ServiceText) (m : Machine) (r : RunEnd),
    handleProcess txt m = Some r ->
    (exists rest,
       stateLog (component (final r)) = stateLog (component m) ++ rest
       /\ processingState (component (final r))
          = last rest (processingState (component m))
       /\ Forall inRange rest)
    /\ (inRange (processingState (component m)) ->
        inRange (processingState (component (final r)))).
Proof.
  intros txt m r H.
  assert (Hlog : exists rest,
             stateLog (component (final r)) = stateLog (component m) ++ rest
             /\ processingState (component (final r))
                = last rest (processingState (component m))
             /\ Forall inRange rest).
  { unfold handleProcess in H.
    destruct (questionImage (component m)) as [q |].
    - destruct (handwritingImage (component m)) as [h |].
      + exact (attemptLoop_inRange _ _ _ _ _ _ _ H).
      + injection H as <-. exists []. cbn. rewrite app_nil_r.
        repeat split. constructor.
    - injection H as <-. exists []. cbn. rewrite app_nil_r.
      repeat split. constructor. }
  split; [exact Hlog |].
  intros Hin. destruct Hlog as (rest & _ & -> & HP).
  destruct rest as [| s rest] using rev_ind; [exact Hin |].
  rewrite last_app_last. cbn [last].
  apply Forall_app in HP. destruct HP as (_ & HP).
  inversion HP. assumption.
Qed.

Lemma progress_stays_in_range_witness :
  exists r,
    handleProcess copyA (Sample.start Sample.apiKey Sample.thirdTime) = Some r
    /\ inRange (processingState (component (final r))).
Proof.
  destruct (handleProcess_total copyA (Sample.start Sample.apiKey Sample.thirdTime))
    as (r & Hr).
  exists r. split; [exact Hr |].
  apply (proj2 (@progress_stays_in_range copyA
                  (Sample.start Sample.apiKey Sample.thirdTime) r Hr)).
  split; discriminate.
Defined.

(** ** Back to the upload view *)

(** X13.  The reset button of the results view.  After a run that
    succeeded for a component with a key selected, [clearFiles] leaves the
    service alone and brings back the upload view with nothing selected:
    EXECUTE is disabled, no page is published, and a run started from
    there does nothing.  Selecting a question and a handwriting sample
    afterwards, in either order, enables EXECUTE; one of them alone does
    not. *)
Theorem reset_after_success_returns_to_upload :
  forall (txt : ServiceText) (m : Machine) (q h : UploadedFile) (r : RunEnd)
         (f1 f2 : File) (u1 u2 : jsstring),
    questionImage (component m) = Some q ->
    handwritingImage (component m) = Some h ->
    isKeySelected (component m) = true ->
    handleProcess txt m = Some r ->
    succeeded r = true ->
    let m' := snd (clearFiles (final r)) in
    render (component (final r)) = StatusView true
    /\ render (component m') = UploadView
    /\ world m' = world (final r)
    /\ executeEnabled (component m') = false
    /\ generatedPages (component m') = []
    /\ handleProcess txt m' = Some (mkEnd 0 false m')
    /\ executeEnabled
         (component (snd ((handleFileSelect f1 u1 QuestionSlot ;;
                           handleFileSelect f2 u2 HandwritingSlot) m'))) = true
    /\ executeEnabled
         (component (snd ((handleFileSelect f2 u2 HandwritingSlot ;;
                           handleFileSelect f1 u1 QuestionSlot) m'))) = true
    /\ executeEnabled
         (component (snd (handleFileSelect f1 u1 QuestionSlot m'))) = false.
Proof.
  intros txt m q h r f1 f2 u1 u2 Hq Hh Hkey Hr Hs.
  destruct m as [a w]. cbn in Hq, Hh, Hkey.
  rewrite (@handleProcess_start txt a w q h Hq Hh) in Hr.
  destruct (@attemptLoop_screen txt q h 3 0 (published a []) w r
              (Nat.lt_0_succ _) Hkey Hr)
    as [(_ & Hstate & Hne & Hk) | [(Hf & _) | (Hf & _)]];
    [| rewrite Hs in Hf; discriminate Hf | rewrite Hs in Hf; discriminate Hf].
  destruct r as [used ok [a' w']]. cbn [final component] in *.
  cbv zeta. split.
  - unfold render. rewrite Hk, Hstate. cbn [negb step_ completedState].
    destruct (generatedPages a') as [| p ps];
      [contradiction Hne; reflexivity | reflexivity].
  - split; [unfold render; cbn; rewrite Hk; reflexivity |].
    repeat split.
Qed.

Lemma reset_after_success_witness :
  exists r,
    handleProcess copyA (Sample.start Sample.apiKey Sample.thirdTime) = Some r
    /\ render (component (final r)) = StatusView true
    /\ render (component (snd (clearFiles (final r)))) = UploadView
    /\ executeEnabled (component (snd (clearFiles (final r)))) = false.
Proof.
  destruct (handleProcess copyA (Sample.start Sample.apiKey Sample.thirdTime))
    as [r |] eqn:Hr; [| vm_compute in Hr; discriminate Hr].
  exists r. split; [reflexivity |].
  assert (Hs : succeeded r = true).
  { vm_compute in Hr. injection Hr as <-. reflexivity. }
  destruct (@reset_after_success_returns_to_upload copyA
              (Sample.start Sample.apiKey Sample.thirdTime)
              Sample.question Sample.handwriting r
              (file Sample.question) (file Sample.handwriting) [] []
              eq_refl eq_refl eq_refl Hr Hs)
    as (H1 & H2 & _ & H4 & _).
  split; [exact H1 | split; [exact H2 | exact H4]].
Defined.

(** ** Cleaning a step for the renderer *)

Lemma Forall_removeAllFrom (P : N -> Prop) p :
  forall s k, Forall P s -> Forall P (removeAllFrom p k s).
Proof.
  induction s as [| c s IH]; intros k H; cbn [removeAllFrom]; [constructor |].
  inversion H as [| ? ? Hc Hs]; subst.
  destruct k; [| apply IH; exact Hs].
  destruct (startsWith p (c :: s)); [apply IH; exact Hs |].
  constructor; [exact Hc | apply IH; exact Hs].
Qed.

Lemma Forall_removeAll (P : N -> Prop) p s :
  Forall P s -> Forall P (removeAll p s).
Proof.
  intros H. unfold removeAll. destruct p; [exact H |].
  apply Forall_removeAllFrom. exact H.
Qed.

Lemma Forall_removeHeadersFrom (P : N -> Prop) :
  forall s k, Forall P s -> Forall P (removeHeadersFrom k s).
Proof.
  induction s as [| c s IH]; intros k H; cbn [removeHeadersFrom]; [constructor |].
  inversion H as [| ? ? Hc Hs]; subst.
  destruct k; [| apply IH; exact Hs].
  destruct (headerMatch (c :: s)); [| apply IH; exact Hs].
  constructor; [exact Hc | apply IH; exact Hs].
Qed.

Lemma Forall_filter_keeps (P : N -> Prop) f s :
  Forall P s -> Forall P (filter f s).
Proof.
  induction 1 as [| c s Hc _ IH]; cbn [filter]; [constructor |].
  destruct (f c); [constructor; assumption | exact IH].
Qed.

Lemma Forall_trimStart (P : N -> Prop) s : Forall P s -> Forall P (trimStart s).
Proof.
  induction 1 as [| c s Hc Hs IH]; cbn [trimStart]; [constructor |].
  destruct (isWhiteSpace c); [exact IH | constructor; assumption].
Qed.

Lemma Forall_trim (P : N -> Prop) s : Forall P s -> Forall P (trim s).
Proof.
  intros H. unfold trim.
  apply Forall_rev, Forall_trimStart, Forall_rev, Forall_trimStart. exact H.
Qed.

Lemma removeAllFrom_single c s :
  lacks c (removeAllFrom [c] 0 s).
Proof.
  induction s as [| x s IH]; cbn [removeAllFrom startsWith List.length pred];
    [constructor |].
  destruct (N.eqb c x) eqn:Hx; cbn [andb]; [exact IH |].
  constructor; [| exact IH].
  intros ->. rewrite N.eqb_refl in Hx. discriminate Hx.
Qed.

Lemma removeHeadersFrom_lacks_hash :
  forall s k, lacks 35 (removeHeadersFrom k s).
Proof.
  induction s as [| c s IH]; intros k; cbn [removeHeadersFrom]; [constructor |].
  destruct k; [| apply IH].
  destruct (headerMatch (c :: s)) eqn:Hm; [| apply IH].
  constructor; [| apply IH].
  intros ->. unfold headerMatch in Hm.
  change (hashRun 6 (35%N :: s)) with (S (hashRun 5 s)) in Hm.
  remember (hashRun 5 s) as n. cbn in Hm.
  destruct (skipn n s) as [| d rest];
    [discriminate Hm | destruct (isWhiteSpace d); discriminate Hm].
Qed.

Lemma filter_lacks_brackets s :
  lacks 91 (filter (fun c => negb (isBracket c)) s)
  /\ lacks 93 (filter (fun c => negb (isBracket c)) s).
Proof.
  induction s as [| c s [IH1 IH2]]; cbn [filter]; [split; constructor |].
  destruct (negb (isBracket c)) eqn:Hc; [| split; assumption].
  split; (constructor; [| assumption]); intros ->; discriminate Hc.
Qed.

Lemma removeAllFrom_absent c p s :
  lacks c s -> removeAllFrom (c :: p) 0 s = s.
Proof.
  induction 1 as [| x s Hx _ IH]; cbn [removeAllFrom startsWith]; [reflexivity |].
  apply not_eq_sym in Hx. apply N.eqb_neq in Hx. rewrite Hx. cbn [andb].
  rewrite IH. reflexivity.
Qed.

Lemma removeHeadersFrom_absent s :
  lacks 35 s -> removeHeadersFrom 0 s = s.
Proof.
  induction 1 as [| x s Hx _ IH]; cbn [removeHeadersFrom]; [reflexivity |].
  apply N.eqb_neq in Hx. unfold headerMatch. cbn [hashRun]. rewrite Hx.
  rewrite IH. reflexivity.
Qed.

Lemma filter_absent s :
  lacks 91 s -> lacks 93 s -> filter (fun c => negb (isBracket c)) s = s.
Proof.
  intros H1 H2. induction s as [| x s IH]; [reflexivity |].
  inversion H1 as [| ? ? Ha Hs1]; inversion H2 as [| ? ? Hb Hs2]; subst.
  cbn [filter]. unfold isBracket at 1.
  apply N.eqb_neq in Ha, Hb. rewrite Ha, Hb. cbn [orb negb].
  rewrite IH by assumption. reflexivity.
Qed.

Lemma trimStart_idempotent s : trimStart (trimStart s) = trimStart s.
Proof.
  induction s as [| c s IH]; [reflexivity |].
  cbn [trimStart]. destruct (isWhiteSpace c) eqn:Hc; [exact IH |].
  cbn [trimStart]. rewrite Hc. reflexivity.
Qed.

Lemma trimStart_keeps_last l c :
  isWhiteSpace c = false -> exists l', trimStart (l ++ [c]) = l' ++ [c].
Proof.
  intros Hc. induction l as [| x l (l' & IH)]; cbn [app trimStart].
  - rewrite Hc. exists []. reflexivity.
  - destruct (isWhiteSpace x); [exists l'; exact IH |].
    exists (x :: l). reflexivity.
Qed.

Lemma trim_is_trimmed s : trimmed (trim s).
Proof.
  unfold trimmed, trim. split.
  - destruct (trimStart s) as [| c u] eqn:Hu; [reflexivity |].
    assert (Hc : isWhiteSpace c = false).
    { pose proof (trimStart_idempotent s) as Hi. rewrite Hu in Hi.
      cbn [trimStart] in Hi. destruct (isWhiteSpace c); [| reflexivity].
      exfalso. apply (f_equal (@List.length N)) in Hi. cbn in Hi.
      assert (Hle : forall l, List.length (trimStart l) <= List.length l).
      { clear. induction l as [| x l IH]; cbn [trimStart]; [apply Nat.le_refl |].
        destruct (isWhiteSpace x); cbn; [apply Nat.le_le_succ_r; exact IH |
                                          apply Nat.le_refl]. }
      specialize (Hle u). lia. }
    cbn [rev]. destruct (@trimStart_keeps_last (rev u) c Hc) as (l' & ->).
    rewrite rev_app_distr. cbn [rev app trimStart]. rewrite Hc. reflexivity.
  - rewrite rev_involutive. apply trimStart_idempotent.
Qed.

Lemma trim_trimmed s : trimmed s -> trim s = s.
Proof.
  intros (H1 & H2). unfold trim. rewrite H1, H2. apply rev_involutive.
Qed.

(** X14.  A string step cleaned for the renderer holds no asterisk, hash,
    backtick or square bracket and has no white space at either end;
    cleaning it once more changes nothing. *)
Theorem cleaned_text_is_free_of_markup :
  forall s : jsstring,
    exists o,
      cleanTextForHandwriting (Some (JString s)) = Ok o
      /\ lacks 42 o /\ lacks 35 o /\ lacks 96 o /\ lacks 91 o /\ lacks 93 o
      /\ trimmed o
      /\ cleanTextForHandwriting (Some (JString o)) = Ok o.
Proof.
  intros s. eexists. split; [reflexivity |].
  set (s1 := removeAll (js "*") (removeAll (js "**") s)).
  set (s2 := removeHeaders s1).
  set (s3 := removeAll (js "`") s2).
  set (s4 := filter (fun c => negb (isBracket c)) s3).
  assert (H42 : lacks 42 (trim s4)).
  { apply Forall_trim, Forall_filter_keeps, Forall_removeAll, Forall_removeHeadersFrom.
    apply removeAllFrom_single. }
  assert (H35 : lacks 35 (trim s4)).
  { apply Forall_trim, Forall_filter_keeps, Forall_removeAll.
    apply removeHeadersFrom_lacks_hash. }
  assert (H96 : lacks 96 (trim s4)).
  { apply Forall_trim, Forall_filter_keeps. apply removeAllFrom_single. }
  assert (H91 : lacks 91 (trim s4)).
  { apply Forall_trim. apply filter_lacks_brackets. }
  assert (H93 : lacks 93 (trim s4)).
  { apply Forall_trim. apply filter_lacks_brackets. }
  repeat (split; [assumption |]).
  split; [apply trim_is_trimmed |].
  cbn [cleanTextForHandwriting]. f_equal.
  replace (removeAll (js "**") (trim s4)) with (trim s4)
    by (symmetry; apply (@removeAllFrom_absent 42 [42%N]); exact H42).
  replace (removeAll (js "*") (trim s4)) with (trim s4)
    by (symmetry; apply (@removeAllFrom_absent 42 []); exact H42).
  unfold removeHeaders. rewrite (removeHeadersFrom_absent H35).
  replace (removeAll (js "`") (trim s4)) with (trim s4)
    by (symmetry; apply (@removeAllFrom_absent 96 []); exact H96).
  rewrite (filter_absent H91 H93).
  apply trim_trimmed, trim_is_trimmed.
Qed.

(** X15.  A step that is not a string (an array of numbers parses as
    well as one of strings) makes RenderPage throw a [TypeError] before
    any call; the error is no denial for either test, so the attempt
    counts as an ordinary failure. *)
Theorem non_string_step_fails_before_any_call :
  forall (txt : ServiceText) (ref : File) (url : jsstring)
         (step : option Json) (pageIndex : nat) (w : World),
    hasApiKey w ->
    dataUrl ref = Some url ->
    (forall s, step <> Some (JString s)) ->
    exists e,
      generateHandwrittenPage txt ref step pageIndex w = (Throw e, w)
      /\ isPermissionError e = false
      /\ deniedInCatch e = false.
Proof.
  intros txt ref url step pageIndex w Hkey Href Hstep.
  unfold generateHandwrittenPage.
  step_ok (getAiClient_ok Hkey).
  step_ok (fileToGenerativePart_ok ref w Href).
  destruct step as [[| b | n | s | l | fs] |]; cbn [cleanTextForHandwriting];
    try (eexists; split; [reflexivity | split; reflexivity]).
  contradiction (Hstep s). reflexivity.
Qed.

Lemma non_string_step_witness :
  exists e,
    generateHandwrittenPage copyA (file Sample.handwriting)
      (Some (JNumber (mkNum false 1 0))) 0
      (world (Sample.start Sample.apiKey []))
    = (Throw e, world (Sample.start Sample.apiKey []))
    /\ isPermissionError e = false
    /\ deniedInCatch e = false.
Proof.
  apply (@non_string_step_fails_before_any_call copyA (file Sample.handwriting)
           (js "data:image/png;base64,SEFORA==")
           (Some (JNumber (mkNum false 1 0))) 0
           (world (Sample.start Sample.apiKey []))).
  - reflexivity.
  - reflexivity.
  - intros s H. discriminate H.
Defined.

Example numeric_steps_fail_the_run :
  exists r,
    handleProcess copyA
      (Sample.start Sample.apiKey
         [Sample.says (js "x"); Sample.says (js "[1,2]");
          Sample.says (js "x"); Sample.says (js "[1,2]");
          Sample.says (js "x"); Sample.says (js "[1,2]")]) = Some r
    /\ attemptsUsed r = 3
    /\ processingState (component (final r))
       = failureState (js "text.replace is not a function")
    /\ List.length (calls (world (final r))) = 6.
Proof. eexists. split; [vm_compute; reflexivity |]. repeat split. Qed.

(** ** [JSON.parse] after [JSON.stringify] *)

Lemma run_app s a b :
  run s (a ++ b) = match run s a with
                   | Some s' => run s' b
                   | None => None
                   end.
Proof.
  revert s. induction a as [| c a IH]; intros s; [reflexivity |].
  cbn [app run]. destruct (step s c); [apply IH | reflexivity].
Qed.

Lemma hexValue_hexDigit d : (d < 16)%N -> hexValue (hexDigit d) = Some d.
Proof.
  intros H.
  assert (Hd : In d [0; 1; 2; 3; 4; 5; 6; 7; 8; 9; 10; 11; 12; 13; 14; 15]%N).
  { cbn [In]. lia. }
  cbn [In] in Hd.
  repeat (destruct Hd as [<- | Hd]; [reflexivity |]). contradiction.
Qed.

Lemma hex_digits_value c :
  (c < 65536)%N ->
  ((((0 * 16 + c / 4096 mod 16) * 16 + c / 256 mod 16) * 16 + c / 16 mod 16) * 16
   + c mod 16)%N = c.
Proof.
  intros H. zify. Z.to_euclidean_division_equations. lia.
Qed.

Lemma run_unicodeEscape st k acc c rest :
  (c < 65536)%N ->
  run (mkP st (MStr k acc)) (unicodeEscape c ++ rest)
  = run (mkP st (MStr k (c :: acc))) rest.
Proof.
  intros H. unfold unicodeEscape.
  change (js "\u") with [92; 117]%N.
  cbn [app run step mode stack N.eqb Pos.eqb].
  rewrite !hexValue_hexDigit by (apply N.mod_lt; discriminate).
  cbn [run step mode stack].
  rewrite !hexValue_hexDigit by (apply N.mod_lt; discriminate).
  cbn [run step mode stack].
  rewrite !hexValue_hexDigit by (apply N.mod_lt; discriminate).
  cbn [run step mode stack].
  rewrite !hexValue_hexDigit by (apply N.mod_lt; discriminate).
  rewrite (hex_digits_value H). reflexivity.
Qed.

Lemma run_quoteUnits st k s :
  forall paired acc rest,
    run (mkP st (MStr k acc)) (quoteUnits paired s ++ rest)
    = run (mkP st (MStr k (rev s ++ acc))) rest.
Proof.
  induction s as [| c s IH]; intros paired acc rest; [reflexivity |].
  cbn [quoteUnits rev]. rewrite <- app_assoc. cbn [app].
  assert (Hshort : forall x esc,
            run (mkP st (MStr k acc)) esc = Some (mkP st (MStr k (x :: acc))) ->
            c = x ->
            run (mkP st (MStr k acc)) ((esc ++ quoteUnits false s) ++ rest)
            = run (mkP st (MStr k (rev s ++ c :: acc))) rest).
  { intros x esc Hesc ->. rewrite <- app_assoc, run_app, Hesc. apply IH. }
  destruct (N.eqb c 8) eqn:H8;
    [apply (Hshort 8%N); [reflexivity | apply N.eqb_eq; exact H8] |].
  destruct (N.eqb c 9) eqn:H9;
    [apply (Hshort 9%N); [reflexivity | apply N.eqb_eq; exact H9] |].
  destruct (N.eqb c 10) eqn:H10;
    [apply (Hshort 10%N); [reflexivity | apply N.eqb_eq; exact H10] |].
  destruct (N.eqb c 12) eqn:H12;
    [apply (Hshort 12%N); [reflexivity | apply N.eqb_eq; exact H12] |].
  destruct (N.eqb c 13) eqn:H13;
    [apply (Hshort 13%N); [reflexivity | apply N.eqb_eq; exact H13] |].
  destruct (N.eqb c 34) eqn:H34;
    [apply (Hshort 34%N [92; 34]%N); [reflexivity | apply N.eqb_eq; exact H34] |].
  destruct (N.eqb c 92) eqn:H92;
    [apply (Hshort 92%N [92; 92]%N); [reflexivity | apply N.eqb_eq; exact H92] |].
  assert (Hescape : forall p,
            (c < 65536)%N ->
            run (mkP st (MStr k acc)) ((unicodeEscape c ++ quoteUnits p s) ++ rest)
            = run (mkP st (MStr k (rev s ++ c :: acc))) rest).
  { intros p Hc. rewrite <- app_assoc, (run_unicodeEscape _ _ _ _ Hc). apply IH. }
  destruct (N.ltb c 32) eqn:H32.
  { apply Hescape. apply N.ltb_lt in H32. lia. }
  assert (Hliteral : forall p,
            run (mkP st (MStr k acc)) ((c :: quoteUnits p s) ++ rest)
            = run (mkP st (MStr k (rev s ++ c :: acc))) rest).
  { intros p. cbn [app run step mode stack]. rewrite H34, H92, H32. apply IH. }
  destruct (isHighSurrogate c) eqn:Hhigh.
  { destruct s as [| c' s'].
    - replace (unicodeEscape c ++ rest)
        with ((unicodeEscape c ++ quoteUnits false []) ++ rest)
        by (cbn [quoteUnits]; rewrite app_nil_r; reflexivity).
      apply Hescape. unfold isHighSurrogate in Hhigh.
      apply andb_true_iff in Hhigh. destruct Hhigh as (_ & Hh).
      apply N.leb_le in Hh. lia.
    - destruct (isLowSurrogate c').
      + apply Hliteral.
      + apply Hescape. unfold isHighSurrogate in Hhigh.
        apply andb_true_iff in Hhigh. destruct Hhigh as (_ & Hh).
        apply N.leb_le in Hh. lia. }
  destruct (isLowSurrogate c) eqn:Hlow; [| apply Hliteral].
  destruct paired.
  - apply (Hliteral false).
  - apply Hescape. unfold isLowSurrogate in Hlow.
    apply andb_true_iff in Hlow. destruct Hlow as (_ & Hl).
    apply N.leb_le in Hl. lia.
Qed.

Lemma run_quote es st b s rest :
  run (mkP (FArr es :: st) (MValue b)) (quote s ++ rest)
  = run (mkP (FArr (JString s :: es) :: st) MAfter) rest.
Proof.
  unfold quote. change dq with [34%N]. rewrite <- !app_assoc.
  cbn [app run step mode stack stepValue isJsonSpace N.eqb Pos.eqb orb].
  rewrite run_quoteUnits. rewrite app_nil_r.
  cbn [run step mode stack N.eqb Pos.eqb finishString complete].
  rewrite rev_involutive. reflexivity.
Qed.

Lemma joinWith_cons sep (x y : jsstring) r :
  joinWith sep (x :: y :: r) = x ++ sep ++ joinWith sep (y :: r).
Proof. reflexivity. Qed.

Lemma run_comma es st rest :
  run (mkP (FArr es :: st) MAfter) (js "," ++ rest)
  = run (mkP (FArr es :: st) (MValue false)) rest.
Proof. reflexivity. Qed.

Lemma run_close es st :
  run (mkP (FArr es :: st) MAfter) (js "]")
  = complete (JArray (rev es)) st.
Proof.
  change (js "]") with [93%N].
  cbn [run step mode stack stepAfter isJsonSpace N.eqb Pos.eqb orb].
  destruct (complete (JArray (rev es)) st); reflexivity.
Qed.

Lemma run_string_elements l :
  forall es st b,
    l <> [] ->
    run (mkP (FArr es :: st) (MValue b))
      (joinWith (js ",") (map quote l) ++ js "]")
    = complete (JArray (rev es ++ map JString l)) st.
Proof.
  induction l as [| x l IH]; intros es st b Hne; [contradiction Hne; reflexivity |].
  destruct l as [| y l].
  - cbn [map joinWith]. rewrite run_quote, run_close. reflexivity.
  - cbn [map]. rewrite joinWith_cons, <- !app_assoc, run_quote, run_comma.
    specialize (IH (JString x :: es) st false ltac:(discriminate)).
    cbn [map] in IH. rewrite IH. cbn [rev]. rewrite <- app_assoc. reflexivity.
Qed.

Lemma parse_stringify_strings l :
  parse (stringify (JArray (map JString l))) = Some (JArray (map JString l)).
Proof.
  unfold parse. cbn [stringify]. rewrite map_map.
  change (map (fun x => stringify (JString x)) l) with (map quote l).
  change (js "[") with [91%N]. cbn [app run step mode stack stepValue
    isJsonSpace N.eqb Pos.eqb orb].
  destruct l as [| x l].
  - reflexivity.
  - rewrite run_string_elements by discriminate. reflexivity.
Qed.

Lemma hexDigit_not_backtick d : hexDigit d <> 96%N.
Proof.
  unfold hexDigit.
  destruct (N.ltb d 10) eqn:H; [apply N.ltb_lt in H | apply N.ltb_ge in H]; lia.
Qed.

Lemma quoteUnits_lacks_backtick s :
  forall paired, lacks 96 s -> lacks 96 (quoteUnits paired s).
Proof.
  unfold lacks.
  induction s as [| c s IH]; intros paired H; [constructor |].
  inversion H as [| ? ? Hc Hs]; subst.
  assert (Hesc : Forall (fun x => x <> 96%N) (unicodeEscape c)).
  { unfold unicodeEscape. change (js "\u") with [92; 117]%N. cbn [app].
    repeat (constructor; [first [apply hexDigit_not_backtick | discriminate] |]).
    constructor. }
  cbn [quoteUnits].
  repeat match goal with
         | |- Forall _ (if ?b then _ else _) => destruct b
         | |- Forall _ (match ?l with [] => _ | _ :: _ => _ end) => destruct l
         | |- Forall _ (?a ++ ?b) => apply Forall_app; split
         | |- Forall _ (?x :: ?l) => constructor
         | |- Forall _ [] => constructor
         | |- Forall _ (quoteUnits _ _) => apply IH; assumption
         | |- Forall _ (unicodeEscape _) => exact Hesc
         | |- Forall _ (js _) => repeat constructor; discriminate
         | |- _ <> _ => first [assumption | discriminate]
         end.
Qed.

Lemma joinWith_lacks c sep l :
  lacks c sep -> Forall (lacks c) l -> lacks c (joinWith sep l).
Proof.
  intros Hsep H. induction H as [| x l Hx Hl IH]; [constructor |].
  destruct l as [| y l]; [exact Hx |].
  rewrite joinWith_cons. apply Forall_app. split; [exact Hx |].
  apply Forall_app. split; [exact Hsep | exact IH].
Qed.

Lemma stringify_strings_lacks_backtick l :
  Forall (lacks 96) l -> lacks 96 (stringify (JArray (map JString l))).
Proof.
  intros H. cbn [stringify]. rewrite map_map.
  apply Forall_app. split; [repeat constructor; discriminate |].
  apply Forall_app. split; [| repeat constructor; discriminate].
  apply joinWith_lacks; [repeat constructor; discriminate |].
  apply Forall_map. cbn [stringify].
  induction H as [| x l Hx _ IH]; constructor; [| exact IH].
  unfold quote. apply Forall_app. split; [repeat constructor; discriminate |].
  apply Forall_app. split; [| repeat constructor; discriminate].
  apply quoteUnits_lacks_backtick. exact Hx.
Qed.

Lemma stringify_array_framed l :
  exists body, stringify (JArray l) = 91%N :: body ++ [93%N].
Proof. eexists. reflexivity. Qed.

Lemma framed_is_trimmed body : trimmed (91%N :: body ++ [93%N]).
Proof.
  unfold trimmed. split; [reflexivity |].
  cbn [rev]. rewrite rev_app_distr. reflexivity.
Qed.

Lemma removeAllFrom_absent_then c p s tail :
  lacks c s ->
  removeAllFrom (c :: p) 0 (s ++ tail) = s ++ removeAllFrom (c :: p) 0 tail.
Proof.
  induction 1 as [| x s Hx _ IH]; [reflexivity |].
  cbn [app removeAllFrom startsWith].
  apply not_eq_sym in Hx. apply N.eqb_neq in Hx. rewrite Hx. cbn [andb].
  rewrite IH. reflexivity.
Qed.

Lemma stripFences_plain body :
  lacks 96 (91%N :: body ++ [93%N]) ->
  stripFences (91%N :: body ++ [93%N]) = 91%N :: body ++ [93%N].
Proof.
  intros H. unfold stripFences.
  replace (removeAll (js "```json") (91%N :: body ++ [93%N]))
    with (91%N :: body ++ [93%N])
    by (symmetry; apply (@removeAllFrom_absent 96 (js "``json")); exact H).
  replace (removeAll (js "```") (91%N :: body ++ [93%N]))
    with (91%N :: body ++ [93%N])
    by (symmetry; apply (@removeAllFrom_absent 96 (js "``")); exact H).
  apply trim_trimmed, framed_is_trimmed.
Qed.

Lemma stripFences_json_fence body :
  lacks 96 (91%N :: body ++ [93%N]) ->
  stripFences (js "```json" ++ (91%N :: body ++ [93%N]) ++ js "```")
  = 91%N :: body ++ [93%N].
Proof.
  intros H. unfold stripFences.
  replace (removeAll (js "```json")
             (js "```json" ++ (91%N :: body ++ [93%N]) ++ js "```"))
    with ((91%N :: body ++ [93%N]) ++ js "```").
  2:{ symmetry.
      change (removeAll (js "```json")
                (js "```json" ++ (91%N :: body ++ [93%N]) ++ js "```"))
        with (removeAllFrom (96%N :: js "``json") 0
                ((91%N :: body ++ [93%N]) ++ js "```")).
      rewrite (removeAllFrom_absent_then (js "``json") (js "```") H).
      reflexivity. }
  replace (removeAll (js "```") ((91%N :: body ++ [93%N]) ++ js "```"))
    with (91%N :: body ++ [93%N]).
  2:{ symmetry.
      change (removeAll (js "```") ((91%N :: body ++ [93%N]) ++ js "```"))
        with (removeAllFrom (96%N :: js "``") 0
                ((91%N :: body ++ [93%N]) ++ js "```")).
      rewrite (removeAllFrom_absent_then (js "``") (js "```") H).
      cbn. rewrite !app_nil_r. reflexivity. }
  apply trim_trimmed, framed_is_trimmed.
Qed.

(** X16.  [JSON.parse] reads back every array of strings that
    [JSON.stringify] wrote, whatever the strings hold (quotes, line
    breaks, control characters, lone surrogates).  So when the text of a
    Solve response is such an array, bare or inside a json code fence,
    and no string holds a backtick, the List Interpreter returns exactly
    those strings. *)
Theorem solve_reads_back_string_arrays :
  forall (l : list jsstring) (ps : list ResponsePart),
    let text := stringify (JArray (map JString l)) in
    parse text = Some (JArray (map JString l))
    /\ (Forall (lacks 96) l ->
        parseSolutionResponse (mkResponse (Some text) ps) = map JString l
        /\ parseSolutionResponse
             (mkResponse (Some (js "```json" ++ text ++ js "```")) ps)
           = map JString l).
Proof.
  intros l ps. cbv zeta. split; [apply parse_stringify_strings |].
  intros Hl.
  pose proof (stringify_strings_lacks_backtick Hl) as Hlacks.
  pose proof (parse_stringify_strings l) as Hparse.
  destruct (stringify_array_framed (map JString l)) as (body & Hbody).
  rewrite Hbody in *.
  unfold parseSolutionResponse. cbn [text].
  split.
  - change (orText (Some (91%N :: body ++ [93%N])) (js "[]"))
      with (91%N :: body ++ [93%N]).
    rewrite (stripFences_plain body Hlacks), Hparse. reflexivity.
  - change (orText (Some (js "```json" ++ (91%N :: body ++ [93%N]) ++ js "```"))
              (js "[]"))
      with (js "```json" ++ (91%N :: body ++ [93%N]) ++ js "```").
    rewrite (stripFences_json_fence body Hlacks), Hparse. reflexivity.
Qed.

Lemma solve_reads_back_witness :
  parseSolutionResponse
    (mkResponse (Some (stringify (JArray (map JString [js "a"; dq ++ js "b\"]))))
       [])
  = map JString [js "a"; dq ++ js "b\"].
Proof.
  apply (proj2 (@solve_reads_back_string_arrays [js "a"; dq ++ js "b\"] [])).
  repeat constructor; discriminate.
Defined.

(** ** Transcribe never returns the empty string *)

(** X17.  Whatever the backend answers, a text that Transcribe returns is
    not empty, so Solve is never asked about an empty problem. *)
Theorem transcribed_text_is_not_empty :
  forall (f : File) (w w' : World) (problemText : jsstring),
    transcribeMathProblem f w = (Ok problemText, w') ->
    problemText <> [].
Proof.
  intros f w w' problemText.
  unfold transcribeMathProblem, bind, getAiClient, fileToGenerativePart,
    generateContent.
  destruct (isSet _); [| discriminate].
  destruct (dataUrl f); cbn [ret throw]; [| discriminate].
  destruct (answer w _) as [r | e]; [| discriminate].
  cbn [ret]. intros H. injection H as <- _.
  destruct (text r) as [[| c t] |]; discriminate.
Qed.

Lemma transcribed_text_witness :
  js "x+1=2" <> [].
Proof.
  apply (@transcribed_text_is_not_empty (file Sample.question)
           (world (Sample.start Sample.apiKey [Sample.says (js "x+1=2")]))
           (called (world (Sample.start Sample.apiKey [Sample.says (js "x+1=2")]))
              (transcribeRequest (file Sample.question) (Some (js "UVVFU1Q="))))).
  reflexivity.
Defined.

(** ** The three ends of a run *)


(** X18.  A run started with both images ends in one of three
    ways: completed; stopped by a denial, which is the only way the key
    is forgotten and the only failure that can come before the third
    attempt; or out of attempts after the third, with a SYSTEM FAILURE
    message and the key kept. *)
Theorem run_ends_one_of_three_ways :
  forall (txt : ServiceText) (m : Machine) (q h : UploadedFile),
    questionImage (component m) = Some q ->
    handwritingImage (component m) = Some h ->
    exists r,
      handleProcess txt m = Some r
      /\ EndsOneOfThree (isKeySelected (component m)) r.
Proof.
  intros txt m q h Hq Hh.
  destruct (handleProcess_total txt m) as (r & Hr). exists r.
  split; [exact Hr |]. destruct m as [a w]. cbn in Hq, Hh.
  rewrite (@handleProcess_start txt a w q h Hq Hh) in Hr.
  exact (@attemptLoop_three_ends txt q h 3 0 (published a []) w r
           (Nat.lt_0_succ _) Hr).
Qed.

Lemma run_ends_one_of_three_witness :
  exists r,
    handleProcess copyA (Sample.start Sample.apiKey [Fails Sample.overloaded]) = Some r
    /\ EndsOneOfThree true r.
Proof.
  apply (@run_ends_one_of_three_ways copyA
           (Sample.start Sample.apiKey [Fails Sample.overloaded])
           Sample.question Sample.handwriting).
  - reflexivity.
  - reflexivity.
Defined.
